(** * Defender 2084: the gameplay simulation core

    A shallow embedding of the decision logic of [game.js] (classes
    [Lander] and [Game]) and proofs of the properties its specification
    states about that logic.

    Numbers.  A JavaScript number is modelled by the mathematical value it
    stands for.  Counters, the score and clock readings ([Date.now()], in
    milliseconds) are integers ([Z]).  The health and energy pools and the
    speed multiplier are computed with [+], [-], [*], [min] and [max] on
    decimal literals only: exact rationals ([Q]).  Positions go through
    [BABYLON.Vector3.Distance] and [normalize], which take square roots:
    real numbers ([R]).  Rounding of binary floating point is not
    modelled.

    Engine.  The 3D engine (BABYLON) is a collaborator: its vector
    arithmetic is written out below, its mesh-intersection test and terrain
    height query are the fields of the class [Engine], and meshes, materials
    and GUI widgets are left out.  The only presentation effect that is
    kept is the number of game-over screens [showGameOver] has put up.

    Exceptions.  A method that can raise a TypeError has an [Outcome] for
    its result: it returns or throws, and leaves the game in some state
    either way.  [update] wraps its body in [try]/[catch], so it always
    returns; what its body did before the exception stays done. *)

From Stdlib Require Import ZArith QArith Qround Qminmax Qreals Reals Psatz.
From Stdlib Require Import String.
From stdpp Require Import list.

Local Open Scope R_scope.

(** ** Vectors (the part of [BABYLON.Vector3] the game uses) *)

Record Vector3 : Type := mkV { vx : R; vy : R; vz : R }.

Definition Vzero : Vector3 := mkV 0 0 0.
Definition Vup : Vector3 := mkV 0 1 0.

Definition Vadd (a b : Vector3) : Vector3 :=
  mkV (vx a + vx b) (vy a + vy b) (vz a + vz b).

Definition Vsubtract (a b : Vector3) : Vector3 :=
  mkV (vx a - vx b) (vy a - vy b) (vz a - vz b).

Definition Vscale (k : R) (a : Vector3) : Vector3 :=
  mkV (vx a * k) (vy a * k) (vz a * k).

Definition Vcross (a b : Vector3) : Vector3 :=
  mkV (vy a * vz b - vz a * vy b)
      (vz a * vx b - vx a * vz b)
      (vx a * vy b - vy a * vx b).

Definition Vlength (a : Vector3) : R :=
  sqrt (vx a * vx a + vy a * vy a + vz a * vz a).

(** [Vector3.Distance(a, b)]: the Euclidean distance. *)
Definition Distance (a b : Vector3) : R := Vlength (Vsubtract a b).

(** [v.normalize()]: the engine leaves a vector of length 0 as it is and
    divides any other by its length. *)
Definition Vnormalize (a : Vector3) : Vector3 :=
  if Req_dec_T (Vlength a) 0 then a else Vscale (1 / Vlength a) a.

(** ** Entities *)

(** A laser is an engine mesh with a [direction] stored on it. *)
Record Laser : Type := mkLaser {
  laser_position : Vector3;
  laser_direction : Vector3
}.

(** An astronaut is an engine mesh with its initial coordinates stored on
    it.  Being a mesh it always has a position. *)
Record Astronaut : Type := mkAstronaut {
  astronaut_position : Vector3;
  astronaut_initialX : R;
  astronaut_initialZ : R
}.

(** [class Lander].  [lander_position] is [this.mesh.position]; the
    constructor always creates the mesh.  The field [this.astronauts] is
    the game's own array (the constructor is handed the reference, not a
    copy), so a lander sees the astronauts that are live when it updates:
    [Lander_update] takes the game's current list as an argument. *)
Record Lander : Type := mkLander {
  lander_position : Vector3;
  lander_initialZ : R;
  lander_speed : R
}.

(** The engine as the game calls it: [a.intersectsMesh(b, false)] for a
    laser against a lander's mesh and for a lander's mesh against an
    astronaut, and [gamePlane.getHeightAtCoordinates(x, z)]. *)
Class Engine : Type := {
  laserIntersects : Laser -> Lander -> bool;
  landerIntersects : Lander -> Astronaut -> bool;
  getHeightAtCoordinates : R -> R -> R
}.

(** ** The game object *)

(** The fields of [Game] that the simulation reads or writes.
    [cameraPosition] is [this.camera.position], [gamePlaneZ] is
    [this.gamePlane.position.z], [keys] is the object [this.keys] (a key
    that was never pressed reads as [false]) and [gameOverScreens] counts
    the calls of [showGameOver]. *)
Record Game : Type := mkGame {
  astronauts : list Astronaut;
  lasers : list Laser;
  landers : list Lander;
  score : Z;
  isRunning : bool;
  isGameOver : bool;
  gameSpeed : Q;
  difficulty : Z;
  maxEnemies : Z;
  moveSpeed : R;
  keys : string -> bool;
  laserSpeed : R;
  canShoot : bool;
  landerSpawnInterval : Z;
  lastLanderSpawn : Z;
  astronautsSaved : Z;
  landersDestroyed : Z;
  maxHealth : Q;
  health : Q;
  maxEnergy : Q;
  energy : Q;
  energyRechargeRate : Q;
  laserEnergyCost : Q;
  gravity : R;
  verticalVelocity : R;
  isGrounded : bool;
  startTime : Z;
  cameraPosition : Vector3;
  gamePlaneZ : R;
  gameOverScreens : nat
}.

Definition set_astronauts (v : list Astronaut) (g : Game) : Game :=
  mkGame v (lasers g) (landers g) (score g) (isRunning g) (isGameOver g)
    (gameSpeed g) (difficulty g) (maxEnemies g) (moveSpeed g) (keys g)
    (laserSpeed g) (canShoot g) (landerSpawnInterval g) (lastLanderSpawn g)
    (astronautsSaved g) (landersDestroyed g) (maxHealth g) (health g)
    (maxEnergy g) (energy g) (energyRechargeRate g) (laserEnergyCost g)
    (gravity g) (verticalVelocity g) (isGrounded g) (startTime g)
    (cameraPosition g) (gamePlaneZ g) (gameOverScreens g).

Definition set_lasers (v : list Laser) (g : Game) : Game :=
  mkGame (astronauts g) v (landers g) (score g) (isRunning g) (isGameOver g)
    (gameSpeed g) (difficulty g) (maxEnemies g) (moveSpeed g) (keys g)
    (laserSpeed g) (canShoot g) (landerSpawnInterval g) (lastLanderSpawn g)
    (astronautsSaved g) (landersDestroyed g) (maxHealth g) (health g)
    (maxEnergy g) (energy g) (energyRechargeRate g) (laserEnergyCost g)
    (gravity g) (verticalVelocity g) (isGrounded g) (startTime g)
    (cameraPosition g) (gamePlaneZ g) (gameOverScreens g).

Definition set_landers (v : list Lander) (g : Game) : Game :=
  mkGame (astronauts g) (lasers g) v (score g) (isRunning g) (isGameOver g)
    (gameSpeed g) (difficulty g) (maxEnemies g) (moveSpeed g) (keys g)
    (laserSpeed g) (canShoot g) (landerSpawnInterval g) (lastLanderSpawn g)
    (astronautsSaved g) (landersDestroyed g) (maxHealth g) (health g)
    (maxEnergy g) (energy g) (energyRechargeRate g) (laserEnergyCost g)
    (gravity g) (verticalVelocity g) (isGrounded g) (startTime g)
    (cameraPosition g) (gamePlaneZ g) (gameOverScreens g).

Definition set_score (v : Z) (g : Game) : Game :=
  mkGame (astronauts g) (lasers g) (landers g) v (isRunning g) (isGameOver g)
    (gameSpeed g) (difficulty g) (maxEnemies g) (moveSpeed g) (keys g)
    (laserSpeed g) (canShoot g) (landerSpawnInterval g) (lastLanderSpawn g)
    (astronautsSaved g) (landersDestroyed g) (maxHealth g) (health g)
    (maxEnergy g) (energy g) (energyRechargeRate g) (laserEnergyCost g)
    (gravity g) (verticalVelocity g) (isGrounded g) (startTime g)
    (cameraPosition g) (gamePlaneZ g) (gameOverScreens g).

Definition set_isRunning (v : bool) (g : Game) : Game :=
  mkGame (astronauts g) (lasers g) (landers g) (score g) v (isGameOver g)
    (gameSpeed g) (difficulty g) (maxEnemies g) (moveSpeed g) (keys g)
    (laserSpeed g) (canShoot g) (landerSpawnInterval g) (lastLanderSpawn g)
    (astronautsSaved g) (landersDestroyed g) (maxHealth g) (health g)
    (maxEnergy g) (energy g) (energyRechargeRate g) (laserEnergyCost g)
    (gravity g) (verticalVelocity g) (isGrounded g) (startTime g)
    (cameraPosition g) (gamePlaneZ g) (gameOverScreens g).

Definition set_isGameOver (v : bool) (g : Game) : Game :=
  mkGame (astronauts g) (lasers g) (landers g) (score g) (isRunning g) v
    (gameSpeed g) (difficulty g) (maxEnemies g) (moveSpeed g) (keys g)
    (laserSpeed g) (canShoot g) (landerSpawnInterval g) (lastLanderSpawn g)
    (astronautsSaved g) (landersDestroyed g) (maxHealth g) (health g)
    (maxEnergy g) (energy g) (energyRechargeRate g) (laserEnergyCost g)
    (gravity g) (verticalVelocity g) (isGrounded g) (startTime g)
    (cameraPosition g) (gamePlaneZ g) (gameOverScreens g).

Definition set_gameSpeed (v : Q) (g : Game) : Game :=
  mkGame (astronauts g) (lasers g) (landers g) (score g) (isRunning g)
    (isGameOver g) v (difficulty g) (maxEnemies g) (moveSpeed g) (keys g)
    (laserSpeed g) (canShoot g) (landerSpawnInterval g) (lastLanderSpawn g)
    (astronautsSaved g) (landersDestroyed g) (maxHealth g) (health g)
    (maxEnergy g) (energy g) (energyRechargeRate g) (laserEnergyCost g)
    (gravity g) (verticalVelocity g) (isGrounded g) (startTime g)
    (cameraPosition g) (gamePlaneZ g) (gameOverScreens g).

Definition set_difficulty (v : Z) (g : Game) : Game :=
  mkGame (astronauts g) (lasers g) (landers g) (score g) (isRunning g)
    (isGameOver g) (gameSpeed g) v (maxEnemies g) (moveSpeed g) (keys g)
    (laserSpeed g) (canShoot g) (landerSpawnInterval g) (lastLanderSpawn g)
    (astronautsSaved g) (landersDestroyed g) (maxHealth g) (health g)
    (maxEnergy g) (energy g) (energyRechargeRate g) (laserEnergyCost g)
    (gravity g) (verticalVelocity g) (isGrounded g) (startTime g)
    (cameraPosition g) (gamePlaneZ g) (gameOverScreens g).

Definition set_maxEnemies (v : Z) (g : Game) : Game :=
  mkGame (astronauts g) (lasers g) (landers g) (score g) (isRunning g)
    (isGameOver g) (gameSpeed g) (difficulty g) v (moveSpeed g) (keys g)
    (laserSpeed g) (canShoot g) (landerSpawnInterval g) (lastLanderSpawn g)
    (astronautsSaved g) (landersDestroyed g) (maxHealth g) (health g)
    (maxEnergy g) (energy g) (energyRechargeRate g) (laserEnergyCost g)
    (gravity g) (verticalVelocity g) (isGrounded g) (startTime g)
    (cameraPosition g) (gamePlaneZ g) (gameOverScreens g).

Definition set_keys (v : string -> bool) (g : Game) : Game :=
  mkGame (astronauts g) (lasers g) (landers g) (score g) (isRunning g)
    (isGameOver g) (gameSpeed g) (difficulty g) (maxEnemies g) (moveSpeed g) v
    (laserSpeed g) (canShoot g) (landerSpawnInterval g) (lastLanderSpawn g)
    (astronautsSaved g) (landersDestroyed g) (maxHealth g) (health g)
    (maxEnergy g) (energy g) (energyRechargeRate g) (laserEnergyCost g)
    (gravity g) (verticalVelocity g) (isGrounded g) (startTime g)
    (cameraPosition g) (gamePlaneZ g) (gameOverScreens g).

Definition set_canShoot (v : bool) (g : Game) : Game :=
  mkGame (astronauts g) (lasers g) (landers g) (score g) (isRunning g)
    (isGameOver g) (gameSpeed g) (difficulty g) (maxEnemies g) (moveSpeed g)
    (keys g) (laserSpeed g) v (landerSpawnInterval g) (lastLanderSpawn g)
    (astronautsSaved g) (landersDestroyed g) (maxHealth g) (health g)
    (maxEnergy g) (energy g) (energyRechargeRate g) (laserEnergyCost g)
    (gravity g) (verticalVelocity g) (isGrounded g) (startTime g)
    (cameraPosition g) (gamePlaneZ g) (gameOverScreens g).

Definition set_landerSpawnInterval (v : Z) (g : Game) : Game :=
  mkGame (astronauts g) (lasers g) (landers g) (score g) (isRunning g)
    (isGameOver g) (gameSpeed g) (difficulty g) (maxEnemies g) (moveSpeed g)
    (keys g) (laserSpeed g) (canShoot g) v (lastLanderSpawn g)
    (astronautsSaved g) (landersDestroyed g) (maxHealth g) (health g)
    (maxEnergy g) (energy g) (energyRechargeRate g) (laserEnergyCost g)
    (gravity g) (verticalVelocity g) (isGrounded g) (startTime g)
    (cameraPosition g) (gamePlaneZ g) (gameOverScreens g).

Definition set_lastLanderSpawn (v : Z) (g : Game) : Game :=
  mkGame (astronauts g) (lasers g) (landers g) (score g) (isRunning g)
    (isGameOver g) (gameSpeed g) (difficulty g) (maxEnemies g) (moveSpeed g)
    (keys g) (laserSpeed g) (canShoot g) (landerSpawnInterval g) v
    (astronautsSaved g) (landersDestroyed g) (maxHealth g) (health g)
    (maxEnergy g) (energy g) (energyRechargeRate g) (laserEnergyCost g)
    (gravity g) (verticalVelocity g) (isGrounded g) (startTime g)
    (cameraPosition g) (gamePlaneZ g) (gameOverScreens g).

Definition set_astronautsSaved (v : Z) (g : Game) : Game :=
  mkGame (astronauts g) (lasers g) (landers g) (score g) (isRunning g)
    (isGameOver g) (gameSpeed g) (difficulty g) (maxEnemies g) (moveSpeed g)
    (keys g) (laserSpeed g) (canShoot g) (landerSpawnInterval g)
    (lastLanderSpawn g) v (landersDestroyed g) (maxHealth g) (health g)
    (maxEnergy g) (energy g) (energyRechargeRate g) (laserEnergyCost g)
    (gravity g) (verticalVelocity g) (isGrounded g) (startTime g)
    (cameraPosition g) (gamePlaneZ g) (gameOverScreens g).

Definition set_landersDestroyed (v : Z) (g : Game) : Game :=
  mkGame (astronauts g) (lasers g) (landers g) (score g) (isRunning g)
    (isGameOver g) (gameSpeed g) (difficulty g) (maxEnemies g) (moveSpeed g)
    (keys g) (laserSpeed g) (canShoot g) (landerSpawnInterval g)
    (lastLanderSpawn g) (astronautsSaved g) v (maxHealth g) (health g)
    (maxEnergy g) (energy g) (energyRechargeRate g) (laserEnergyCost g)
    (gravity g) (verticalVelocity g) (isGrounded g) (startTime g)
    (cameraPosition g) (gamePlaneZ g) (gameOverScreens g).

Definition set_health (v : Q) (g : Game) : Game :=
  mkGame (astronauts g) (lasers g) (landers g) (score g) (isRunning g)
    (isGameOver g) (gameSpeed g) (difficulty g) (maxEnemies g) (moveSpeed g)
    (keys g) (laserSpeed g) (canShoot g) (landerSpawnInterval g)
    (lastLanderSpawn g) (astronautsSaved g) (landersDestroyed g) (maxHealth g)
    v (maxEnergy g) (energy g) (energyRechargeRate g) (laserEnergyCost g)
    (gravity g) (verticalVelocity g) (isGrounded g) (startTime g)
    (cameraPosition g) (gamePlaneZ g) (gameOverScreens g).

Definition set_energy (v : Q) (g : Game) : Game :=
  mkGame (astronauts g) (lasers g) (landers g) (score g) (isRunning g)
    (isGameOver g) (gameSpeed g) (difficulty g) (maxEnemies g) (moveSpeed g)
    (keys g) (laserSpeed g) (canShoot g) (landerSpawnInterval g)
    (lastLanderSpawn g) (astronautsSaved g) (landersDestroyed g) (maxHealth g)
    (health g) (maxEnergy g) v (energyRechargeRate g) (laserEnergyCost g)
    (gravity g) (verticalVelocity g) (isGrounded g) (startTime g)
    (cameraPosition g) (gamePlaneZ g) (gameOverScreens g).

Definition set_verticalVelocity (v : R) (g : Game) : Game :=
  mkGame (astronauts g) (lasers g) (landers g) (score g) (isRunning g)
    (isGameOver g) (gameSpeed g) (difficulty g) (maxEnemies g) (moveSpeed g)
    (keys g) (laserSpeed g) (canShoot g) (landerSpawnInterval g)
    (lastLanderSpawn g) (astronautsSaved g) (landersDestroyed g) (maxHealth g)
    (health g) (maxEnergy g) (energy g) (energyRechargeRate g)
    (laserEnergyCost g) (gravity g) v (isGrounded g) (startTime g)
    (cameraPosition g) (gamePlaneZ g) (gameOverScreens g).

Definition set_isGrounded (v : bool) (g : Game) : Game :=
  mkGame (astronauts g) (lasers g) (landers g) (score g) (isRunning g)
    (isGameOver g) (gameSpeed g) (difficulty g) (maxEnemies g) (moveSpeed g)
    (keys g) (laserSpeed g) (canShoot g) (landerSpawnInterval g)
    (lastLanderSpawn g) (astronautsSaved g) (landersDestroyed g) (maxHealth g)
    (health g) (maxEnergy g) (energy g) (energyRechargeRate g)
    (laserEnergyCost g) (gravity g) (verticalVelocity g) v (startTime g)
    (cameraPosition g) (gamePlaneZ g) (gameOverScreens g).

Definition set_startTime (v : Z) (g : Game) : Game :=
  mkGame (astronauts g) (lasers g) (landers g) (score g) (isRunning g)
    (isGameOver g) (gameSpeed g) (difficulty g) (maxEnemies g) (moveSpeed g)
    (keys g) (laserSpeed g) (canShoot g) (landerSpawnInterval g)
    (lastLanderSpawn g) (astronautsSaved g) (landersDestroyed g) (maxHealth g)
    (health g) (maxEnergy g) (energy g) (energyRechargeRate g)
    (laserEnergyCost g) (gravity g) (verticalVelocity g) (isGrounded g) v
    (cameraPosition g) (gamePlaneZ g) (gameOverScreens g).

Definition set_cameraPosition (v : Vector3) (g : Game) : Game :=
  mkGame (astronauts g) (lasers g) (landers g) (score g) (isRunning g)
    (isGameOver g) (gameSpeed g) (difficulty g) (maxEnemies g) (moveSpeed g)
    (keys g) (laserSpeed g) (canShoot g) (landerSpawnInterval g)
    (lastLanderSpawn g) (astronautsSaved g) (landersDestroyed g) (maxHealth g)
    (health g) (maxEnergy g) (energy g) (energyRechargeRate g)
    (laserEnergyCost g) (gravity g) (verticalVelocity g) (isGrounded g)
    (startTime g) v (gamePlaneZ g) (gameOverScreens g).

Definition set_gameOverScreens (v : nat) (g : Game) : Game :=
  mkGame (astronauts g) (lasers g) (landers g) (score g) (isRunning g)
    (isGameOver g) (gameSpeed g) (difficulty g) (maxEnemies g) (moveSpeed g)
    (keys g) (laserSpeed g) (canShoot g) (landerSpawnInterval g)
    (lastLanderSpawn g) (astronautsSaved g) (landersDestroyed g) (maxHealth g)
    (health g) (maxEnergy g) (energy g) (energyRechargeRate g)
    (laserEnergyCost g) (gravity g) (verticalVelocity g) (isGrounded g)
    (startTime g) (cameraPosition g) (gamePlaneZ g) v.
(** ** Construction *)

(** [initializeGameProperties], then [createScene]: the camera starts at
    (0, 10, -8), the ground plane at depth 0, and [createAstronauts] fills
    the astronaut array (here [crew]).  [now] is the reading of
    [Date.now()].  The method does not assign [astronautsSaved] and
    [landersDestroyed]: they are assigned for the first time by the
    increments of [updateAstronautsSaved] and [updateLandersDestroyed].
    The record holds 0 for them, the number the HUD labels are created
    with and the constructor of the later copy of the class in the same
    file assigns; the statements below that mention a counter are stated
    for every game, whatever number its counter holds. *)
Definition initializeGameProperties (now : Z) (crew : list Astronaut) : Game :=
  {| astronauts := crew; lasers := []; landers := [];
     score := 0; isRunning := false; isGameOver := false;
     gameSpeed := 1; difficulty := 1; maxEnemies := 5;
     moveSpeed := 1 / 10; keys := fun _ => false;
     laserSpeed := 2; canShoot := true;
     landerSpawnInterval := 3000; lastLanderSpawn := 0;
     astronautsSaved := 0; landersDestroyed := 0;
     maxHealth := 100; health := 100; maxEnergy := 100; energy := 100;
     energyRechargeRate := 2 # 10; laserEnergyCost := 10;
     gravity := - (981 / 100); verticalVelocity := 0; isGrounded := false;
     startTime := now;
     cameraPosition := mkV 0 10 (-8); gamePlaneZ := 0;
     gameOverScreens := 0 |}.

(** ** Score and counters *)

Definition updateScore (points : Z) (g : Game) : Game :=
  set_score (score g + points) g.

Definition updateAstronautsSaved (g : Game) : Game :=
  updateScore 100 (set_astronautsSaved (astronautsSaved g + 1) g).

Definition updateLandersDestroyed (g : Game) : Game :=
  updateScore 50 (set_landersDestroyed (landersDestroyed g + 1) g).

(** ** Health and energy *)

Definition Qlt_bool (x y : Q) : bool := negb (Qle_bool y x).

(** [showGameOver] builds the game-over screen. *)
Definition showGameOver (g : Game) : Game :=
  set_gameOverScreens (S (gameOverScreens g)) g.

Definition takeDamage (amount : Q) (g : Game) : Game :=
  let g := set_health (Qmax 0 (health g - amount)) g in
  if Qle_bool (health g) 0 && negb (isGameOver g)
  then showGameOver (set_isGameOver true g)
  else g.

(** [shootLaser]; [forward] is the camera's forward direction, which the
    engine computes from the camera's rotation.  The new laser starts at a
    copy of the camera position. *)
Definition shootLaser (forward : Vector3) (g : Game) : Game :=
  if Qle_bool (laserEnergyCost g) (energy g)
  then
    let laser := mkLaser (cameraPosition g) forward in
    let g := set_lasers (lasers g ++ [laser]) g in
    set_energy (energy g - laserEnergyCost g) g
  else g.

(** ** Input events ([setupControls]) *)

Definition setKey (key : string) (b : bool) (g : Game) : Game :=
  set_keys (fun k => if String.eqb k key then b else keys g k) g.

(** The [keydown] listener: [key] is [e.key], [code] is [e.code]. *)
Definition keydown (key code : string) (forward : Vector3) (g : Game) : Game :=
  let g := setKey key true g in
  if String.eqb code "Space" && canShoot g
  then set_canShoot false (shootLaser forward g)
  else g.

Definition keyup (key : string) (g : Game) : Game := setKey key false g.

(** The timer the [keydown] listener arms: the cooldown is over. *)
Definition cooldownElapsed (g : Game) : Game := set_canShoot true g.

(** ** Player movement *)

(** [updateMovement]; [deltaTime] is [engine.getDeltaTime() / 1000] and
    [cameraDirection] the camera's forward direction.  The roll of the
    camera and its target belong to the engine's camera and are left out. *)
Definition updateMovement `{Engine} (deltaTime : R) (cameraDirection : Vector3)
    (g : Game) : Game :=
  let cameraRight := Vcross cameraDirection Vup in
  let speed := moveSpeed g in
  let movement := Vzero in
  let movement :=
    if keys g "w" || keys g "ArrowUp"
    then Vadd movement (Vscale speed cameraDirection) else movement in
  let movement :=
    if keys g "s" || keys g "ArrowDown"
    then Vadd movement (Vscale (- speed) cameraDirection) else movement in
  let movement :=
    if keys g "a" || keys g "ArrowLeft"
    then Vadd movement (Vscale (- speed) cameraRight) else movement in
  let movement :=
    if keys g "d" || keys g "ArrowRight"
    then Vadd movement (Vscale speed cameraRight) else movement in
  let g :=
    if keys g "q"
    then set_energy (Qmax 0 (energy g - (5 # 10)))
           (set_verticalVelocity
              (Rmin (verticalVelocity g + 15 * deltaTime) 5) g)
    else if keys g "e"
    then set_energy (Qmax 0 (energy g - (5 # 10)))
           (set_verticalVelocity
              (Rmax (verticalVelocity g - 15 * deltaTime) (-5)) g)
    else g in
  let g := set_verticalVelocity (verticalVelocity g + gravity g * deltaTime) g in
  let groundHeight :=
    getHeightAtCoordinates (vx (cameraPosition g)) (vz (cameraPosition g)) in
  let g :=
    if Rlt_dec (vy (cameraPosition g) + verticalVelocity g * deltaTime)
               (groundHeight + 2)
    then set_isGrounded true
           (set_verticalVelocity 0
              (set_cameraPosition
                 (mkV (vx (cameraPosition g)) (groundHeight + 2)
                      (vz (cameraPosition g))) g))
    else set_isGrounded false g in
  let g := set_cameraPosition (Vadd (cameraPosition g) movement) g in
  set_cameraPosition
    (mkV (vx (cameraPosition g))
         (vy (cameraPosition g) + verticalVelocity g * deltaTime)
         (vz (cameraPosition g))) g.

(** ** Landers *)

(** The nearest-astronaut search of [Lander.update].  The accumulator is
    the pair ([minDistance], [nearestAstronaut]); [None] is its initial
    value ([Infinity], [null]), below which every distance lies. *)
Definition planarDistance (p q : Vector3) : R :=
  Distance (mkV (vx p) 0 (vz p)) (mkV (vx q) 0 (vz q)).

Definition nearestStep (p : Vector3) (acc : option (R * Astronaut))
    (astronaut : Astronaut) : option (R * Astronaut) :=
  let distance := planarDistance p (astronaut_position astronaut) in
  match acc with
  | None => Some (distance, astronaut)
  | Some (minDistance, _) =>
      if Rlt_dec distance minDistance then Some (distance, astronaut) else acc
  end.

Definition findNearest (p : Vector3) (crew : list Astronaut)
    : option (R * Astronaut) :=
  fold_left (nearestStep p) crew None.

(** [Lander.update(gamePlaneZ)], with [crew] the lander's astronaut
    array.  The guards on a missing mesh, array, astronaut or position do
    not fire on the objects the game builds and are left out. *)
Definition Lander_update (gamePlaneZ : R) (crew : list Astronaut)
    (l : Lander) : Lander :=
  let p := mkV (vx (lander_position l)) (vy (lander_position l))
               (lander_initialZ l + gamePlaneZ) in
  match findNearest p crew with
  | Some (_, nearestAstronaut) =>
      let direction :=
        Vnormalize (Vsubtract (astronaut_position nearestAstronaut) p) in
      mkLander (mkV (vx p + vx direction * lander_speed l) (vy p) (vz p))
               (lander_initialZ l) (lander_speed l)
  | None => mkLander p (lander_initialZ l) (lander_speed l)
  end.

(** [spawnLander]; [rnd] is the value [Math.random()] returns.  The scene
    and the astronaut array exist once the game is constructed, so the
    guard at the top of the function does not fire. *)
Definition spawnLander (rnd : R) (g : Game) : Game :=
  let x := 400 in
  let z := rnd * 800 - 400 in
  let position := mkV x 0 z in
  let lander := mkLander position (vz position) (3 / 10) in
  set_landers (landers g ++ [lander]) g.

(** ** Collision scans *)

(** The inner loops all have the shape
    [for (let j = xs.length - 1; j >= 0; j--) if (hit(xs[j])) { ...; exit }]:
    [scanDown hit xs (length xs)] is the index at which such a loop finds
    its hit, if it finds one.  An index below the length is always in
    range, so the [None] branch of the lookup is not reached. *)
Fixpoint scanDown {A : Type} (hit : A -> bool) (xs : list A) (j : nat)
    : option nat :=
  match j with
  | O => None
  | S j' =>
      match xs !! j' with
      | Some x => if hit x then Some j' else scanDown hit xs j'
      | None => None
      end
  end.

Definition moveLaser (laserSpeed : R) (laser : Laser) : Laser :=
  mkLaser (Vadd (laser_position laser)
                (Vscale laserSpeed (laser_direction laser)))
          (laser_direction laser).

(** [updateLasers] as first defined in the class (the scan with the
    mesh-intersection test): the iterations [i - 1], ..., [0] of its outer
    loop.  [splice(i, 1)] is [delete i]. *)
Fixpoint updateLasers_from `{Engine} (i : nat) (g : Game) : Game :=
  match i with
  | O => g
  | S i' =>
      match lasers g !! i' with
      | None => g
      | Some laser0 =>
          let laser := moveLaser (laserSpeed g) laser0 in
          let g := set_lasers (<[i' := laser]> (lasers g)) g in
          match scanDown (laserIntersects laser) (landers g)
                         (length (landers g)) with
          | Some j =>
              let g := set_lasers (delete i' (lasers g)) g in
              let g := set_landers (delete j (landers g)) g in
              updateLandersDestroyed g
          | None =>
              let g :=
                if Rgt_dec (Distance (laser_position laser) (cameraPosition g))
                           500
                then set_lasers (delete i' (lasers g)) g
                else g in
              updateLasers_from i' g
          end
      end
  end.

Definition updateLasers `{Engine} (g : Game) : Game :=
  updateLasers_from (length (lasers g)) g.

(** [updateLanders] as first defined in the class: the iterations
    [i - 1], ..., [0] of its loop. *)
Fixpoint updateLanders_from `{Engine} (i : nat) (g : Game) : Game :=
  match i with
  | O => g
  | S i' =>
      match landers g !! i' with
      | None => g
      | Some lander0 =>
          let lander := Lander_update (gamePlaneZ g) (astronauts g) lander0 in
          let g := set_landers (<[i' := lander]> (landers g)) g in
          let distanceToPlayer :=
            Distance (lander_position lander) (cameraPosition g) in
          if Rlt_dec distanceToPlayer 3
          then
            let g := takeDamage 20 g in
            let g := set_landers (delete i' (landers g)) g in
            updateLanders_from i' g
          else
            match scanDown (landerIntersects lander) (astronauts g)
                           (length (astronauts g)) with
            | Some j =>
                let g := set_landers (delete i' (landers g)) g in
                set_astronauts (delete j (astronauts g)) g
            | None =>
                let g :=
                  if Rlt_dec (vz (lander_position lander)) (-500)
                  then set_landers (delete i' (landers g)) g
                  else g in
                updateLanders_from i' g
            end
      end
  end.

Definition updateLanders `{Engine} (g : Game) : Game :=
  updateLanders_from (length (landers g)) g.

(** [updateAstronauts] as first defined in the class: every astronaut
    follows the ground plane and wraps around 1000 units ahead once it is
    more than 500 behind. *)
Definition scrollAstronaut (gamePlaneZ : R) (a : Astronaut) : Astronaut :=
  let z := astronaut_initialZ a + gamePlaneZ in
  if Rlt_dec z (-500)
  then mkAstronaut (mkV (vx (astronaut_position a)) (vy (astronaut_position a))
                        (z + 1000))
                   (astronaut_initialX a) (astronaut_initialZ a + 1000)
  else mkAstronaut (mkV (vx (astronaut_position a)) (vy (astronaut_position a)) z)
                   (astronaut_initialX a) (astronaut_initialZ a).

Definition updateAstronauts (g : Game) : Game :=
  set_astronauts (map (scrollAstronaut (gamePlaneZ g)) (astronauts g)) g.

(** ** The methods defined a second time at the end of the class

    The class body defines [updateLasers], [updateLanders] and
    [updateAstronauts] twice.  The later definitions, embedded here under
    the line at which each starts, are the ones a call [this.updateLasers()]
    reaches, and so the ones [update] runs. *)

Fixpoint updateLasers_l1431_from (i : nat) (g : Game) : Game :=
  match i with
  | O => g
  | S i' =>
      match lasers g !! i' with
      | None => g
      | Some laser =>
          let g :=
            if Rgt_dec (vy (laser_position laser)) 1000
            then set_lasers (delete i' (lasers g)) g
            else if Rlt_dec (vy (laser_position laser)) (-1000)
            then set_lasers (delete i' (lasers g)) g
            else g in
          updateLasers_l1431_from i' g
      end
  end.

Definition updateLasers_l1431 (g : Game) : Game :=
  updateLasers_l1431_from (length (lasers g)) g.

(** *** Calls that raise

    The second [updateLanders] and [checkCollisions] read [lander.position]
    on the elements of [this.landers], which are instances of
    [class Lander].  The constructor of that class assigns [mesh],
    [initialZ], [speed] and [astronauts], and nothing assigns a lander a
    [position] (where a lander is, is [lander.mesh.position]): the read
    gives [undefined], here [None]. *)
Definition Lander_dot_position (lander : Lander) : option Vector3 := None.

(** A call returns or raises; either way it leaves the game in some
    state. *)
Inductive Outcome : Type :=
  | Returns (g : Game)
  | Throws (g : Game).

Definition stateOf (o : Outcome) : Game :=
  match o with
  | Returns g => g
  | Throws g => g
  end.

(** The next statement runs when the one before it returned. *)
Definition andThen (o : Outcome) (next : Game -> Outcome) : Outcome :=
  match o with
  | Returns g => next g
  | Throws g => Throws g
  end.

(** The second [updateLanders]: the iterations [i - 1], ..., [0] of its
    loop.  [lander.position.y -= this.gameSpeed * 0.5] reads the property
    [y] of [lander.position]: of [undefined], that raises a TypeError
    before anything is written.  Were there a vector, it is that vector
    (not the mesh's) whose [y] is lowered and tested. *)
Fixpoint updateLanders_l1441_from (i : nat) (g : Game) : Outcome :=
  match i with
  | O => Returns g
  | S i' =>
      match landers g !! i' with
      | None => Returns g
      | Some lander =>
          match Lander_dot_position lander with
          | None => Throws g
          | Some position =>
              let y := vy position - Q2R (gameSpeed g * (5 # 10)) in
              let g :=
                if Rlt_dec y (-100)
                then set_landers (delete i' (landers g)) g
                else g in
              updateLanders_l1441_from i' g
          end
      end
  end.

Definition updateLanders_l1441 (g : Game) : Outcome :=
  updateLanders_l1441_from (length (landers g)) g.

Definition lowerAstronaut (dy : R) (a : Astronaut) : Astronaut :=
  mkAstronaut (mkV (vx (astronaut_position a)) (vy (astronaut_position a) - dy)
                   (vz (astronaut_position a)))
              (astronaut_initialX a) (astronaut_initialZ a).

Fixpoint updateAstronauts_l1456_from (i : nat) (g : Game) : Game :=
  match i with
  | O => g
  | S i' =>
      match astronauts g !! i' with
      | None => g
      | Some astronaut0 =>
          let astronaut :=
            lowerAstronaut (Q2R (gameSpeed g * (3 # 10))) astronaut0 in
          let g := set_astronauts (<[i' := astronaut]> (astronauts g)) g in
          let g :=
            if Rlt_dec (vy (astronaut_position astronaut)) (-100)
            then updateScore (-50)
                   (set_astronauts (delete i' (astronauts g)) g)
            else g in
          updateAstronauts_l1456_from i' g
      end
  end.

Definition updateAstronauts_l1456 (g : Game) : Game :=
  updateAstronauts_l1456_from (length (astronauts g)) g.

(** [checkObjectCollision(obj1, obj2)], on what [obj1.position] and
    [obj2.position] read: closer than the threshold 2.
    [BABYLON.Vector3.Distance] subtracts the coordinates of its second
    argument from those of its first, so on [undefined] it raises a
    TypeError ([None]). *)
Definition checkObjectCollision (p1 p2 : option Vector3) : option bool :=
  match p1, p2 with
  | Some p1, Some p2 =>
      Some (if Rlt_dec (Distance p1 p2) 2 then true else false)
  | _, _ => None
  end.

(** The inner loop of [checkCollisions] for one laser: the index of the
    first lander (from the end) within the threshold, none, or the
    exception of the test. *)
Inductive Found : Type :=
  | Hit (j : nat)
  | NoHit
  | Raised.

Fixpoint checkCollisions_scan (laser : Laser) (landers : list Lander)
    (j : nat) : Found :=
  match j with
  | O => NoHit
  | S j' =>
      match landers !! j' with
      | None => NoHit
      | Some lander =>
          match checkObjectCollision (Some (laser_position laser))
                                     (Lander_dot_position lander) with
          | None => Raised
          | Some true => Hit j'
          | Some false => checkCollisions_scan laser landers j'
          end
      end
  end.

(** [checkCollisions]: the iterations [i - 1], ..., [0] of its outer loop.
    The [break] leaves the inner loop only.  The explosion is a particle
    effect of the engine. *)
Fixpoint checkCollisions_from (i : nat) (g : Game) : Outcome :=
  match i with
  | O => Returns g
  | S i' =>
      match lasers g !! i' with
      | None => Returns g
      | Some laser =>
          match checkCollisions_scan laser (landers g)
                                     (length (landers g)) with
          | Raised => Throws g
          | Hit j =>
              let g := set_lasers (delete i' (lasers g)) g in
              let g := set_landers (delete j (landers g)) g in
              let g := updateScore 100 g in
              checkCollisions_from i' g
          | NoHit => checkCollisions_from i' g
          end
      end
  end.

Definition checkCollisions (g : Game) : Outcome :=
  checkCollisions_from (length (lasers g)) g.

(** ** Radar *)

(** [getClosestLanderDistance].  The result is a number or [Infinity]:
    [None] stands for [Infinity], the initial [closestDistance]. *)
Definition closestStep (camera : Vector3) (closestDistance : option R)
    (lander : Lander) : option R :=
  let distance := Distance camera (lander_position lander) in
  match closestDistance with
  | None => Some distance
  | Some c => if Rlt_dec distance c then Some distance else closestDistance
  end.

Definition getClosestLanderDistance (g : Game) : option R :=
  if Nat.eqb (length (landers g)) 0 then Some 0
  else fold_left (closestStep (cameraPosition g)) (landers g) None.

(** ** Difficulty *)

(** [timePlayed] of [updateDifficulty]: seconds since the mission
    started. *)
Definition timePlayed (now : Z) (g : Game) : Q :=
  (inject_Z (now - startTime g) / 1000)%Q.

Definition updateDifficulty (now : Z) (g : Game) : Game :=
  let t := timePlayed now g in
  let g := set_difficulty (Z.min 10 (1 + Qfloor (t / 30))) g in
  let g := set_gameSpeed (1 + inject_Z (difficulty g) * (1 # 10)) g in
  let g :=
    set_landerSpawnInterval (Z.max 1000 (3000 - difficulty g * 200)) g in
  set_maxEnemies (5 + Qfloor (inject_Z (difficulty g) / 2)) g.

(** ** Game state *)

Definition start (now : Z) (g : Game) : Game :=
  set_startTime now (set_isGameOver false (set_isRunning true g)).

Definition pause (g : Game) : Game := set_isRunning false g.

Definition resume (g : Game) : Game := set_isRunning true g.

(** ** The tick *)

(** The spawn timer at the head of [update]. *)
Definition update_spawn (currentTime : Z) (rnd : R) (g : Game) : Game :=
  if (landerSpawnInterval g <? currentTime - lastLanderSpawn g)%Z
  then set_lastLanderSpawn currentTime (spawnLander rnd g)
  else g.

(** The energy recharge of [update]. *)
Definition update_energy (g : Game) : Game :=
  if Qlt_bool (energy g) (maxEnergy g)
  then set_energy (Qmin (maxEnergy g) (energy g + energyRechargeRate g)) g
  else g.

(** [update]: [currentTime] is the clock reading at its head, [later] the
    reading [updateDifficulty] takes at its end, [rnd] the random number
    a spawn draws.  The body after the guard is a [try] block: when a
    statement raises, the statements after it are skipped, what was done
    before it stays done, and the [catch] clears [isRunning]. *)
Definition update (currentTime later : Z) (rnd : R) (g : Game) : Game :=
  if negb (isRunning g) || isGameOver g then g
  else
    let g := update_spawn currentTime rnd g in
    let g := update_energy g in
    let g := updateLasers_l1431 g in
    match
      andThen (updateLanders_l1441 g) (fun g =>
      andThen (checkCollisions (updateAstronauts_l1456 g)) (fun g =>
      Returns (updateDifficulty later g)))
    with
    | Returns g => g
    | Throws g => set_isRunning false g
    end.

(** The render callback [createScene] registers keeps the camera at or
    above height 2. *)
Definition clampCamera (g : Game) : Game :=
  if Rlt_dec (vy (cameraPosition g)) 2
  then set_cameraPosition
         (mkV (vx (cameraPosition g)) 2 (vz (cameraPosition g))) g
  else g.

(** ** Sequences of calls *)

(** A sequence of [takeDamage] calls, and of [shootLaser] calls with no
    tick in between, in call order. *)
Definition takeDamages (amounts : list Q) (g : Game) : Game :=
  fold_left (fun g amount => takeDamage amount g) amounts g.

Definition shootLasers (forwards : list Vector3) (g : Game) : Game :=
  fold_left (fun g forward => shootLaser forward g) forwards g.

(** ** Reachable states *)

(** What can happen to a constructed game: an input event, a timer, a
    call of the public state methods, a render callback of the scene
    (these clamp the camera and run [updateMovement], [updateLasers],
    [updateLanders] and [updateAstronauts]; both definitions of each are
    steps) or a tick of the render loop.  A callback that raises leaves the
    game as it was when it raised; the [catch] of the render loop then
    clears [isRunning], which is the step [pause]. *)
Inductive step `{Engine} : Game -> Game -> Prop :=
  | step_keydown key code forward g : step g (keydown key code forward g)
  | step_keyup key g : step g (keyup key g)
  | step_cooldown g : step g (cooldownElapsed g)
  | step_start now g : step g (start now g)
  | step_pause g : step g (pause g)
  | step_resume g : step g (resume g)
  | step_clamp g : step g (clampCamera g)
  | step_movement deltaTime cameraDirection g :
      step g (updateMovement deltaTime cameraDirection g)
  | step_lasers g : step g (updateLasers g)
  | step_landers g : step g (updateLanders g)
  | step_astronauts g : step g (updateAstronauts g)
  | step_lasers_l1431 g : step g (updateLasers_l1431 g)
  | step_landers_l1441 g : step g (stateOf (updateLanders_l1441 g))
  | step_astronauts_l1456 g : step g (updateAstronauts_l1456 g)
  | step_update currentTime later rnd g :
      0 <= rnd < 1 -> step g (update currentTime later rnd g).

Inductive reachable `{Engine} : Game -> Prop :=
  | reachable_init now crew : reachable (initializeGameProperties now crew)
  | reachable_step g g' : reachable g -> step g g' -> reachable g'.

(** ** Vocabulary of the statements *)

(** A lander that [updateLanders] visits without ending its run there:
    after its update it either touched the player (and was removed, with
    damage dealt) or intersected no astronaut. *)
Definition passedBy `{Engine} (g : Game) (lander : Lander) : Prop :=
  (Distance (lander_position
               (Lander_update (gamePlaneZ g) (astronauts g) lander))
            (cameraPosition g) < 3)%R
  \/ (forall j' astronaut',
        astronauts g !! j' = Some astronaut' ->
        landerIntersects
          (Lander_update (gamePlaneZ g) (astronauts g) lander) astronaut'
        = false).

(** ** Data for the scenarios *)

Definition Vforward : Vector3 := mkV 0 0 1.

(** An astronaut as [createAstronauts] places it, on the ground at
    (x, 0, z). *)
Definition astronautAt (x z : R) : Astronaut := mkAstronaut (mkV x 0 z) x z.

(** A lander as [spawnLander] creates it when the random number is 1/2:
    at (400, 0, 0) with speed 0.3. *)
Definition landerAtEdge : Lander := mkLander (mkV 400 0 0) 0 (3 / 10).

(** An engine for the examples: meshes intersect when their centres are
    less than 2 apart, and the ground is flat. *)
Definition closerThan (d : R) (p q : Vector3) : bool :=
  if Rlt_dec (Distance p q) d then true else false.

Definition proximityEngine : Engine :=
  {| laserIntersects laser lander :=
       closerThan 2 (laser_position laser) (lander_position lander);
     landerIntersects lander astronaut :=
       closerThan 2 (lander_position lander) (astronaut_position astronaut);
     getHeightAtCoordinates _ _ := 0 |}.

(** A running game with one laser and one lander at the same place, the
    field edge (400, 0, 0). *)
Definition duelGame : Game :=
  set_lasers [mkLaser (mkV 400 0 0) Vforward]
    (set_landers [landerAtEdge] (start 0 (initializeGameProperties 0 []))).

(** ** The resource pools *)

Definition resources (g : Game) : Q * Q * Q * Q * Q * Q :=
  (health g, maxHealth g, energy g, maxEnergy g, energyRechargeRate g,
   laserEnergyCost g).

(** The pools are within their bounds and the constants are the ones the
    constructor set. *)
Definition poolsInRange (g : Game) : Prop :=
  maxHealth g = 100%Q /\ maxEnergy g = 100%Q
  /\ energyRechargeRate g = (2 # 10)%Q /\ laserEnergyCost g = 10%Q
  /\ (0 <= health g <= 100)%Q /\ (0 <= energy g <= 100)%Q.

(** ** Scene setup: the astronauts *)

(** [createAstronauts]: the iterations [i], [i + 1], ... of its loop,
    [count] of them.  [rnd k] is the value the [k]-th call of
    [Math.random()] returns; iteration [i] makes calls [2 i] and
    [2 i + 1]. *)
Fixpoint createAstronauts_from (count i : nat) (rnd : nat -> R) (g : Game)
    : Game :=
  match count with
  | O => g
  | S count' =>
      let x := rnd (2 * i)%nat * 800 - 400 in
      let z := rnd (2 * i + 1)%nat * 800 - 400 in
      let astronaut := mkAstronaut (mkV x 0 z) x z in
      createAstronauts_from count' (S i) rnd
        (set_astronauts (astronauts g ++ [astronaut]) g)
  end.

Definition createAstronauts (rnd : nat -> R) (g : Game) : Game :=
  createAstronauts_from 10 0 rnd g.

(** ** The cockpit displays *)

Definition Rle_bool (x y : R) : bool := if Rle_dec x y then true else false.

(** The test [updateDisplays] makes before it draws the radar blip of a
    lander or an astronaut at [p]. *)
Definition blipVisible (camera p : Vector3) : bool :=
  let relativeX := (vx p - vx camera) / 2 in
  let relativeZ := (vz p - vz camera) / 2 in
  let blipX := 128 + relativeX in
  let blipY := 64 + relativeZ in
  Rle_bool 0 blipX && Rle_bool blipX 256
  && Rle_bool 0 blipY && Rle_bool blipY 128.

(** The fill style of the NEAREST THREAT line; [Infinity < 20] is
    false. *)
Definition threatColor (g : Game) : string :=
  match getClosestLanderDistance g with
  | Some closestDistance =>
      if Rlt_dec closestDistance 20 then "red" else "lime"
  | None => "lime"
  end.

Definition energyPercent (g : Game) : Z := Qfloor (energy g).

Definition energyColor (g : Game) : string :=
  if (energyPercent g <? 30)%Z then "red" else "lime".

Definition hullPercent (g : Game) : Z :=
  Qfloor (health g / maxHealth g * 100).

Definition hullColor (g : Game) : string :=
  if (hullPercent g <? 30)%Z then "red" else "lime".

(** The mission clock of [updateDisplays]: whole seconds, then the two
    numbers it prints as minutes and (padded) seconds.  [%] is the
    remainder of truncated division. *)
Definition missionTime (now : Z) (g : Game) : Z :=
  Qfloor (inject_Z (now - startTime g) / 1000).

Definition missionMinutes (now : Z) (g : Game) : Z :=
  Qfloor (inject_Z (missionTime now g) / 60).

Definition missionSeconds (now : Z) (g : Game) : Z :=
  Z.rem (missionTime now g) 60.

(** The test of [updateWarningLights]: the lights pulse. *)
Definition warningLightsPulse (g : Game) : bool :=
  Qlt_bool (health g) 30 || Qlt_bool (energy g) 30.

(** [updateHealthBar]: the width (a percentage) and the background the bar
    has afterwards, given the one it had. *)
Definition healthBarWidth (g : Game) : Q := health g / maxHealth g * 100.

Definition healthBarBackground (background : string) (g : Game) : string :=
  if Qlt_bool (health g) 30 then "darkred" else background.

(** ** Vocabulary of the further statements *)

(** The tests of the clean-up loops for lasers and astronauts at the end of
    the class, on the entity as the loop has it when it tests. *)
Definition laserInBounds (laser : Laser) : bool :=
  if Rgt_dec (vy (laser_position laser)) 1000 then false
  else if Rlt_dec (vy (laser_position laser)) (-1000) then false
  else true.

Definition astronautInBounds (astronaut : Astronaut) : bool :=
  if Rlt_dec (vy (astronaut_position astronaut)) (-100) then false else true.

(** The test of the first [updateLasers] on a laser it has moved. *)
Definition laserInRange (camera : Vector3) (laser : Laser) : bool :=
  if Rgt_dec (Distance (laser_position laser) camera) 500 then false
  else true.

(** What a tick has no business with: the health, the game-over flag, the
    counters, the mission clock, the camera and the game-over screens. *)
Definition besideTheTick (g : Game)
    : Q * bool * Z * Z * Z * Vector3 * nat :=
  (health g, isGameOver g, astronautsSaved g, landersDestroyed g,
   startTime g, cameraPosition g, gameOverScreens g).

(** What [spawnLander] gives every lander and no method changes: the
    speed 0.3 and a home depth inside the field. *)
Definition asSpawned (lander : Lander) : Prop :=
  lander_speed lander = 3 / 10
  /\ -400 <= lander_initialZ lander < 400.

(** ** Tactics *)

(** Splits the loop body on every test it makes and closes each branch with
    the induction hypothesis. *)
Ltac split_branches :=
  repeat match goal with
         | |- context [match ?x with _ => _ end] => destruct x
         end.

Ltac loop_frame IH :=
  split_branches; rewrite ?IH; reflexivity.

(** * Properties *)

(** ** Firing *)

Lemma Qle_bool_false (x y : Q) : Qle_bool x y = false -> (y < x)%Q.
Proof.
  intros Hb. apply Qnot_le_lt. intros Hle.
  apply Qle_bool_iff in Hle. congruence.
Qed.

Lemma shootLaser_low (forward : Vector3) (g : Game) :
  (energy g < laserEnergyCost g)%Q -> shootLaser forward g = g.
Proof.
  intros Hlow. unfold shootLaser.
  destruct (Qle_bool (laserEnergyCost g) (energy g)) eqn:Hb; [|reflexivity].
  apply Qle_bool_iff in Hb. lra.
Qed.

Lemma shootLaser_fire (forward : Vector3) (g : Game) :
  (laserEnergyCost g <= energy g)%Q ->
  shootLaser forward g =
  set_energy (energy g - laserEnergyCost g)%Q
    (set_lasers (lasers g ++ [mkLaser (cameraPosition g) forward]) g).
Proof.
  intros Hle. unfold shootLaser.
  apply Qle_bool_iff in Hle. rewrite Hle. reflexivity.
Qed.

Lemma shootLaser_cost (forward : Vector3) (g : Game) :
  laserEnergyCost (shootLaser forward g) = laserEnergyCost g.
Proof.
  unfold shootLaser.
  destruct (Qle_bool (laserEnergyCost g) (energy g)); reflexivity.
Qed.

(** [n] shots in a row, each affordable: [n] lasers more and [n] times the
    cost less. *)
Lemma shootLasers_affordable (forwards : list Vector3) :
  forall g : Game,
  (0 <= laserEnergyCost g)%Q ->
  (inject_Z (Z.of_nat (length forwards)) * laserEnergyCost g <= energy g)%Q ->
  (energy (shootLasers forwards g) ==
     energy g - inject_Z (Z.of_nat (length forwards)) * laserEnergyCost g)%Q
  /\ length (lasers (shootLasers forwards g)) =
     (length (lasers g) + length forwards)%nat
  /\ laserEnergyCost (shootLasers forwards g) = laserEnergyCost g.
Proof.
  induction forwards as [|f fs IH]; intros g Hcost Hen.
  - cbn [shootLasers fold_left length]. split; [|split].
    + change (inject_Z (Z.of_nat 0)) with 0%Q. lra.
    + lia.
    + reflexivity.
  - change (shootLasers (f :: fs) g) with (shootLasers fs (shootLaser f g)).
    assert (Hn : (inject_Z (Z.of_nat (length (f :: fs))) ==
                  inject_Z (Z.of_nat (length fs)) + 1)%Q).
    { cbn [length]. rewrite Nat2Z.inj_succ. unfold Z.succ.
      rewrite inject_Z_plus. reflexivity. }
    rewrite Hn in Hen.
    assert (H0 : (0 <= inject_Z (Z.of_nat (length fs)))%Q).
    { change 0%Q with (inject_Z 0). rewrite <- Zle_Qle. lia. }
    assert (Hle : (laserEnergyCost g <= energy g)%Q) by nra.
    rewrite (shootLaser_fire f g Hle).
    destruct (IH (set_energy (energy g - laserEnergyCost g)%Q
                    (set_lasers (lasers g ++ [mkLaser (cameraPosition g) f]) g)))
      as (He & Hl & Hc).
    + exact Hcost.
    + cbn. nra.
    + cbn in He, Hl, Hc. split; [|split].
      * rewrite He, Hn. ring.
      * rewrite Hl, length_app. cbn. lia.
      * exact Hc.
Qed.

(** C3. Firing is gated by energy: below [laserEnergyCost] [shootLaser]
    leaves the whole game state (energy and lasers included) as it is, and
    the function is total, so nothing is raised; otherwise it appends
    exactly one laser and takes exactly [laserEnergyCost] off the energy.
    From energy 100 at cost 10, ten shots with no recharge in between bring
    the energy to 0 and an eleventh changes nothing. *)
Theorem shootLaser_energy_gate (forward : Vector3) (g : Game) :
  ((energy g < laserEnergyCost g)%Q -> shootLaser forward g = g)
  /\ ((laserEnergyCost g <= energy g)%Q ->
      lasers (shootLaser forward g) =
        lasers g ++ [mkLaser (cameraPosition g) forward]
      /\ energy (shootLaser forward g) = (energy g - laserEnergyCost g)%Q)
  /\ ((energy g == 100)%Q -> (laserEnergyCost g == 10)%Q ->
      forall forwards : list Vector3, length forwards = 10%nat ->
      (energy (shootLasers forwards g) == 0)%Q
      /\ length (lasers (shootLasers forwards g)) = (length (lasers g) + 10)%nat
      /\ shootLaser forward (shootLasers forwards g) = shootLasers forwards g).
Proof.
  split; [|split].
  - apply shootLaser_low.
  - intros Hle. rewrite (shootLaser_fire forward g Hle). split; reflexivity.
  - intros He Hc forwards Hlen.
    destruct (shootLasers_affordable forwards g) as (He' & Hl' & Hc').
    + lra.
    + rewrite Hlen. change (inject_Z (Z.of_nat 10)) with 10%Q. nra.
    + rewrite Hlen in He', Hl'. change (inject_Z (Z.of_nat 10)) with 10%Q in He'.
      split; [|split].
      * rewrite He'. nra.
      * exact Hl'.
      * apply shootLaser_low. rewrite Hc'. nra.
Qed.

Lemma shootLaser_energy_gate_witness :
  (energy (initializeGameProperties 0 []) == 100)%Q
  /\ (energy (shootLasers (repeat Vforward 10)
                (initializeGameProperties 0 [])) == 0)%Q
  /\ shootLaser Vforward
       (shootLasers (repeat Vforward 10) (initializeGameProperties 0 [])) =
     shootLasers (repeat Vforward 10) (initializeGameProperties 0 []).
Proof.
  destruct (shootLaser_energy_gate Vforward (initializeGameProperties 0 []))
    as (_ & _ & Hten).
  destruct (Hten ltac:(reflexivity) ltac:(reflexivity)
              (repeat Vforward 10) ltac:(reflexivity)) as (He & _ & Hno).
  split; [reflexivity|]. split; [exact He | exact Hno].
Defined.

(** ** Damage *)

Lemma takeDamage_health (amount : Q) (g : Game) :
  health (takeDamage amount g) = Qmax 0 (health g - amount).
Proof.
  unfold takeDamage. cbn.
  destruct (Qle_bool (Qmax 0 (health g - amount)) 0 && negb (isGameOver g));
    reflexivity.
Qed.

Lemma takeDamage_nonneg (amount : Q) (g : Game) :
  (0 <= health (takeDamage amount g))%Q.
Proof. rewrite takeDamage_health. apply Q.le_max_l. Qed.

Lemma takeDamage_le (amount : Q) (g : Game) :
  (0 <= amount)%Q -> (0 <= health g)%Q ->
  (health (takeDamage amount g) <= health g)%Q.
Proof.
  intros Ha Hh. rewrite takeDamage_health.
  apply Q.max_lub; lra.
Qed.

(** One call: the screen goes up exactly when the health is at 0 and the
    game was not over yet. *)
Lemma takeDamage_gameOver (amount : Q) (g : Game) :
  (isGameOver g = true ->
   isGameOver (takeDamage amount g) = true
   /\ gameOverScreens (takeDamage amount g) = gameOverScreens g)
  /\ (isGameOver g = false ->
      (health (takeDamage amount g) <= 0)%Q ->
      isGameOver (takeDamage amount g) = true
      /\ gameOverScreens (takeDamage amount g) = S (gameOverScreens g))
  /\ (isGameOver g = false ->
      (0 < health (takeDamage amount g))%Q ->
      isGameOver (takeDamage amount g) = false
      /\ gameOverScreens (takeDamage amount g) = gameOverScreens g).
Proof.
  rewrite takeDamage_health. unfold takeDamage. cbn.
  destruct (Qle_bool (Qmax 0 (health g - amount)) 0) eqn:Hb;
    destruct (isGameOver g) eqn:Hover; cbn; rewrite ?Hover;
    (split; [|split]); intros; try congruence; try (split; reflexivity).
  - apply Qle_bool_iff in Hb. lra.
  - apply Qle_bool_false in Hb. lra.
Qed.

Lemma takeDamages_cons (amount : Q) (amounts : list Q) (g : Game) :
  takeDamages (amount :: amounts) g = takeDamages amounts (takeDamage amount g).
Proof. reflexivity. Qed.

Lemma takeDamages_health (amounts : list Q) :
  forall g : Game,
  Forall (fun amount => (0 <= amount)%Q) amounts -> (0 <= health g)%Q ->
  (0 <= health (takeDamages amounts g) <= health g)%Q.
Proof.
  induction amounts as [|a l IH]; intros g Hpos Hh.
  - cbn. lra.
  - rewrite takeDamages_cons. inversion Hpos as [|? ? Ha Hl]; subst.
    pose proof (takeDamage_nonneg a g) as H0.
    pose proof (takeDamage_le a g Ha Hh) as H1.
    specialize (IH (takeDamage a g) Hl H0). lra.
Qed.

(** Once the game is over no further call puts up a screen. *)
Lemma takeDamages_over (amounts : list Q) :
  forall g : Game,
  isGameOver g = true ->
  isGameOver (takeDamages amounts g) = true
  /\ gameOverScreens (takeDamages amounts g) = gameOverScreens g.
Proof.
  induction amounts as [|a l IH]; intros g Hover.
  - split; [exact Hover | reflexivity].
  - rewrite takeDamages_cons.
    destruct (takeDamage_gameOver a g) as (H1 & _ & _).
    destruct (H1 Hover) as (Ho & Hs).
    destruct (IH (takeDamage a g) Ho) as (Ho' & Hs').
    split; [exact Ho' | congruence].
Qed.

(** From a game that is not over, a sequence of hits puts up one screen if
    it ends with the game over and none otherwise. *)
Lemma takeDamages_once (amounts : list Q) :
  forall g : Game,
  isGameOver g = false ->
  gameOverScreens (takeDamages amounts g) =
  (gameOverScreens g + (if isGameOver (takeDamages amounts g) then 1 else 0))%nat.
Proof.
  induction amounts as [|a l IH]; intros g Hover.
  - cbn. rewrite Hover. lia.
  - rewrite takeDamages_cons.
    destruct (takeDamage_gameOver a g) as (_ & H2 & H3).
    destruct (Qlt_le_dec 0 (health (takeDamage a g))) as [Hpos|Hzero].
    + destruct (H3 Hover Hpos) as (Ho & Hs).
      rewrite (IH (takeDamage a g) Ho), Hs. reflexivity.
    + destruct (H2 Hover Hzero) as (Ho & Hs).
      destruct (takeDamages_over l (takeDamage a g) Ho) as (Ho' & Hs').
      rewrite Ho', Hs', Hs. lia.
Qed.

(** After at least one hit the game is over exactly when the health is
    at 0. *)
Lemma takeDamages_over_iff (amounts : list Q) :
  forall g : Game,
  Forall (fun amount => (0 <= amount)%Q) amounts ->
  amounts <> [] -> isGameOver g = false ->
  (isGameOver (takeDamages amounts g) = true <->
   (health (takeDamages amounts g) <= 0)%Q).
Proof.
  induction amounts as [|a l IH]; intros g Hpos Hne Hover; [congruence|].
  rewrite takeDamages_cons. inversion Hpos as [|? ? Ha Hl]; subst.
  destruct (takeDamage_gameOver a g) as (_ & H2 & H3).
  pose proof (takeDamage_nonneg a g) as H0.
  destruct (Qlt_le_dec 0 (health (takeDamage a g))) as [Hgt|Hzero].
  - destruct (H3 Hover Hgt) as (Ho & _).
    destruct l as [|b l'].
    + cbn. rewrite Ho. split; [congruence | lra].
    + apply IH; [exact Hl | congruence | exact Ho].
  - destruct (H2 Hover Hzero) as (Ho & _).
    destruct (takeDamages_over l (takeDamage a g) Ho) as (Ho' & _).
    pose proof (takeDamages_health l (takeDamage a g) Hl H0) as Hh.
    split; [intros _; lra | intros _; exact Ho'].
Qed.

Lemma takeDamages_exact (n : nat) (amount : Q) :
  forall g : Game,
  (0 <= amount)%Q ->
  (inject_Z (Z.of_nat n) * amount <= health g)%Q ->
  (health (takeDamages (repeat amount n) g) ==
   health g - inject_Z (Z.of_nat n) * amount)%Q.
Proof.
  induction n as [|n IH]; intros g Ha Hh.
  - cbn [repeat takeDamages fold_left].
    change (inject_Z (Z.of_nat 0)) with 0%Q. lra.
  - cbn [repeat]. rewrite takeDamages_cons.
    assert (Hn : (inject_Z (Z.of_nat (S n)) == inject_Z (Z.of_nat n) + 1)%Q).
    { rewrite Nat2Z.inj_succ. unfold Z.succ. rewrite inject_Z_plus. reflexivity. }
    rewrite Hn in Hh.
    assert (H0 : (0 <= inject_Z (Z.of_nat n))%Q).
    { change 0%Q with (inject_Z 0). rewrite <- Zle_Qle. lia. }
    assert (Hstep : (health (takeDamage amount g) == health g - amount)%Q).
    { rewrite takeDamage_health. apply Q.max_r. nra. }
    rewrite IH; [rewrite Hstep, Hn; ring | exact Ha | rewrite Hstep; nra].
Qed.

(** C4. Over a sequence of [takeDamage] calls (damage amounts are not
    negative) the health never increases and never goes below 0, and the
    game-over transition fires at most once, exactly when the health gets
    to 0: from a game that is not over it fires once if the sequence ends
    with the health at 0 and not at all otherwise, and from a game that is
    over it does not fire.  From health 100, five hits of 20 end at
    health 0 with the game over and one game-over screen (after four the
    game is not over yet), and no further hits add a screen. *)
Theorem takeDamage_game_over_once (amounts : list Q) (g : Game) :
  Forall (fun amount => (0 <= amount)%Q) amounts ->
  (0 <= health g)%Q ->
  (forall before after : list Q, amounts = before ++ after ->
     (0 <= health (takeDamages amounts g) <= health (takeDamages before g))%Q)
  /\ (isGameOver g = false -> amounts <> [] ->
      (isGameOver (takeDamages amounts g) = true <->
       (health (takeDamages amounts g) <= 0)%Q)
      /\ gameOverScreens (takeDamages amounts g) =
         (gameOverScreens g +
          (if isGameOver (takeDamages amounts g) then 1 else 0))%nat)
  /\ (isGameOver g = true ->
      gameOverScreens (takeDamages amounts g) = gameOverScreens g)
  /\ ((health g == 100)%Q -> isGameOver g = false ->
      (health (takeDamages (repeat 20%Q 4) g) == 20)%Q
      /\ isGameOver (takeDamages (repeat 20%Q 4) g) = false
      /\ (health (takeDamages (repeat 20%Q 5) g) == 0)%Q
      /\ isGameOver (takeDamages (repeat 20%Q 5) g) = true
      /\ gameOverScreens (takeDamages (repeat 20%Q 5) g) =
         S (gameOverScreens g)
      /\ gameOverScreens
           (takeDamages amounts (takeDamages (repeat 20%Q 5) g)) =
         S (gameOverScreens g)).
Proof.
  intros Hpos Hh. split; [|split; [|split]].
  - intros before after ->.
    apply Forall_app in Hpos. destruct Hpos as (Hb & Ha).
    unfold takeDamages. rewrite fold_left_app. fold (takeDamages before g).
    apply (takeDamages_health after); [exact Ha|].
    apply (takeDamages_health before g Hb Hh).
  - intros Hover Hne. split.
    + apply takeDamages_over_iff; assumption.
    + apply takeDamages_once; assumption.
  - intros Hover. apply takeDamages_over; assumption.
  - intros H100 Hover.
    assert (Hhits : forall n, Forall (fun amount => (0 <= amount)%Q) (repeat 20%Q n)).
    { intros n. induction n; cbn; constructor; [lra | assumption]. }
    pose proof (takeDamages_exact 4 20%Q g ltac:(lra)) as H4.
    pose proof (takeDamages_exact 5 20%Q g ltac:(lra)) as H5.
    change (inject_Z (Z.of_nat 4)) with 4%Q in H4.
    change (inject_Z (Z.of_nat 5)) with 5%Q in H5.
    specialize (H4 ltac:(lra)). specialize (H5 ltac:(lra)).
    pose proof (takeDamages_over_iff (repeat 20%Q 4) g (Hhits 4%nat)
                  ltac:(discriminate) Hover) as Hiff4.
    pose proof (takeDamages_over_iff (repeat 20%Q 5) g (Hhits 5%nat)
                  ltac:(discriminate) Hover) as Hiff5.
    pose proof (takeDamages_once (repeat 20%Q 5) g Hover) as Honce.
    assert (Ho5 : isGameOver (takeDamages (repeat 20%Q 5) g) = true).
    { apply Hiff5. lra. }
    rewrite Ho5 in Honce.
    split; [lra|]. split.
    { destruct (isGameOver (takeDamages (repeat 20%Q 4) g)); [|reflexivity].
      destruct Hiff4 as (Hcontra & _). specialize (Hcontra eq_refl). lra. }
    split; [lra|]. split; [exact Ho5|]. split; [lia|].
    destruct (takeDamages_over amounts _ Ho5) as (_ & Hs). lia.
Qed.

Lemma takeDamage_game_over_once_witness :
  Forall (fun amount => (0 <= amount)%Q) (repeat 20%Q 6)
  /\ (0 <= health (initializeGameProperties 0 []))%Q
  /\ (health (takeDamages (repeat 20%Q 5) (initializeGameProperties 0 [])) == 0)%Q
  /\ gameOverScreens
       (takeDamages (repeat 20%Q 6)
          (takeDamages (repeat 20%Q 5) (initializeGameProperties 0 []))) = 1%nat.
Proof.
  assert (Hpos : Forall (fun amount => (0 <= amount)%Q) (repeat 20%Q 6)).
  { repeat constructor; discriminate. }
  assert (Hh : (0 <= health (initializeGameProperties 0 []))%Q) by discriminate.
  destruct (takeDamage_game_over_once (repeat 20%Q 6)
              (initializeGameProperties 0 []) Hpos Hh) as (_ & _ & _ & Hsc).
  destruct (Hsc ltac:(reflexivity) ltac:(reflexivity))
    as (_ & _ & H5 & _ & _ & Hmore).
  split; [exact Hpos|]. split; [exact Hh|]. split; [exact H5 | exact Hmore].
Defined.

(** ** Difficulty *)

Lemma Qfloor_half (d : Z) : Qfloor (inject_Z d / 2) = (d / 2)%Z.
Proof.
  unfold Qdiv, Qmult, Qinv, inject_Z, Qfloor. cbn.
  rewrite Z.mul_1_r. reflexivity.
Qed.

Lemma updateDifficulty_difficulty (now : Z) (g : Game) :
  difficulty (updateDifficulty now g) =
  Z.min 10 (1 + Qfloor (timePlayed now g / 30)).
Proof. reflexivity. Qed.

(** C5. At [t] seconds since the mission started the difficulty
    controller sets difficulty = min(10, 1 + floor(t/30)),
    gameSpeed = 1 + difficulty * 0.1,
    spawn interval = max(1000, 3000 - difficulty * 200) ms and
    maxEnemies = 5 + floor(difficulty / 2); at t = 65 the difficulty is 3
    and the spawn interval 2400 ms. *)
Theorem updateDifficulty_formulas (now : Z) (g : Game) (t : Q) :
  (timePlayed now g == t)%Q ->
  difficulty (updateDifficulty now g) = Z.min 10 (1 + Qfloor (t / 30))
  /\ (gameSpeed (updateDifficulty now g) ==
      1 + inject_Z (difficulty (updateDifficulty now g)) * (1 # 10))%Q
  /\ landerSpawnInterval (updateDifficulty now g) =
     Z.max 1000 (3000 - difficulty (updateDifficulty now g) * 200)
  /\ maxEnemies (updateDifficulty now g) =
     (5 + difficulty (updateDifficulty now g) / 2)%Z
  /\ ((t == 65)%Q ->
      difficulty (updateDifficulty now g) = 3%Z
      /\ landerSpawnInterval (updateDifficulty now g) = 2400%Z).
Proof.
  intros Ht.
  assert (Hd : difficulty (updateDifficulty now g) =
               Z.min 10 (1 + Qfloor (t / 30))).
  { rewrite updateDifficulty_difficulty, Ht. reflexivity. }
  split; [exact Hd|]. split; [reflexivity|]. split; [reflexivity|].
  split.
  - unfold updateDifficulty. cbn. apply f_equal. apply Qfloor_half.
  - intros H65.
    assert (Hd3 : difficulty (updateDifficulty now g) = 3%Z).
    { rewrite Hd, H65. reflexivity. }
    split; [exact Hd3|].
    change (landerSpawnInterval (updateDifficulty now g))
      with (Z.max 1000 (3000 - difficulty (updateDifficulty now g) * 200)).
    rewrite Hd3. reflexivity.
Qed.

Lemma updateDifficulty_formulas_witness :
  (timePlayed 65000 (initializeGameProperties 0 []) == 65)%Q
  /\ difficulty (updateDifficulty 65000 (initializeGameProperties 0 [])) = 3%Z
  /\ landerSpawnInterval
       (updateDifficulty 65000 (initializeGameProperties 0 [])) = 2400%Z.
Proof.
  assert (Ht : (timePlayed 65000 (initializeGameProperties 0 []) == 65)%Q)
    by reflexivity.
  destruct (updateDifficulty_formulas 65000 (initializeGameProperties 0 [])
              65%Q Ht) as (_ & _ & _ & _ & H65).
  split; [exact Ht|]. exact (H65 ltac:(reflexivity)).
Defined.

(** C9. The difficulty is monotone in the elapsed time and never more
    than 10. *)
Theorem difficulty_monotone_capped (now1 now2 : Z) (g1 g2 : Game) :
  (difficulty (updateDifficulty now1 g1) <= 10)%Z
  /\ ((timePlayed now1 g1 <= timePlayed now2 g2)%Q ->
      (difficulty (updateDifficulty now1 g1) <=
       difficulty (updateDifficulty now2 g2))%Z).
Proof.
  rewrite !updateDifficulty_difficulty. split.
  - apply Z.le_min_l.
  - intros Hle.
    assert (Hfl : (Qfloor (timePlayed now1 g1 / 30) <=
                   Qfloor (timePlayed now2 g2 / 30))%Z).
    { apply Qfloor_resp_le. apply Qmult_le_compat_r; [exact Hle | discriminate]. }
    lia.
Qed.

Lemma difficulty_monotone_capped_witness :
  (timePlayed 29999 (initializeGameProperties 0 []) <=
   timePlayed 30000 (initializeGameProperties 0 []))%Q
  /\ (difficulty (updateDifficulty 29999 (initializeGameProperties 0 [])) <=
      difficulty (updateDifficulty 30000 (initializeGameProperties 0 [])))%Z.
Proof.
  assert (Hle : (timePlayed 29999 (initializeGameProperties 0 []) <=
                 timePlayed 30000 (initializeGameProperties 0 []))%Q)
    by discriminate.
  split; [exact Hle|].
  exact (proj2 (difficulty_monotone_capped 29999 30000
                  (initializeGameProperties 0 [])
                  (initializeGameProperties 0 [])) Hle).
Defined.

(** ** The tick and the calls that raise *)

Lemma updateLanders_l1441_empty (g : Game) :
  landers g = [] -> updateLanders_l1441 g = Returns g.
Proof. unfold updateLanders_l1441. intros ->. reflexivity. Qed.

(** With a lander on the field the second [updateLanders] raises at the
    first one it visits, the last of the array. *)
Lemma updateLanders_l1441_raises (g : Game) :
  landers g <> [] -> updateLanders_l1441 g = Throws g.
Proof.
  intros Hne. unfold updateLanders_l1441.
  destruct (length (landers g)) as [|i] eqn:Hlen.
  - destruct (landers g); [contradiction | discriminate].
  - cbn [updateLanders_l1441_from].
    destruct (lookup_lt_is_Some_2 (landers g) i ltac:(lia)) as (lander & ->).
    reflexivity.
Qed.

(** The threshold test raises on every lander: the inner loop of
    [checkCollisions] finds no hit. *)
Lemma checkCollisions_scan_finds_none (laser : Laser) (ls : list Lander)
    (j k : nat) :
  checkCollisions_scan laser ls j <> Hit k.
Proof.
  destruct j as [|j]; cbn; [discriminate|].
  destruct (ls !! j); discriminate.
Qed.

Lemma checkCollisions_from_state (i : nat) :
  forall g : Game, stateOf (checkCollisions_from i g) = g.
Proof.
  induction i as [|i IH]; intros g; cbn [checkCollisions_from];
    [reflexivity|].
  destruct (lasers g !! i) as [laser|]; [|reflexivity].
  destruct (checkCollisions_scan laser (landers g) (length (landers g)))
    as [j| |] eqn:Hscan.
  - destruct (checkCollisions_scan_finds_none _ _ _ _ Hscan).
  - apply IH.
  - reflexivity.
Qed.

Lemma checkCollisions_from_no_landers (i : nat) (g : Game) :
  landers g = [] -> checkCollisions_from i g = Returns g.
Proof.
  intros Hnone. induction i as [|i IH]; cbn [checkCollisions_from];
    [reflexivity|].
  destruct (lasers g !! i) as [laser|]; [|reflexivity].
  rewrite Hnone. exact IH.
Qed.

Lemma updateLasers_l1431_from_fleet (i : nat) :
  forall g : Game,
  (landers (updateLasers_l1431_from i g),
   lastLanderSpawn (updateLasers_l1431_from i g))
  = (landers g, lastLanderSpawn g).
Proof.
  induction i as [|i IH]; intros g; cbn [updateLasers_l1431_from];
    [reflexivity | loop_frame IH].
Qed.

Lemma updateAstronauts_l1456_from_fleet (i : nat) :
  forall g : Game,
  (landers (updateAstronauts_l1456_from i g),
   lastLanderSpawn (updateAstronauts_l1456_from i g))
  = (landers g, lastLanderSpawn g).
Proof.
  induction i as [|i IH]; intros g; cbn [updateAstronauts_l1456_from];
    [reflexivity | loop_frame IH].
Qed.

Lemma update_energy_fleet (g : Game) :
  (landers (update_energy g), lastLanderSpawn (update_energy g))
  = (landers g, lastLanderSpawn g).
Proof.
  unfold update_energy. destruct (Qlt_bool (energy g) (maxEnergy g));
    reflexivity.
Qed.

(** The landers as [update] has them when it reaches the second
    [updateLanders] are those the spawn timer left. *)
Lemma update_head_fleet (currentTime : Z) (rnd : R) (g : Game) :
  (landers (updateLasers_l1431 (update_energy (update_spawn currentTime rnd g))),
   lastLanderSpawn
     (updateLasers_l1431 (update_energy (update_spawn currentTime rnd g))))
  = (landers (update_spawn currentTime rnd g),
     lastLanderSpawn (update_spawn currentTime rnd g)).
Proof.
  unfold updateLasers_l1431.
  rewrite updateLasers_l1431_from_fleet. apply update_energy_fleet.
Qed.

Lemma update_halted (currentTime later : Z) (rnd : R) (g : Game) :
  isRunning g = false \/ isGameOver g = true ->
  update currentTime later rnd g = g.
Proof.
  intros [Hrun|Hover]; unfold update.
  - rewrite Hrun. reflexivity.
  - rewrite Hover, orb_true_r. reflexivity.
Qed.

(** A tick with no lander on the field after the spawn timer runs to its
    end; the distance-threshold pass has nothing to test. *)
Lemma update_completes (currentTime later : Z) (rnd : R) (g : Game) :
  isRunning g = true -> isGameOver g = false ->
  landers (update_spawn currentTime rnd g) = [] ->
  update currentTime later rnd g
  = updateDifficulty later
      (updateAstronauts_l1456
         (updateLasers_l1431
            (update_energy (update_spawn currentTime rnd g)))).
Proof.
  intros Hrun Hover Hnone. unfold update. rewrite Hrun, Hover. cbn [negb orb].
  pose proof (update_head_fleet currentTime rnd g) as Hfleet.
  apply (f_equal fst) in Hfleet. cbn [fst] in Hfleet. rewrite Hnone in Hfleet.
  cbv zeta. rewrite (updateLanders_l1441_empty _ Hfleet). cbn [andThen].
  unfold checkCollisions. rewrite checkCollisions_from_no_landers; [reflexivity|].
  pose proof (updateAstronauts_l1456_from_fleet
                (length (astronauts
                   (updateLasers_l1431
                      (update_energy (update_spawn currentTime rnd g)))))
                (updateLasers_l1431
                   (update_energy (update_spawn currentTime rnd g)))) as Ha.
  apply (f_equal fst) in Ha. cbn [fst] in Ha.
  unfold updateAstronauts_l1456. rewrite Ha. exact Hfleet.
Qed.

(** A tick with a lander on the field after the spawn timer is cut short
    at the second [updateLanders]: the [catch] clears [isRunning], and the
    astronauts, the collisions and the difficulty are not updated. *)
Lemma update_aborts (currentTime later : Z) (rnd : R) (g : Game) :
  isRunning g = true -> isGameOver g = false ->
  landers (update_spawn currentTime rnd g) <> [] ->
  update currentTime later rnd g
  = set_isRunning false
      (updateLasers_l1431 (update_energy (update_spawn currentTime rnd g))).
Proof.
  intros Hrun Hover Hsome. unfold update. rewrite Hrun, Hover. cbn [negb orb].
  pose proof (update_head_fleet currentTime rnd g) as Hfleet.
  apply (f_equal fst) in Hfleet. cbn [fst] in Hfleet.
  cbv zeta. rewrite updateLanders_l1441_raises; [reflexivity|].
  rewrite Hfleet. exact Hsome.
Qed.

(** The three ways a tick can go. *)
Lemma update_cases (currentTime later : Z) (rnd : R) (g : Game) :
  update currentTime later rnd g = g
  \/ update currentTime later rnd g
     = updateDifficulty later
         (updateAstronauts_l1456
            (updateLasers_l1431
               (update_energy (update_spawn currentTime rnd g))))
  \/ update currentTime later rnd g
     = set_isRunning false
         (updateLasers_l1431 (update_energy (update_spawn currentTime rnd g))).
Proof.
  destruct (isRunning g) eqn:Hrun;
    [|left; apply update_halted; left; exact Hrun].
  destruct (isGameOver g) eqn:Hover;
    [left; apply update_halted; right; exact Hover|].
  right. destruct (landers (update_spawn currentTime rnd g)) eqn:Hl.
  - left. apply update_completes; assumption.
  - right. apply update_aborts; try assumption. rewrite Hl. discriminate.
Qed.

(** ** Spawning *)

(** C7. In a tick (the game running and not over) the landers and the
    spawn time the tick leaves are the ones the spawn timer at its head
    leaves: no later statement of [update] adds or removes a lander.  The
    timer adds a lander exactly when
    [currentTime - lastLanderSpawn > landerSpawnInterval]: then one lander
    is appended with x = 400 and z in [-400, 400) and [lastLanderSpawn]
    becomes [currentTime]; otherwise the timer changes nothing. *)
Theorem update_spawn_timer (currentTime later : Z) (rnd : R) (g : Game) :
  0 <= rnd < 1 ->
  isRunning g = true -> isGameOver g = false ->
  (landers (update currentTime later rnd g)
   = landers (update_spawn currentTime rnd g)
   /\ lastLanderSpawn (update currentTime later rnd g)
      = lastLanderSpawn (update_spawn currentTime rnd g))
  /\ ((currentTime - lastLanderSpawn g > landerSpawnInterval g)%Z ->
      exists lander : Lander,
        landers (update_spawn currentTime rnd g) = landers g ++ [lander]
        /\ vx (lander_position lander) = 400
        /\ -400 <= vz (lander_position lander) < 400
        /\ lastLanderSpawn (update_spawn currentTime rnd g) = currentTime)
  /\ (~ (currentTime - lastLanderSpawn g > landerSpawnInterval g)%Z ->
      update_spawn currentTime rnd g = g).
Proof.
  intros Hrnd Hrun Hover. split; [|split].
  - pose proof (update_head_fleet currentTime rnd g) as Hfleet.
    injection Hfleet as Hl Ht.
    destruct (landers (update_spawn currentTime rnd g)) eqn:Hspawned.
    + rewrite update_completes by assumption.
      pose proof (updateAstronauts_l1456_from_fleet
                    (length (astronauts
                       (updateLasers_l1431
                          (update_energy (update_spawn currentTime rnd g)))))
                    (updateLasers_l1431
                       (update_energy (update_spawn currentTime rnd g)))) as Ha.
      injection Ha as Hal Hat.
      assert (Hd : forall x,
                 landers (updateDifficulty later x) = landers x
                 /\ lastLanderSpawn (updateDifficulty later x)
                    = lastLanderSpawn x) by (intros x; split; reflexivity).
      unfold updateAstronauts_l1456.
      rewrite (proj1 (Hd _)), (proj2 (Hd _)). split; congruence.
    + rewrite update_aborts by (try assumption; rewrite Hspawned; discriminate).
      cbn [landers lastLanderSpawn set_isRunning]. split; congruence.
  - intros Hdue. unfold update_spawn.
    assert (Hb : (landerSpawnInterval g <? currentTime - lastLanderSpawn g)%Z
                 = true) by (apply Z.ltb_lt; lia).
    rewrite Hb.
    exists (mkLander (mkV 400 0 (rnd * 800 - 400)) (rnd * 800 - 400) (3 / 10)).
    cbn. repeat split; lra.
  - intros Hnot. unfold update_spawn.
    assert (Hb : (landerSpawnInterval g <? currentTime - lastLanderSpawn g)%Z
                 = false) by (apply Z.ltb_ge; lia).
    rewrite Hb. reflexivity.
Qed.

Lemma update_spawn_timer_witness :
  0 <= 1 / 2 < 1
  /\ isRunning (start 0 (initializeGameProperties 0 [])) = true
  /\ isGameOver (start 0 (initializeGameProperties 0 [])) = false
  /\ exists lander : Lander,
       landers (update 3001 3002 (1 / 2)
                  (start 0 (initializeGameProperties 0 [])))
       = [lander]
       /\ vx (lander_position lander) = 400.
Proof.
  assert (Hrnd : 0 <= 1 / 2 < 1) by lra.
  destruct (update_spawn_timer 3001 3002 (1 / 2)
              (start 0 (initializeGameProperties 0 []))
              Hrnd eq_refl eq_refl) as ((Hsame & _) & Hdue & _).
  destruct (Hdue ltac:(reflexivity)) as (lander & Hl & Hx & _ & _).
  split; [exact Hrnd|]. split; [reflexivity|]. split; [reflexivity|].
  exists lander. split; [rewrite Hsame; exact Hl | exact Hx].
Defined.

(** ** Radar *)

Lemma closestStep_fold (camera : Vector3) (ls : list Lander) :
  forall acc : option R,
  (acc <> None \/ ls <> []) ->
  exists d : R,
    fold_left (closestStep camera) ls acc = Some d
    /\ (acc = Some d
        \/ exists l, In l ls /\ d = Distance camera (lander_position l))
    /\ (forall a, acc = Some a -> d <= a)
    /\ (forall l, In l ls -> d <= Distance camera (lander_position l)).
Proof.
  induction ls as [|l ls IH]; intros acc Hne.
  - destruct acc as [a|]; [|destruct Hne; congruence].
    exists a. cbn. split; [reflexivity|]. split; [left; reflexivity|].
    split; [intros ? [= ->]; lra | intros ? []].
  - cbn [fold_left].
    destruct (IH (closestStep camera acc l)) as (d & Hd & Hfrom & Hacc & Hall).
    { left. unfold closestStep. destruct acc as [c|]; [|discriminate].
      destruct (Rlt_dec _ c); discriminate. }
    exists d. split; [exact Hd|].
    assert (Hstep : closestStep camera acc l
                    = Some (Distance camera (lander_position l))
                    \/ (exists c, acc = Some c
                        /\ closestStep camera acc l = Some c
                        /\ c <= Distance camera (lander_position l))).
    { unfold closestStep. destruct acc as [c|]; [|left; reflexivity].
      destruct (Rlt_dec _ c); [left; reflexivity|].
      right. exists c. repeat split. lra. }
    split; [|split].
    + destruct Hfrom as [Hfrom | (l' & Hin & Heq)].
      * destruct Hstep as [Hs | (c & Hc & Hs & _)].
        -- right. exists l. split; [left; reflexivity|]. congruence.
        -- left. congruence.
      * right. exists l'. split; [right; exact Hin | exact Heq].
    + intros a Ha. subst acc.
      unfold closestStep in Hacc.
      destruct (Rlt_dec (Distance camera (lander_position l)) a) as [Hlt|Hge].
      * specialize (Hacc _ eq_refl). lra.
      * apply Hacc. reflexivity.
    + intros l' [<- | Hin]; [|apply Hall; exact Hin].
      destruct Hstep as [Hs | (c & Hc & Hs & Hle)].
      * apply Hacc. exact Hs.
      * specialize (Hacc _ Hs). lra.
Qed.

(** C10. With no landers [getClosestLanderDistance] answers 0; with
    landers it answers the least Euclidean distance from the camera to a
    lander. *)
Theorem getClosestLanderDistance_spec (g : Game) :
  (landers g = [] -> getClosestLanderDistance g = Some 0)
  /\ (landers g <> [] ->
      exists d : R,
        getClosestLanderDistance g = Some d
        /\ (exists l, In l (landers g)
                      /\ d = Distance (cameraPosition g) (lander_position l))
        /\ (forall l, In l (landers g) ->
                      d <= Distance (cameraPosition g) (lander_position l))).
Proof.
  unfold getClosestLanderDistance. split.
  - intros ->. reflexivity.
  - intros Hne.
    destruct (landers g) as [|l ls] eqn:Hls; [congruence|].
    cbn [length Nat.eqb].
    destruct (closestStep_fold (cameraPosition g) (l :: ls) None)
      as (d & Hd & Hfrom & _ & Hall); [right; discriminate|].
    exists d. split; [exact Hd|]. split; [|exact Hall].
    destruct Hfrom as [|Hex]; [discriminate | exact Hex].
Qed.

Lemma getClosestLanderDistance_spec_witness :
  landers (initializeGameProperties 0 []) = []
  /\ getClosestLanderDistance (initializeGameProperties 0 []) = Some 0
  /\ landers duelGame <> []
  /\ exists d : R,
       getClosestLanderDistance duelGame = Some d
       /\ d <= Distance (cameraPosition duelGame) (lander_position landerAtEdge).
Proof.
  split; [reflexivity|]. split.
  - exact (proj1 (getClosestLanderDistance_spec (initializeGameProperties 0 []))
                 eq_refl).
  - assert (Hne : landers duelGame <> []) by discriminate.
    split; [exact Hne|].
    destruct (proj2 (getClosestLanderDistance_spec duelGame) Hne)
      as (d & Hd & _ & Hmin).
    exists d. split; [exact Hd|]. apply Hmin. left. reflexivity.
Defined.

(** ** Lander steering *)

Lemma Vlength_nonneg (v : Vector3) : 0 <= Vlength v.
Proof. apply sqrt_pos. Qed.

Lemma Vlength_ge_x (v : Vector3) : Rabs (vx v) <= Vlength v.
Proof.
  unfold Vlength. rewrite <- sqrt_Rsqr_abs.
  apply sqrt_le_1_alt. unfold Rsqr. nra.
Qed.

(** The x component of a normalized vector has the sign of the original
    and is at most 1 in size. *)
Lemma Vnormalize_x (v : Vector3) :
  0 <= vx v * vx (Vnormalize v) /\ Rabs (vx (Vnormalize v)) <= 1.
Proof.
  pose proof (Vlength_nonneg v) as Hpos.
  pose proof (Vlength_ge_x v) as Hx.
  unfold Vnormalize. destruct (Req_dec_T (Vlength v) 0) as [Hz|Hnz].
  - rewrite Hz in Hx. pose proof (Rabs_pos (vx v)) as Ha.
    assert (Rabs (vx v) = 0) as H0 by lra.
    split; [nra | lra].
  - assert (Hlen : 0 < Vlength v) by lra.
    assert (Hinv : 0 < 1 / Vlength v) by (apply Rdiv_lt_0_compat; lra).
    cbn [Vscale vx]. split; [nra|].
    rewrite Rabs_mult, (Rabs_right (1 / Vlength v)) by lra.
    apply (Rmult_le_reg_r (Vlength v)); [exact Hlen|].
    replace (Rabs (vx v) * (1 / Vlength v) * Vlength v) with (Rabs (vx v))
      by (field; lra).
    lra.
Qed.

Lemma findNearest_snoc (p : Vector3) (crew : list Astronaut) (a : Astronaut) :
  findNearest p (crew ++ [a]) = nearestStep p (findNearest p crew) a.
Proof. unfold findNearest. rewrite fold_left_app. reflexivity. Qed.

(** The search returns the first astronaut, in array order, at the least
    planar distance: strictly nearer than every one before it and at least
    as near as every one after it. *)
Lemma findNearest_first_min (p : Vector3) (crew : list Astronaut) :
  (crew = [] -> findNearest p crew = None)
  /\ (crew <> [] ->
      exists (before : list Astronaut) (a : Astronaut) (after : list Astronaut),
        crew = before ++ a :: after
        /\ findNearest p crew
           = Some (planarDistance p (astronaut_position a), a)
        /\ (forall b, In b before ->
              planarDistance p (astronaut_position a)
              < planarDistance p (astronaut_position b))
        /\ (forall b, In b after ->
              planarDistance p (astronaut_position a)
              <= planarDistance p (astronaut_position b))).
Proof.
  induction crew as [|x crew IH] using rev_ind.
  - split; [reflexivity | congruence].
  - split; [intros Heq; destruct crew; discriminate|]. intros _.
    rewrite findNearest_snoc. destruct IH as (IHnil & IHcons).
    destruct crew as [|c crew'].
    + rewrite (IHnil eq_refl). exists [], x, []. cbn.
      repeat split; intros ? [].
    + destruct (IHcons ltac:(discriminate))
        as (before & a & after & Hsplit & Hres & Hbefore & Hafter).
      rewrite Hres. unfold nearestStep.
      destruct (Rlt_dec (planarDistance p (astronaut_position x))
                        (planarDistance p (astronaut_position a))) as [Hlt|Hge].
      * exists (c :: crew'), x, []. repeat split; [|intros ? []].
        intros b Hb. rewrite Hsplit in Hb.
        apply in_app_or in Hb. destruct Hb as [Hb | [<- | Hb]].
        -- specialize (Hbefore b Hb). lra.
        -- exact Hlt.
        -- specialize (Hafter b Hb). lra.
      * exists before, a, (after ++ [x]). repeat split.
        -- rewrite Hsplit, <- app_assoc. reflexivity.
        -- exact Hbefore.
        -- intros b Hb. apply in_app_or in Hb.
           destruct Hb as [Hb | [<- | []]]; [apply Hafter; exact Hb | lra].
Qed.

Lemma sqrt_154600_bounds : 390 < sqrt 154600 < 400.
Proof.
  split.
  - replace 390 with (sqrt (390 * 390)) by (apply sqrt_square; lra).
    apply sqrt_lt_1; lra.
  - replace 400 with (sqrt (400 * 400)) by (apply sqrt_square; lra).
    apply sqrt_lt_1; lra.
Qed.

Lemma scenario_distances :
  planarDistance (mkV 400 0 0) (astronaut_position (astronautAt 0 0)) = 400
  /\ planarDistance (mkV 400 0 0) (astronaut_position (astronautAt 10 50))
     = sqrt 154600
  /\ Vlength (Vsubtract (astronaut_position (astronautAt 10 50)) (mkV 400 0 0))
     = sqrt 154600
  /\ Vlength (Vsubtract (astronaut_position (astronautAt 0 0)) (mkV 400 0 0))
     = 400.
Proof.
  unfold planarDistance, Distance, Vlength. cbn.
  repeat split.
  - replace ((400 - 0) * (400 - 0) + (0 - 0) * (0 - 0) + (0 - 0) * (0 - 0))
      with (400 * 400) by ring.
    apply sqrt_square; lra.
  - f_equal. ring.
  - f_equal. ring.
  - replace ((0 - 400) * (0 - 400) + (0 - 0) * (0 - 0) + (0 - 0) * (0 - 0))
      with (400 * 400) by ring.
    apply sqrt_square; lra.
Qed.

(** In the scenario the search settles on the astronaut at (10, 0, 50). *)
Lemma scenario_nearest :
  findNearest (mkV 400 0 (0 + 0)) [astronautAt 0 0; astronautAt 10 50]
  = Some (sqrt 154600, astronautAt 10 50).
Proof.
  destruct scenario_distances as (H1 & H2 & _).
  replace (0 + 0) with 0 by ring.
  unfold findNearest. cbn [fold_left nearestStep].
  rewrite H1, H2.
  destruct (Rlt_dec (sqrt 154600) 400) as [_|Hge]; [reflexivity|].
  pose proof sqrt_154600_bounds. lra.
Qed.

Lemma scenario_update_x :
  vx (lander_position
        (Lander_update 0 [astronautAt 0 0; astronautAt 10 50] landerAtEdge))
  = 400 - 390 / sqrt 154600 * (3 / 10).
Proof.
  destruct scenario_distances as (_ & _ & H3 & _).
  pose proof sqrt_154600_bounds as Hb.
  unfold Lander_update, landerAtEdge. cbn [lander_position lander_initialZ
    lander_speed vx vy vz].
  rewrite scenario_nearest. replace (0 + 0) with 0 by ring.
  unfold Vnormalize. rewrite H3.
  destruct (Req_dec_T (sqrt 154600) 0) as [Hz|_]; [lra|].
  cbn. field. lra.
Qed.

(** C6 (as the code has it). [Lander.update] first sets z to
    [initialZ + gamePlaneZ], then picks the live astronaut at the least
    planar (x, z) distance, the first such in array order, and adds to x
    the x component of the normalized direction to it times [speed]: a step
    toward the astronaut of size at most [speed]; y and z are not steered.
    With no astronaut x stays.  In the scenario (lander at (400, 0, 0),
    astronauts at (0, 0, 0) and (10, 0, 50)) the second astronaut is the
    nearer one, at distance sqrt 154600 < 400, and the lander steers
    toward it: x becomes 400 - 390 / sqrt 154600 * 0.3. *)
Theorem Lander_update_steering (gamePlaneZ : R) (crew : list Astronaut)
    (l : Lander) :
  let p := mkV (vx (lander_position l)) (vy (lander_position l))
               (lander_initialZ l + gamePlaneZ) in
  let l' := Lander_update gamePlaneZ crew l in
  vz (lander_position l') = lander_initialZ l + gamePlaneZ
  /\ vy (lander_position l') = vy (lander_position l)
  /\ lander_initialZ l' = lander_initialZ l
  /\ lander_speed l' = lander_speed l
  /\ (crew = [] -> vx (lander_position l') = vx (lander_position l))
  /\ (crew <> [] ->
      exists (before : list Astronaut) (a : Astronaut) (after : list Astronaut),
        crew = before ++ a :: after
        /\ (forall b, In b before ->
              planarDistance p (astronaut_position a)
              < planarDistance p (astronaut_position b))
        /\ (forall b, In b after ->
              planarDistance p (astronaut_position a)
              <= planarDistance p (astronaut_position b))
        /\ vx (lander_position l')
           = vx (lander_position l)
             + vx (Vnormalize (Vsubtract (astronaut_position a) p))
               * lander_speed l
        /\ (0 <= lander_speed l ->
            0 <= (vx (astronaut_position a) - vx (lander_position l))
                 * (vx (lander_position l') - vx (lander_position l))
            /\ Rabs (vx (lander_position l') - vx (lander_position l))
               <= lander_speed l))
  /\ (findNearest (mkV 400 0 (0 + 0)) [astronautAt 0 0; astronautAt 10 50]
      = Some (sqrt 154600, astronautAt 10 50)
      /\ sqrt 154600 < 400
      /\ vx (lander_position
               (Lander_update 0 [astronautAt 0 0; astronautAt 10 50]
                  landerAtEdge))
         = 400 - 390 / sqrt 154600 * (3 / 10)).
Proof.
  intros p l'. subst l'. unfold Lander_update. fold p.
  destruct (findNearest_first_min p crew) as (Hnil & Hcons).
  assert (Hscenario :
    findNearest (mkV 400 0 (0 + 0)) [astronautAt 0 0; astronautAt 10 50]
      = Some (sqrt 154600, astronautAt 10 50)
    /\ sqrt 154600 < 400
    /\ vx (lander_position
             (Lander_update 0 [astronautAt 0 0; astronautAt 10 50]
                landerAtEdge))
       = 400 - 390 / sqrt 154600 * (3 / 10)).
  { split; [exact scenario_nearest|].
    split; [apply sqrt_154600_bounds | exact scenario_update_x]. }
  destruct crew as [|c crew'].
  - rewrite (Hnil eq_refl). cbn.
    repeat split; try reflexivity; try apply Hscenario. congruence.
  - destruct (Hcons ltac:(discriminate))
      as (before & a & after & Hsplit & Hres & Hbefore & Hafter).
    rewrite Hres. cbn [lander_position lander_initialZ lander_speed vx vy vz].
    split; [reflexivity|]. split; [reflexivity|]. split; [reflexivity|].
    split; [reflexivity|]. split; [discriminate|]. split; [|exact Hscenario].
    intros _. exists before, a, after.
    split; [exact Hsplit|]. split; [exact Hbefore|]. split; [exact Hafter|].
    split; [reflexivity|]. intros Hspeed.
    destruct (Vnormalize_x (Vsubtract (astronaut_position a) p)) as (Hsign & Hsize).
    set (dx := vx (Vnormalize (Vsubtract (astronaut_position a) p))) in *.
    assert (Hvx : vx (Vsubtract (astronaut_position a) p)
                  = vx (astronaut_position a) - vx (lander_position l))
      by reflexivity.
    rewrite Hvx in Hsign.
    replace (vx p + dx * lander_speed l - vx (lander_position l))
      with (dx * lander_speed l) by (subst p; cbn; ring).
    split; [nra|].
    rewrite Rabs_mult, (Rabs_right (lander_speed l)) by lra.
    pose proof (Rabs_pos dx). nra.
Qed.

Lemma Lander_update_steering_witness :
  [astronautAt 0 0; astronautAt 10 50] <> []
  /\ 0 <= lander_speed landerAtEdge
  /\ Rabs (vx (lander_position
                 (Lander_update 0 [astronautAt 0 0; astronautAt 10 50]
                    landerAtEdge))
           - vx (lander_position landerAtEdge))
     <= lander_speed landerAtEdge.
Proof.
  assert (Hne : [astronautAt 0 0; astronautAt 10 50] <> []) by discriminate.
  assert (Hspeed : 0 <= lander_speed landerAtEdge) by (cbn; lra).
  destruct (Lander_update_steering 0 [astronautAt 0 0; astronautAt 10 50]
              landerAtEdge) as (_ & _ & _ & _ & _ & Hcons & _).
  destruct (Hcons Hne) as (before & a & after & _ & _ & _ & _ & Hstep).
  split; [exact Hne|]. split; [exact Hspeed|]. exact (proj2 (Hstep Hspeed)).
Defined.

(** The scenario as the specification words it: the lander would steer
    toward the astronaut at (0, 0, 0), along the direction (-1, 0, 0), to
    x = 400 - 0.3.  It does not: that astronaut is not the one the search
    returns, and the step taken is shorter in x. *)
Lemma Lander_update_scenario_counterexample :
  (forall d : R,
     findNearest (mkV 400 0 (0 + 0)) [astronautAt 0 0; astronautAt 10 50]
     <> Some (d, astronautAt 0 0))
  /\ vx (lander_position
           (Lander_update 0 [astronautAt 0 0; astronautAt 10 50] landerAtEdge))
     <> 400
        + vx (Vnormalize (Vsubtract (astronaut_position (astronautAt 0 0))
                                    (mkV 400 0 0)))
          * (3 / 10)
  /\ vx (Vnormalize (Vsubtract (astronaut_position (astronautAt 0 0))
                               (mkV 400 0 0))) = -1.
Proof.
  assert (Hdir : vx (Vnormalize (Vsubtract (astronaut_position (astronautAt 0 0))
                                           (mkV 400 0 0))) = -1).
  { destruct scenario_distances as (_ & _ & _ & H4).
    unfold Vnormalize. rewrite H4.
    destruct (Req_dec_T 400 0) as [Hz|_]; [lra|]. cbn. field. }
  split; [|split; [|exact Hdir]].
  - intros d. rewrite scenario_nearest. intros [= _ Hx _]. lra.
  - rewrite scenario_update_x, Hdir.
    pose proof sqrt_154600_bounds as Hb.
    assert (Hq : 390 / sqrt 154600 < 1).
    { apply (Rmult_lt_reg_r (sqrt 154600)); [lra|].
      replace (390 / sqrt 154600 * sqrt 154600) with 390 by (field; lra). lra. }
    lra.
Qed.

(** ** Collision scans *)

Local Open Scope nat_scope.

Lemma scanDown_Some {A : Type} (hit : A -> bool) (xs : list A) (j k : nat) :
  scanDown hit xs j = Some k ->
  k < j
  /\ (exists x, xs !! k = Some x /\ hit x = true)
  /\ (forall k' x', k < k' < j -> xs !! k' = Some x' -> hit x' = false).
Proof.
  induction j as [|j IH]; cbn; [discriminate|].
  destruct (xs !! j) as [x|] eqn:Hx; [|discriminate].
  destruct (hit x) eqn:Hhit.
  - intros [= <-]. split; [lia|]. split; [exists x; split; assumption|].
    intros k' x' Hk'. lia.
  - intros Hk. destruct (IH Hk) as (Hlt & Hex & Habove).
    split; [lia|]. split; [exact Hex|].
    intros k' x' Hk' Hx'. destruct (decide (k' = j)) as [->|Hne].
    + congruence.
    + apply (Habove k' x'); [lia | exact Hx'].
Qed.

Lemma scanDown_None {A : Type} (hit : A -> bool) (xs : list A) (j : nat) :
  j <= length xs -> scanDown hit xs j = None ->
  forall k x, k < j -> xs !! k = Some x -> hit x = false.
Proof.
  induction j as [|j IH]; cbn; intros Hlen Hscan k x Hk Hx; [lia|].
  destruct (xs !! j) as [y|] eqn:Hy.
  - destruct (hit y) eqn:Hhit; [discriminate|].
    destruct (decide (k = j)) as [->|Hne]; [congruence|].
    apply (IH ltac:(lia) Hscan k x); [lia | exact Hx].
  - apply lookup_ge_None in Hy. lia.
Qed.

Lemma take_delete_ge {A : Type} (l : list A) :
  forall n i : nat, n <= i -> take n (delete i l) = take n l.
Proof.
  induction l as [|x l IH]; intros n i Hle; [destruct i; reflexivity|].
  destruct i as [|i]; [replace n with 0%nat by lia; reflexivity|].
  destruct n as [|n]; [reflexivity|].
  cbn. f_equal. apply IH. lia.
Qed.

Lemma length_delete_le {A : Type} (l : list A) (i : nat) :
  length (delete i l) <= length l.
Proof.
  revert i. induction l as [|x l IH]; intros [|i]; cbn; try lia.
  apply le_n_S, IH.
Qed.

Lemma length_delete_lt {A : Type} (l : list A) (i : nat) (x : A) :
  l !! i = Some x -> length (delete i l) < length l.
Proof.
  intros Hx. rewrite length_delete by (eexists; exact Hx).
  apply lookup_lt_Some in Hx. lia.
Qed.

Section Scans.
Context `{Engine}.

(** What a run of the laser scan from index [i] does: either it resolves no
    hit, or it stops at the first hit in scan order (the laser with the
    highest index whose moved mesh intersects a lander, and the lander
    with the highest index it intersects), removes that pair and counts it;
    the lasers below that index are as they were, not even moved. *)
Lemma updateLasers_from_exit (i : nat) :
  forall g : Game,
  (landers (updateLasers_from i g) = landers g
   /\ landersDestroyed (updateLasers_from i g) = landersDestroyed g
   /\ score (updateLasers_from i g) = score g)
  \/ (exists (i' j : nat) (laser : Laser) (lander : Lander),
        i' < i
        /\ lasers g !! i' = Some laser
        /\ landers g !! j = Some lander
        /\ laserIntersects (moveLaser (laserSpeed g) laser) lander = true
        /\ (forall j' lander',
              j < j' -> landers g !! j' = Some lander' ->
              laserIntersects (moveLaser (laserSpeed g) laser) lander' = false)
        /\ (forall k laser' j' lander',
              i' < k < i -> lasers g !! k = Some laser' ->
              landers g !! j' = Some lander' ->
              laserIntersects (moveLaser (laserSpeed g) laser') lander' = false)
        /\ landers (updateLasers_from i g) = delete j (landers g)
        /\ landersDestroyed (updateLasers_from i g) = (landersDestroyed g + 1)%Z
        /\ score (updateLasers_from i g) = (score g + 50)%Z
        /\ take i' (lasers (updateLasers_from i g)) = take i' (lasers g)
        /\ length (lasers (updateLasers_from i g)) < length (lasers g)).
Proof.
  induction i as [|i IH]; intros g; [left; repeat split|].
  cbn [updateLasers_from].
  destruct (lasers g !! i) as [laser0|] eqn:Hlaser; [|left; repeat split].
  cbn [landers set_lasers lasers cameraPosition].
  destruct (scanDown (laserIntersects (moveLaser (laserSpeed g) laser0))
              (landers g) (length (landers g))) as [j|] eqn:Hscan.
  - right.
    destruct (scanDown_Some _ _ _ _ Hscan) as (_ & (lander & Hj & Hhit) & Habove).
    exists i, j, laser0, lander. cbn.
    split; [lia|]. split; [exact Hlaser|]. split; [exact Hj|].
    split; [exact Hhit|]. split.
    { intros j' lander' Hj' Hl'. apply (Habove j' lander'); [|exact Hl'].
      apply lookup_lt_Some in Hl'. lia. }
    split; [intros; lia|].
    split; [reflexivity|]. split; [reflexivity|].
    split; [reflexivity|]. split.
    + rewrite take_delete_ge, take_insert_ge by lia. reflexivity.
    + pose proof (lookup_lt_Some _ _ _ Hlaser) as Hlt.
      rewrite length_delete, length_insert; [lia|].
      apply lookup_lt_is_Some. rewrite length_insert. exact Hlt.
  - pose proof (scanDown_None _ _ _ (le_n _) Hscan) as Hmiss.
    match goal with
    | |- context [updateLasers_from i ?g2] => set (g2' := g2)
    end.
    assert (Hsame : landers g2' = landers g
                    /\ landersDestroyed g2' = landersDestroyed g
                    /\ score g2' = score g
                    /\ laserSpeed g2' = laserSpeed g
                    /\ (forall k, k < i -> lasers g2' !! k = lasers g !! k)
                    /\ (forall k, k <= i -> take k (lasers g2') = take k (lasers g))
                    /\ length (lasers g2') <= length (lasers g)).
    { subst g2'.
      destruct (Rgt_dec _ 500%R); cbn; repeat split; intros;
        rewrite ?list_lookup_delete_lt, ?list_lookup_insert_ne,
                ?take_delete_ge, ?take_insert_ge by lia; try reflexivity.
      - pose proof (length_delete_le (<[i:=moveLaser (laserSpeed g) laser0]> (lasers g)) i).
        rewrite length_insert in *. lia.
      - rewrite length_insert. lia. }
    destruct Hsame as (Hl & Hd & Hs & Hsp & Hlook & Htake & Hlen).
    destruct (IH g2') as [(Hl' & Hd' & Hs') | Hhit].
    + left. repeat split; congruence.
    + right. destruct Hhit as (i' & j & laser & lander & Hlt & Hi' & Hj & Hhit
                               & Hfirstj & Hfirsti
                               & Hl' & Hd' & Hs' & Htake' & Hlen').
      exists i', j, laser, lander.
      split; [lia|]. split; [rewrite <- Hlook by lia; exact Hi'|].
      split; [rewrite <- Hl; exact Hj|].
      split; [rewrite <- Hsp; exact Hhit|].
      split.
      { intros j' lander' Hj' Hl''. rewrite <- Hsp.
        apply (Hfirstj j' lander' Hj'). rewrite Hl. exact Hl''. }
      split.
      { intros k laser' j' lander' Hk Hlk Hlj.
        destruct (decide (k = i)) as [->|Hne].
        - assert (laser' = laser0) as -> by congruence.
          apply (Hmiss j' lander'); [|exact Hlj].
          apply lookup_lt_Some in Hlj. exact Hlj.
        - rewrite <- Hsp.
          apply (Hfirsti k laser' j' lander'); [lia | |].
          + rewrite Hlook by lia. exact Hlk.
          + rewrite Hl. exact Hlj. }
      split; [rewrite <- Hl; exact Hl'|].
      split; [rewrite <- Hd; exact Hd'|].
      split; [rewrite <- Hs; exact Hs'|].
      split; [rewrite Htake'; apply Htake; lia | lia].
Qed.

Lemma takeDamage_frame (amount : Q) (g : Game) :
  astronauts (takeDamage amount g) = astronauts g
  /\ landers (takeDamage amount g) = landers g
  /\ gamePlaneZ (takeDamage amount g) = gamePlaneZ g
  /\ cameraPosition (takeDamage amount g) = cameraPosition g.
Proof.
  unfold takeDamage. cbn.
  destruct (Qle_bool (Qmax 0 (health g - amount)) 0 && negb (isGameOver g));
    repeat split.
Qed.

(** What a run of the lander scan from index [i] does with the astronauts:
    either none is lost, or the scan stops at the first hit in scan order
    (the lander with the highest index that, updated, is not at the player
    and intersects an astronaut, and the astronaut with the highest index
    it intersects) and removes that pair; the landers below that index are
    as they were, not even updated. *)
Lemma updateLanders_from_exit (i : nat) :
  forall g : Game,
  astronauts (updateLanders_from i g) = astronauts g
  \/ (exists (i' j : nat) (lander : Lander) (astronaut : Astronaut),
        i' < i
        /\ landers g !! i' = Some lander
        /\ astronauts g !! j = Some astronaut
        /\ landerIntersects
             (Lander_update (gamePlaneZ g) (astronauts g) lander) astronaut
           = true
        /\ (forall j' astronaut',
              j < j' -> astronauts g !! j' = Some astronaut' ->
              landerIntersects
                (Lander_update (gamePlaneZ g) (astronauts g) lander) astronaut'
              = false)
        /\ (forall k lander',
              i' < k < i -> landers g !! k = Some lander' -> passedBy g lander')
        /\ astronauts (updateLanders_from i g) = delete j (astronauts g)
        /\ take i' (landers (updateLanders_from i g)) = take i' (landers g)
        /\ length (landers (updateLanders_from i g)) < length (landers g)).
Proof.
  induction i as [|i IH]; intros g; [left; reflexivity|].
  cbn [updateLanders_from].
  destruct (landers g !! i) as [lander0|] eqn:Hlander; [|left; reflexivity].
  set (lander := Lander_update (gamePlaneZ g) (astronauts g) lander0).
  cbn [landers set_landers astronauts cameraPosition].
  pose proof (lookup_lt_Some _ _ _ Hlander) as Hlt.
  assert (Hcont : forall g2 : Game,
            passedBy g lander0 ->
            astronauts g2 = astronauts g -> gamePlaneZ g2 = gamePlaneZ g ->
            cameraPosition g2 = cameraPosition g ->
            (forall k, k < i -> landers g2 !! k = landers g !! k) ->
            (forall k, k <= i -> take k (landers g2) = take k (landers g)) ->
            length (landers g2) <= length (landers g) ->
            astronauts (updateLanders_from i g2) = astronauts g
            \/ (exists (i' j : nat) (l : Lander) (a : Astronaut),
                  i' < S i
                  /\ landers g !! i' = Some l
                  /\ astronauts g !! j = Some a
                  /\ landerIntersects
                       (Lander_update (gamePlaneZ g) (astronauts g) l) a = true
                  /\ (forall j' a',
                        j < j' -> astronauts g !! j' = Some a' ->
                        landerIntersects
                          (Lander_update (gamePlaneZ g) (astronauts g) l) a'
                        = false)
                  /\ (forall k l',
                        i' < k < S i -> landers g !! k = Some l' ->
                        passedBy g l')
                  /\ astronauts (updateLanders_from i g2) = delete j (astronauts g)
                  /\ take i' (landers (updateLanders_from i g2))
                     = take i' (landers g)
                  /\ length (landers (updateLanders_from i g2))
                     < length (landers g))).
  { intros g2 Hpassed Ha Hz Hc Hlook Htake Hlen.
    destruct (IH g2) as [Hsame | Hhit].
    - left. congruence.
    - right. destruct Hhit as (i' & j & l & a & Hi' & Hl & Hj & Hhit
                               & Hfirstj & Hfirsti & Ha' & Htake' & Hlen').
      unfold passedBy in Hfirsti. rewrite Hz, Ha, Hc in Hfirsti.
      rewrite Hz, Ha in Hhit, Hfirstj.
      exists i', j, l, a.
      split; [lia|]. split; [rewrite <- Hlook by lia; exact Hl|].
      split; [rewrite <- Ha; exact Hj|].
      split; [exact Hhit|]. split; [exact Hfirstj|].
      split.
      { intros k l' Hk Hlk. destruct (decide (k = i)) as [->|Hne].
        - assert (l' = lander0) as -> by congruence. exact Hpassed.
        - apply (Hfirsti k l'); [lia|]. rewrite Hlook by lia. exact Hlk. }
      split; [rewrite <- Ha; exact Ha'|].
      split; [rewrite Htake'; apply Htake; lia | lia]. }
  destruct (Rlt_dec (Distance (lander_position lander) (cameraPosition g)) 3)
    as [Hnear|Hfar].
  - destruct (takeDamage_frame 20 (set_landers (<[i:=lander]> (landers g)) g))
      as (Hda & Hdl & Hdz & Hdc).
    cbn in Hda, Hdl, Hdz, Hdc.
    apply Hcont; [left; exact Hnear | ..]; cbn; rewrite ?Hdl; intros;
      rewrite ?list_lookup_delete_lt, ?list_lookup_insert_ne,
              ?take_delete_ge, ?take_insert_ge by lia; try assumption;
      try reflexivity.
    pose proof (length_delete_le (<[i:=lander]> (landers g)) i).
    rewrite length_insert in *. lia.
  - destruct (scanDown (landerIntersects lander) (astronauts g)
                (length (astronauts g))) as [j|] eqn:Hscan.
    + right.
      destruct (scanDown_Some _ _ _ _ Hscan) as (_ & (a & Hj & Hhit) & Habove).
      exists i, j, lander0, a. cbn.
      split; [lia|]. split; [exact Hlander|]. split; [exact Hj|].
      split; [exact Hhit|]. split.
      { intros j' a' Hj' Ha'. apply (Habove j' a'); [|exact Ha'].
        apply lookup_lt_Some in Ha'. lia. }
      split; [intros; lia|].
      split; [reflexivity|]. split.
      * rewrite take_delete_ge, take_insert_ge by lia. reflexivity.
      * rewrite length_delete, length_insert; [lia|].
        apply lookup_lt_is_Some. rewrite length_insert. exact Hlt.
    + pose proof (scanDown_None _ _ _ (le_n _) Hscan) as Hmiss.
      assert (Hpassed : passedBy g lander0).
      { right. intros j' a' Ha'. apply (Hmiss j' a'); [|exact Ha'].
        apply lookup_lt_Some in Ha'. exact Ha'. }
      destruct (Rlt_dec (vz (lander_position lander)) (-500));
        apply Hcont; try exact Hpassed; cbn; intros;
        rewrite ?list_lookup_delete_lt, ?list_lookup_insert_ne,
                ?take_delete_ge, ?take_insert_ge by lia; try reflexivity.
      * pose proof (length_delete_le (<[i:=lander]> (landers g)) i).
        rewrite length_insert in *. lia.
      * rewrite length_insert. lia.
Qed.

(** C8. One run of the laser scan ([updateLasers]) resolves at most one
    laser-lander pair and one run of the lander scan ([updateLanders]) at
    most one lander-astronaut pair.  The pair resolved is the first hit in
    scan order, and the run ends there: exactly that lander (that
    astronaut) is removed, and every laser (lander) that had not been
    visited yet, those below the index of the hit, is left exactly as it
    was, not moved and not removed. *)
Theorem collision_scans_exit_after_first_hit (g : Game) :
  ((landers (updateLasers g) = landers g
    /\ landersDestroyed (updateLasers g) = landersDestroyed g
    /\ score (updateLasers g) = score g)
   \/ (exists (i j : nat) (laser : Laser) (lander : Lander),
         lasers g !! i = Some laser
         /\ landers g !! j = Some lander
         /\ laserIntersects (moveLaser (laserSpeed g) laser) lander = true
         /\ (forall j' lander',
               j < j' -> landers g !! j' = Some lander' ->
               laserIntersects (moveLaser (laserSpeed g) laser) lander' = false)
         /\ (forall k laser' j' lander',
               i < k -> lasers g !! k = Some laser' ->
               landers g !! j' = Some lander' ->
               laserIntersects (moveLaser (laserSpeed g) laser') lander' = false)
         /\ landers (updateLasers g) = delete j (landers g)
         /\ landersDestroyed (updateLasers g) = (landersDestroyed g + 1)%Z
         /\ score (updateLasers g) = (score g + 50)%Z
         /\ take i (lasers (updateLasers g)) = take i (lasers g)
         /\ length (lasers (updateLasers g)) < length (lasers g)))
  /\ length (landers g) <= length (landers (updateLasers g)) + 1
  /\ (astronauts (updateLanders g) = astronauts g
      \/ (exists (i j : nat) (lander : Lander) (astronaut : Astronaut),
            landers g !! i = Some lander
            /\ astronauts g !! j = Some astronaut
            /\ landerIntersects
                 (Lander_update (gamePlaneZ g) (astronauts g) lander) astronaut
               = true
            /\ (forall j' astronaut',
                  j < j' -> astronauts g !! j' = Some astronaut' ->
                  landerIntersects
                    (Lander_update (gamePlaneZ g) (astronauts g) lander)
                    astronaut'
                  = false)
            /\ (forall k lander',
                  i < k -> landers g !! k = Some lander' -> passedBy g lander')
            /\ astronauts (updateLanders g) = delete j (astronauts g)
            /\ take i (landers (updateLanders g)) = take i (landers g)
            /\ length (landers (updateLanders g)) < length (landers g)))
  /\ length (astronauts g) <= length (astronauts (updateLanders g)) + 1.
Proof.
  unfold updateLasers, updateLanders.
  pose proof (updateLasers_from_exit (length (lasers g)) g) as Hlasers.
  pose proof (updateLanders_from_exit (length (landers g)) g) as Hlanders.
  split; [|split; [|split]].
  - destruct Hlasers as [Hsame | (i & j & laser & lander & _ & Hi & Hj & Hhit
                                  & Hfirstj & Hfirsti & Hrest)].
    + left. exact Hsame.
    + right. exists i, j, laser, lander.
      split; [exact Hi|]. split; [exact Hj|]. split; [exact Hhit|].
      split; [exact Hfirstj|]. split; [|exact Hrest].
      intros k laser' j' lander' Hk Hlk. apply (Hfirsti k laser' j' lander').
      * apply lookup_lt_Some in Hlk. lia.
      * exact Hlk.
  - destruct Hlasers as [(Hsame & _) | (i & j & laser & lander & _ & _ & Hj
                                        & _ & _ & _ & Hl & _)].
    + rewrite Hsame. lia.
    + rewrite Hl, length_delete by (eexists; exact Hj). lia.
  - destruct Hlanders as [Hsame | (i & j & lander & a & _ & Hi & Hj & Hhit
                                   & Hfirstj & Hfirsti & Hrest)].
    + left. exact Hsame.
    + right. exists i, j, lander, a.
      split; [exact Hi|]. split; [exact Hj|]. split; [exact Hhit|].
      split; [exact Hfirstj|]. split; [|exact Hrest].
      intros k lander' Hk Hlk. apply (Hfirsti k lander'); [|exact Hlk].
      apply lookup_lt_Some in Hlk. lia.
  - destruct Hlanders as [Hsame | (i & j & lander & a & _ & _ & Hj & _ & _ & _
                                   & Ha & _)].
    + rewrite Hsame. lia.
    + rewrite Ha, length_delete by (eexists; exact Hj). lia.
Qed.

End Scans.

(** ** Scoring of a resolved hit *)

(** One iteration, at index [i], of a loop that runs from the last index
    down, replaces the entry by [f] of it and splices it out when it fails
    [keep]: what lies at and above [i] is final, what lies below is still
    to be done. *)
Lemma splice_step {A : Type} (f : A -> A) (keep : A -> bool) (l : list A)
    (i : nat) (x : A) :
  l !! i = Some x ->
  List.filter keep (map f (take i (if keep (f x) then <[i:=f x]> l
                                   else delete i (<[i:=f x]> l))))
  ++ drop i (if keep (f x) then <[i:=f x]> l else delete i (<[i:=f x]> l))
  = List.filter keep (map f (take (S i) l)) ++ drop (S i) l.
Proof.
  intros Hx. pose proof (lookup_lt_Some _ _ _ Hx) as Hlt.
  rewrite (take_S_r l i x Hx), map_app, List.filter_app. cbn [map List.filter].
  destruct (keep (f x)).
  - rewrite take_insert_ge by lia.
    rewrite (insert_take_drop l i (f x) Hlt) at 1.
    rewrite drop_app_length' by (rewrite length_take; lia).
    rewrite <- app_assoc. reflexivity.
  - rewrite take_delete_ge, take_insert_ge by lia.
    rewrite delete_take_drop, drop_app_length'
      by (rewrite length_take, length_insert; lia).
    rewrite drop_insert_lt by lia. rewrite app_nil_r. reflexivity.
Qed.

Lemma laserInRange_false (camera : Vector3) (laser : Laser) :
  (Distance (laser_position laser) camera > 500)%R ->
  laserInRange camera laser = false.
Proof.
  intros Hfar. unfold laserInRange.
  destruct (Rgt_dec _ 500); [reflexivity | contradiction].
Qed.

Lemma laserInRange_true (camera : Vector3) (laser : Laser) :
  ~ (Distance (laser_position laser) camera > 500)%R ->
  laserInRange camera laser = true.
Proof.
  intros Hnear. unfold laserInRange.
  destruct (Rgt_dec _ 500); [contradiction | reflexivity].
Qed.

Lemma takeDamage_scoreboard (amount : Q) (g : Game) :
  score (takeDamage amount g) = score g
  /\ astronautsSaved (takeDamage amount g) = astronautsSaved g
  /\ landersDestroyed (takeDamage amount g) = landersDestroyed g
  /\ lasers (takeDamage amount g) = lasers g
  /\ energy (takeDamage amount g) = energy g.
Proof.
  unfold takeDamage. cbn.
  destruct (Qle_bool (Qmax 0 (health g - amount)) 0 && negb (isGameOver g));
    repeat split.
Qed.



Section Hits.
Context `{Engine}.




End Hits.

(** ** Health and energy stay within their pools *)

Lemma updateLasers_l1431_from_resources (i : nat) :
  forall g : Game, resources (updateLasers_l1431_from i g) = resources g.
Proof.
  induction i as [|i IH]; intros g; cbn [updateLasers_l1431_from];
    [reflexivity | loop_frame IH].
Qed.

(** Whether it returns or raises, the second [updateLanders] leaves the
    game as it found it. *)
Lemma updateLanders_l1441_state (g : Game) :
  stateOf (updateLanders_l1441 g) = g.
Proof.
  destruct (landers g) eqn:Hl.
  - rewrite updateLanders_l1441_empty by exact Hl. reflexivity.
  - rewrite updateLanders_l1441_raises by (rewrite Hl; discriminate).
    reflexivity.
Qed.

Lemma updateAstronauts_l1456_from_resources (i : nat) :
  forall g : Game, resources (updateAstronauts_l1456_from i g) = resources g.
Proof.
  induction i as [|i IH]; intros g; cbn [updateAstronauts_l1456_from];
    [reflexivity | loop_frame IH].
Qed.

Lemma updateLasers_l1431_resources (g : Game) :
  resources (updateLasers_l1431 g) = resources g.
Proof. apply updateLasers_l1431_from_resources. Qed.

Lemma updateAstronauts_l1456_resources (g : Game) :
  resources (updateAstronauts_l1456 g) = resources g.
Proof. apply updateAstronauts_l1456_from_resources. Qed.

Lemma updateDifficulty_resources (now : Z) (g : Game) :
  resources (updateDifficulty now g) = resources g.
Proof. reflexivity. Qed.

Lemma resources_poolsInRange (g g' : Game) :
  resources g' = resources g -> poolsInRange g -> poolsInRange g'.
Proof.
  unfold resources, poolsInRange. intros [= -> -> -> -> -> ->]. tauto.
Qed.

Lemma takeDamage_poolsInRange (g : Game) :
  poolsInRange g -> poolsInRange (takeDamage 20 g).
Proof.
  intros (Hmh & Hme & Hr & Hc & Hh & He).
  pose proof (takeDamage_health 20 g) as Hhealth.
  assert (Hrest : maxHealth (takeDamage 20 g) = maxHealth g
                  /\ maxEnergy (takeDamage 20 g) = maxEnergy g
                  /\ energyRechargeRate (takeDamage 20 g) = energyRechargeRate g
                  /\ laserEnergyCost (takeDamage 20 g) = laserEnergyCost g
                  /\ energy (takeDamage 20 g) = energy g).
  { unfold takeDamage. cbn.
    destruct (Qle_bool (Qmax 0 (health g - 20)) 0 && negb (isGameOver g));
      repeat split. }
  destruct Hrest as (H1 & H2 & H3 & H4 & H5).
  unfold poolsInRange. rewrite H1, H2, H3, H4, H5, Hhealth.
  repeat split; try assumption; try tauto.
  - apply Q.le_max_l.
  - apply Q.max_lub; lra.
Qed.

Lemma shootLaser_poolsInRange (forward : Vector3) (g : Game) :
  poolsInRange g -> poolsInRange (shootLaser forward g).
Proof.
  intros Hin. unfold shootLaser.
  destruct (Qle_bool (laserEnergyCost g) (energy g)) eqn:Hb; [|exact Hin].
  apply Qle_bool_iff in Hb.
  destruct Hin as (Hmh & Hme & Hr & Hc & Hh & He).
  unfold poolsInRange. cbn. rewrite Hc in *.
  repeat split; try assumption; try tauto; lra.
Qed.

Lemma update_energy_poolsInRange (g : Game) :
  poolsInRange g -> poolsInRange (update_energy g).
Proof.
  intros Hin. unfold update_energy.
  destruct (Qlt_bool (energy g) (maxEnergy g)); [|exact Hin].
  destruct Hin as (Hmh & Hme & Hr & Hc & Hh & He).
  unfold poolsInRange. cbn. rewrite Hme, Hr.
  repeat split; try assumption; try tauto.
  - apply Q.min_glb; lra.
  - apply Q.le_min_l.
Qed.

Section Reach.
Context `{Engine}.

Lemma updateLasers_from_resources (i : nat) :
  forall g : Game, resources (updateLasers_from i g) = resources g.
Proof.
  induction i as [|i IH]; intros g; cbn [updateLasers_from];
    [reflexivity | loop_frame IH].
Qed.

Lemma updateLanders_from_poolsInRange (i : nat) :
  forall g : Game, poolsInRange g -> poolsInRange (updateLanders_from i g).
Proof.
  induction i as [|i IH]; intros g Hin; cbn [updateLanders_from];
    [exact Hin|].
  destruct (landers g !! i) as [lander0|]; [|exact Hin].
  cbn [landers set_landers astronauts cameraPosition gamePlaneZ].
  destruct (Rlt_dec _ 3).
  - apply IH.
    apply (resources_poolsInRange
             (takeDamage 20
                (set_landers
                   (<[i:=Lander_update (gamePlaneZ g) (astronauts g) lander0]>
                      (landers g)) g))); [reflexivity|].
    apply takeDamage_poolsInRange. exact Hin.
  - destruct (scanDown _ (astronauts g) (length (astronauts g))).
    + exact Hin.
    + destruct (Rlt_dec _ (-500)); apply IH; exact Hin.
Qed.

Lemma updateMovement_poolsInRange (deltaTime : R) (cameraDirection : Vector3)
    (g : Game) :
  poolsInRange g -> poolsInRange (updateMovement deltaTime cameraDirection g).
Proof.
  intros (Hmh & Hme & Hr & Hc & Hh & He).
  assert (Hdrain : (0 <= Qmax 0 (energy g - (5 # 10)) <= 100)%Q).
  { split; [apply Q.le_max_l | apply Q.max_lub; lra]. }
  unfold updateMovement, poolsInRange.
  destruct (keys g "q"); [|destruct (keys g "e")]; cbn;
    match goal with
    | |- context [Rlt_dec ?a ?b] => destruct (Rlt_dec a b)
    end; cbn; repeat split; try assumption; try tauto.
Qed.

Lemma step_poolsInRange (g g' : Game) :
  step g g' -> poolsInRange g -> poolsInRange g'.
Proof.
  intros Hstep Hin. destruct Hstep.
  - unfold keydown.
    destruct (String.eqb code "Space" && canShoot (setKey key true g)).
    + apply (resources_poolsInRange (shootLaser forward (setKey key true g)));
        [reflexivity|].
      apply shootLaser_poolsInRange. exact Hin.
    + exact Hin.
  - exact Hin.
  - exact Hin.
  - exact Hin.
  - exact Hin.
  - exact Hin.
  - unfold clampCamera. destruct (Rlt_dec _ 2); exact Hin.
  - apply updateMovement_poolsInRange. exact Hin.
  - apply (resources_poolsInRange g); [|exact Hin].
    apply updateLasers_from_resources.
  - apply updateLanders_from_poolsInRange. exact Hin.
  - exact Hin.
  - apply (resources_poolsInRange g); [|exact Hin].
    apply updateLasers_l1431_from_resources.
  - rewrite updateLanders_l1441_state. exact Hin.
  - apply (resources_poolsInRange g); [|exact Hin].
    apply updateAstronauts_l1456_from_resources.
  - destruct (update_cases currentTime later rnd g) as [-> | [-> | ->]];
      [exact Hin | |];
      apply (resources_poolsInRange
               (update_energy (update_spawn currentTime rnd g)));
      try (apply update_energy_poolsInRange;
           apply (resources_poolsInRange g); [|exact Hin];
           unfold update_spawn;
           destruct (landerSpawnInterval g <? currentTime - lastLanderSpawn g)%Z;
           reflexivity).
    + rewrite updateDifficulty_resources, updateAstronauts_l1456_resources,
        updateLasers_l1431_resources.
      reflexivity.
    + change (resources (set_isRunning false ?x)) with (resources x).
      apply updateLasers_l1431_resources.
Qed.

Lemma reachable_poolsInRange (g : Game) : reachable g -> poolsInRange g.
Proof.
  induction 1 as [now crew | g g' _ IH Hstep].
  - unfold poolsInRange. cbn. repeat split; discriminate.
  - exact (step_poolsInRange g g' Hstep IH).
Qed.

(** C1. In every reachable state, and so after every step taken from one
    (a tick of [update] with its energy recharge, [updateMovement] with
    its thruster drain, a lander scan with its damage, a shot), the health
    lies between 0 and [maxHealth] and the energy between 0 and
    [maxEnergy]. *)
Theorem health_energy_within_bounds (g g' : Game) :
  reachable g -> step g g' ->
  (0 <= health g' <= maxHealth g')%Q /\ (0 <= energy g' <= maxEnergy g')%Q.
Proof.
  intros Hreach Hstep.
  destruct (step_poolsInRange g g' Hstep (reachable_poolsInRange g Hreach))
    as (Hmh & Hme & _ & _ & Hh & He).
  rewrite Hmh, Hme. split; assumption.
Qed.

End Reach.

Lemma health_energy_within_bounds_witness :
  @reachable proximityEngine (start 0 (initializeGameProperties 0 []))
  /\ @step proximityEngine (start 0 (initializeGameProperties 0 []))
       (update 3001 3002 (1 / 2) (start 0 (initializeGameProperties 0 [])))
  /\ (0 <= health (update 3001 3002 (1 / 2)
                     (start 0 (initializeGameProperties 0 [])))
       <= maxHealth (update 3001 3002 (1 / 2)
                       (start 0 (initializeGameProperties 0 []))))%Q
  /\ (0 <= energy (update 3001 3002 (1 / 2)
                     (start 0 (initializeGameProperties 0 [])))
       <= maxEnergy (update 3001 3002 (1 / 2)
                       (start 0 (initializeGameProperties 0 []))))%Q.
Proof.
  assert (Hreach : @reachable proximityEngine
                     (start 0 (initializeGameProperties 0 []))).
  { apply (reachable_step (initializeGameProperties 0 [])).
    - apply reachable_init.
    - apply step_start. }
  assert (Hstep : @step proximityEngine
                    (start 0 (initializeGameProperties 0 []))
                    (update 3001 3002 (1 / 2)
                       (start 0 (initializeGameProperties 0 [])))).
  { apply step_update. lra. }
  split; [exact Hreach|]. split; [exact Hstep|].
  exact (health_energy_within_bounds _ _ Hreach Hstep).
Defined.

(** * Further properties *)

(** ** Loops that remove while they iterate *)

Lemma updateLasers_l1431_from_filter (i : nat) :
  forall g : Game,
  i <= length (lasers g) ->
  updateLasers_l1431_from i g
  = set_lasers (List.filter laserInBounds (take i (lasers g))
                ++ drop i (lasers g)) g.
Proof.
  induction i as [|i IH]; intros g Hlen.
  - cbn. rewrite drop_0. destruct g; reflexivity.
  - cbn [updateLasers_l1431_from].
    destruct (lookup_lt_is_Some_2 (lasers g) i ltac:(lia)) as (laser & Hlaser).
    rewrite Hlaser.
    pose proof (splice_step (fun x => x) laserInBounds (lasers g) i laser Hlaser)
      as Hsplice.
    rewrite map_id, (list_insert_id _ _ _ Hlaser) in Hsplice.
    rewrite (map_id (take (S i) (lasers g))) in Hsplice.
    rewrite <- Hsplice.
    assert (Hbody :
      (if Rgt_dec (vy (laser_position laser)) 1000
       then set_lasers (delete i (lasers g)) g
       else if Rlt_dec (vy (laser_position laser)) (-1000)
            then set_lasers (delete i (lasers g)) g
            else g)
      = if laserInBounds laser then g
        else set_lasers (delete i (lasers g)) g).
    { unfold laserInBounds.
      destruct (Rgt_dec (vy (laser_position laser)) 1000); [reflexivity|].
      destruct (Rlt_dec (vy (laser_position laser)) (-1000)); reflexivity. }
    rewrite Hbody.
    pose proof (lookup_lt_Some _ _ _ Hlaser) as Hlt.
    destruct (laserInBounds laser); rewrite IH; cbn; try reflexivity;
      rewrite ?length_delete by (eexists; exact Hlaser); lia.
Qed.

(** X1. The second [updateLasers] keeps exactly the lasers whose height is
    within [-1000, 1000], in order, and touches nothing else: removing
    while iterating from the end skips no laser. *)
Theorem updateLasers_l1431_keeps_in_bounds (g : Game) :
  updateLasers_l1431 g = set_lasers (List.filter laserInBounds (lasers g)) g.
Proof.
  unfold updateLasers_l1431.
  rewrite updateLasers_l1431_from_filter by lia.
  rewrite firstn_all, drop_all, app_nil_r. reflexivity.
Qed.

Lemma astronautInBounds_false (astronaut : Astronaut) :
  (vy (astronaut_position astronaut) < -100)%R ->
  astronautInBounds astronaut = false.
Proof.
  intros Hlow. unfold astronautInBounds.
  destruct (Rlt_dec _ (-100)); [reflexivity | contradiction].
Qed.

Lemma astronautInBounds_true (astronaut : Astronaut) :
  ~ (vy (astronaut_position astronaut) < -100)%R ->
  astronautInBounds astronaut = true.
Proof.
  intros Hok. unfold astronautInBounds.
  destruct (Rlt_dec _ (-100)); [contradiction | reflexivity].
Qed.

Lemma filter_length_le {A : Type} (keep : A -> bool) (l : list A) :
  length (List.filter keep l) <= length l.
Proof.
  induction l as [|x l IH]; cbn; [lia|].
  destruct (keep x); cbn; lia.
Qed.

Lemma updateAstronauts_l1456_from_filter (i : nat) :
  forall g : Game,
  i <= length (astronauts g) ->
  astronauts (updateAstronauts_l1456_from i g)
  = List.filter astronautInBounds
      (map (lowerAstronaut (Q2R (gameSpeed g * (3 # 10))))
           (take i (astronauts g)))
    ++ drop i (astronauts g)
  /\ (score (updateAstronauts_l1456_from i g)
      = score g
        - 50 * (Z.of_nat (length (astronauts g))
                - Z.of_nat (length (astronauts
                                      (updateAstronauts_l1456_from i g)))))%Z
  /\ lasers (updateAstronauts_l1456_from i g) = lasers g
  /\ landers (updateAstronauts_l1456_from i g) = landers g
  /\ astronautsSaved (updateAstronauts_l1456_from i g) = astronautsSaved g
  /\ landersDestroyed (updateAstronauts_l1456_from i g) = landersDestroyed g.
Proof.
  induction i as [|i IH]; intros g Hlen.
  - cbn. rewrite drop_0. repeat split. lia.
  - cbn [updateAstronauts_l1456_from].
    destruct (lookup_lt_is_Some_2 (astronauts g) i ltac:(lia)) as (a & Ha).
    rewrite Ha. cbn [astronauts set_astronauts].
    pose proof (lookup_lt_Some _ _ _ Ha) as Hlt.
    rewrite <- (splice_step (lowerAstronaut (Q2R (gameSpeed g * (3 # 10))))
                  astronautInBounds (astronauts g) i a Ha).
    set (a' := lowerAstronaut (Q2R (gameSpeed g * (3 # 10))) a) in *.
    assert (Hins : is_Some (<[i:=a']> (astronauts g) !! i))
      by (apply lookup_lt_is_Some; rewrite length_insert; lia).
    destruct (Rlt_dec (vy (astronaut_position a')) (-100)) as [Hlow|Hok];
      [rewrite (astronautInBounds_false _ Hlow)
      |rewrite (astronautInBounds_true _ Hok)];
      match goal with
      | |- context [updateAstronauts_l1456_from i ?g2] =>
          set (g2' := g2);
          assert (Hlen2 : i <= length (astronauts g2'))
            by (subst g2'; cbn; rewrite ?length_delete, ?length_insert by exact Hins; lia);
          destruct (IH g2' Hlen2) as (Hast & Hscore & Hlas & Hlan & Hsav & Hdes)
      end;
      rewrite Hscore, Hlas, Hlan, Hsav, Hdes, !Hast; subst g2'; cbn;
      rewrite ?length_app, ?length_delete, ?length_insert by exact Hins;
      repeat split; lia.
Qed.

(** X3. The second [updateAstronauts] lowers every astronaut by 0.3 times
    the game speed, keeps exactly those still at height -100 or above, in
    order, and takes 50 points off the score for each one it removes; the
    lasers, the landers and both counters are as they were. *)
Theorem updateAstronauts_l1456_penalty (g : Game) :
  astronauts (updateAstronauts_l1456 g)
  = List.filter astronautInBounds
      (map (lowerAstronaut (Q2R (gameSpeed g * (3 # 10)))) (astronauts g))
  /\ (score (updateAstronauts_l1456 g)
      = score g
        - 50 * (Z.of_nat (length (astronauts g))
                - Z.of_nat (length (astronauts (updateAstronauts_l1456 g)))))%Z
  /\ length (astronauts (updateAstronauts_l1456 g)) <= length (astronauts g)
  /\ lasers (updateAstronauts_l1456 g) = lasers g
  /\ landers (updateAstronauts_l1456 g) = landers g
  /\ astronautsSaved (updateAstronauts_l1456 g) = astronautsSaved g
  /\ landersDestroyed (updateAstronauts_l1456 g) = landersDestroyed g.
Proof.
  unfold updateAstronauts_l1456.
  destruct (updateAstronauts_l1456_from_filter (length (astronauts g)) g
              ltac:(lia)) as (Hast & Hscore & Hrest).
  rewrite firstn_all, drop_all, app_nil_r in Hast.
  split; [exact Hast|]. split; [exact Hscore|]. split; [|exact Hrest].
  rewrite Hast. etransitivity; [apply filter_length_le|].
  rewrite length_map. lia.
Qed.

Lemma scanDown_all_false {A : Type} (hit : A -> bool) (xs : list A) (j : nat) :
  (forall k x, xs !! k = Some x -> hit x = false) ->
  scanDown hit xs j = None.
Proof.
  intros Hall. induction j as [|j IH]; cbn; [reflexivity|].
  destruct (xs !! j) as [x|] eqn:Hx; [|reflexivity].
  rewrite (Hall j x Hx). exact IH.
Qed.

Section Flight.
Context `{Engine}.

Lemma updateLasers_from_no_hit (i : nat) :
  forall g : Game,
  i <= length (lasers g) ->
  (forall k laser j lander,
     k < i -> lasers g !! k = Some laser -> landers g !! j = Some lander ->
     laserIntersects (moveLaser (laserSpeed g) laser) lander = false) ->
  updateLasers_from i g
  = set_lasers
      (List.filter (laserInRange (cameraPosition g))
         (map (moveLaser (laserSpeed g)) (take i (lasers g)))
       ++ drop i (lasers g)) g.
Proof.
  induction i as [|i IH]; intros g Hlen Hmiss.
  - cbn. rewrite drop_0. destruct g; reflexivity.
  - cbn [updateLasers_from].
    destruct (lookup_lt_is_Some_2 (lasers g) i ltac:(lia)) as (laser & Hl).
    rewrite Hl. cbn [landers set_lasers lasers cameraPosition].
    pose proof (lookup_lt_Some _ _ _ Hl) as Hlt.
    rewrite scanDown_all_false
      by (intros j lander Hj; apply (Hmiss i laser j lander); [lia|assumption..]).
    rewrite <- (splice_step (moveLaser (laserSpeed g))
                  (laserInRange (cameraPosition g)) (lasers g) i laser Hl).
    set (laser' := moveLaser (laserSpeed g) laser) in *.
    assert (Hins : is_Some (<[i:=laser']> (lasers g) !! i))
      by (apply lookup_lt_is_Some; rewrite length_insert; lia).
    destruct (Rgt_dec (Distance (laser_position laser') (cameraPosition g)) 500)
      as [Hfar|Hnear];
      [rewrite (laserInRange_false _ _ Hfar)
      |rewrite (laserInRange_true _ _ Hnear)];
      rewrite IH; cbn; try reflexivity;
      rewrite ?length_delete, ?length_insert by exact Hins; try lia;
      intros k laser0 j lander Hk Hlk Hlj;
      apply (Hmiss k laser0 j lander); try assumption; try lia;
      rewrite ?list_lookup_delete_lt, ?list_lookup_insert_ne in Hlk by lia;
      exact Hlk.
Qed.

(** X4. When no laser, once moved, intersects a lander, the first
    [updateLasers] advances every laser by [laserSpeed] along its
    direction and keeps exactly those within 500 of the camera, in order;
    nothing else changes (no score, no lander lost). *)
Theorem updateLasers_flight (g : Game) :
  (forall k laser j lander,
     lasers g !! k = Some laser -> landers g !! j = Some lander ->
     laserIntersects (moveLaser (laserSpeed g) laser) lander = false) ->
  updateLasers g
  = set_lasers
      (List.filter (laserInRange (cameraPosition g))
         (map (moveLaser (laserSpeed g)) (lasers g))) g.
Proof.
  intros Hmiss. unfold updateLasers.
  rewrite updateLasers_from_no_hit; [|lia|].
  - rewrite firstn_all, drop_all, app_nil_r. reflexivity.
  - intros k laser j lander _. apply Hmiss.
Qed.

End Flight.

Lemma updateLasers_flight_witness :
  (forall k laser j lander,
     lasers (shootLaser Vforward (initializeGameProperties 0 [])) !! k
       = Some laser ->
     landers (shootLaser Vforward (initializeGameProperties 0 [])) !! j
       = Some lander ->
     @laserIntersects proximityEngine
       (moveLaser (laserSpeed (shootLaser Vforward (initializeGameProperties 0 [])))
                  laser) lander = false)
  /\ lasers (@updateLasers proximityEngine
               (shootLaser Vforward (initializeGameProperties 0 [])))
     = List.filter (laserInRange (mkV 0 10 (-8)))
         [moveLaser 2 (mkLaser (mkV 0 10 (-8)) Vforward)].
Proof.
  assert (Hmiss : forall k laser j lander,
     lasers (shootLaser Vforward (initializeGameProperties 0 [])) !! k
       = Some laser ->
     landers (shootLaser Vforward (initializeGameProperties 0 [])) !! j
       = Some lander ->
     @laserIntersects proximityEngine
       (moveLaser (laserSpeed (shootLaser Vforward (initializeGameProperties 0 [])))
                  laser) lander = false).
  { intros k laser j lander _ Hj. destruct j; discriminate Hj. }
  split; [exact Hmiss|].
  rewrite (@updateLasers_flight proximityEngine _ Hmiss). reflexivity.
Defined.

(** ** The distance-threshold pass *)

(** X5. [checkCollisions] never removes or scores anything.  Its threshold
    test reads [lander.position], which a lander does not have: with a
    laser and a lander on the field the first test raises, and the method
    returns only when there is no laser or no lander, having had nothing
    to test.  Either way the game is left as it was. *)
Theorem checkCollisions_changes_nothing (g : Game) :
  stateOf (checkCollisions g) = g
  /\ (lasers g = [] \/ landers g = [] -> checkCollisions g = Returns g)
  /\ (lasers g <> [] -> landers g <> [] -> checkCollisions g = Throws g).
Proof.
  split; [apply checkCollisions_from_state|]. split.
  - intros [Hnone|Hnone].
    + unfold checkCollisions. rewrite Hnone. reflexivity.
    + apply checkCollisions_from_no_landers. exact Hnone.
  - intros Hlasers Hlanders. unfold checkCollisions.
    destruct (length (lasers g)) as [|i] eqn:Hi.
    { destruct (lasers g); [contradiction | discriminate]. }
    cbn [checkCollisions_from].
    destruct (lookup_lt_is_Some_2 (lasers g) i ltac:(lia)) as (laser & ->).
    destruct (length (landers g)) as [|j] eqn:Hj.
    { destruct (landers g); [contradiction | discriminate]. }
    cbn [checkCollisions_scan].
    destruct (lookup_lt_is_Some_2 (landers g) j ltac:(lia)) as (lander & ->).
    reflexivity.
Qed.

Lemma checkCollisions_changes_nothing_witness :
  lasers duelGame <> [] /\ landers duelGame <> []
  /\ checkCollisions duelGame = Throws duelGame.
Proof.
  assert (Hlasers : lasers duelGame <> []) by discriminate.
  assert (Hlanders : landers duelGame <> []) by discriminate.
  split; [exact Hlasers|]. split; [exact Hlanders|].
  exact (proj2 (proj2 (checkCollisions_changes_nothing duelGame))
               Hlasers Hlanders).
Defined.

(** ** The tick stops at the first lander *)

Lemma updateLasers_l1431_from_flags (i : nat) :
  forall g : Game,
  (astronauts (updateLasers_l1431_from i g), score (updateLasers_l1431_from i g),
   isRunning (updateLasers_l1431_from i g),
   isGameOver (updateLasers_l1431_from i g),
   (difficulty (updateLasers_l1431_from i g),
    gameSpeed (updateLasers_l1431_from i g),
    landerSpawnInterval (updateLasers_l1431_from i g),
    maxEnemies (updateLasers_l1431_from i g)))
  = (astronauts g, score g, isRunning g, isGameOver g,
     (difficulty g, gameSpeed g, landerSpawnInterval g, maxEnemies g)).
Proof.
  induction i as [|i IH]; intros g; cbn [updateLasers_l1431_from];
    [reflexivity | loop_frame IH].
Qed.

Lemma updateAstronauts_l1456_from_flags (i : nat) :
  forall g : Game,
  (isRunning (updateAstronauts_l1456_from i g),
   isGameOver (updateAstronauts_l1456_from i g))
  = (isRunning g, isGameOver g).
Proof.
  induction i as [|i IH]; intros g; cbn [updateAstronauts_l1456_from];
    [reflexivity | loop_frame IH].
Qed.

(** Before it reaches the second [updateLanders], a tick has changed the
    landers, the spawn time, the energy and the lasers, and nothing
    else. *)
Lemma update_head_flags (currentTime : Z) (rnd : R) (g : Game) :
  (astronauts (updateLasers_l1431 (update_energy (update_spawn currentTime rnd g))),
   score (updateLasers_l1431 (update_energy (update_spawn currentTime rnd g))),
   isRunning (updateLasers_l1431 (update_energy (update_spawn currentTime rnd g))),
   isGameOver (updateLasers_l1431 (update_energy (update_spawn currentTime rnd g))),
   (difficulty (updateLasers_l1431 (update_energy (update_spawn currentTime rnd g))),
    gameSpeed (updateLasers_l1431 (update_energy (update_spawn currentTime rnd g))),
    landerSpawnInterval
      (updateLasers_l1431 (update_energy (update_spawn currentTime rnd g))),
    maxEnemies
      (updateLasers_l1431 (update_energy (update_spawn currentTime rnd g)))))
  = (astronauts g, score g, isRunning g, isGameOver g,
     (difficulty g, gameSpeed g, landerSpawnInterval g, maxEnemies g)).
Proof.
  unfold updateLasers_l1431. rewrite updateLasers_l1431_from_flags.
  unfold update_energy, update_spawn.
  destruct (landerSpawnInterval g <? currentTime - lastLanderSpawn g)%Z;
    match goal with
    | |- context [Qlt_bool ?a ?b] => destruct (Qlt_bool a b)
    end; reflexivity.
Qed.

(** X2. The second [updateLanders], the one [update] runs, reads
    [lander.position.y] on a lander, which has no [position]: with a
    lander on the field it raises at the first one it visits and changes
    nothing, and it returns only when there is no lander.  So a tick that
    has a lander on the field once the spawn timer has run is cut short
    there: the [catch] of [update] clears [isRunning], and the astronauts,
    the score and the difficulty settings are as before the tick.  A tick
    with no lander runs to its end and leaves the game running. *)
Theorem update_halts_on_a_lander (currentTime later : Z) (rnd : R) (g : Game) :
  (landers g = [] -> updateLanders_l1441 g = Returns g)
  /\ (landers g <> [] -> updateLanders_l1441 g = Throws g)
  /\ (isRunning g = true -> isGameOver g = false ->
      landers (update_spawn currentTime rnd g) <> [] ->
      update currentTime later rnd g
      = set_isRunning false
          (updateLasers_l1431 (update_energy (update_spawn currentTime rnd g)))
      /\ isRunning (update currentTime later rnd g) = false
      /\ astronauts (update currentTime later rnd g) = astronauts g
      /\ score (update currentTime later rnd g) = score g
      /\ difficulty (update currentTime later rnd g) = difficulty g
      /\ gameSpeed (update currentTime later rnd g) = gameSpeed g
      /\ landerSpawnInterval (update currentTime later rnd g)
         = landerSpawnInterval g)
  /\ (isRunning g = true -> isGameOver g = false ->
      landers (update_spawn currentTime rnd g) = [] ->
      update currentTime later rnd g
      = updateDifficulty later
          (updateAstronauts_l1456
             (updateLasers_l1431
                (update_energy (update_spawn currentTime rnd g))))
      /\ isRunning (update currentTime later rnd g) = true).
Proof.
  split; [apply updateLanders_l1441_empty|].
  split; [apply updateLanders_l1441_raises|].
  pose proof (update_head_flags currentTime rnd g) as Hflags.
  injection Hflags as Ha Hs Hr Ho Hd Hg Hi _.
  split.
  - intros Hrun Hover Hsome.
    rewrite (update_aborts _ _ _ _ Hrun Hover Hsome).
    cbn [isRunning astronauts score difficulty gameSpeed landerSpawnInterval
         set_isRunning].
    repeat split; assumption.
  - intros Hrun Hover Hnone.
    rewrite (update_completes _ _ _ _ Hrun Hover Hnone).
    split; [reflexivity|].
    change (isRunning (updateDifficulty later ?x)) with (isRunning x).
    unfold updateAstronauts_l1456.
    pose proof (updateAstronauts_l1456_from_flags
                  (length (astronauts
                     (updateLasers_l1431
                        (update_energy (update_spawn currentTime rnd g)))))
                  (updateLasers_l1431
                     (update_energy (update_spawn currentTime rnd g)))) as Hf.
    injection Hf as Hf _. rewrite Hf, Hr. exact Hrun.
Qed.

Lemma update_halts_on_a_lander_witness :
  landers duelGame <> []
  /\ updateLanders_l1441 duelGame = Throws duelGame.
Proof.
  assert (Hlanders : landers duelGame <> []) by discriminate.
  split; [exact Hlanders|].
  exact (proj1 (proj2 (update_halts_on_a_lander 0 0 0 duelGame)) Hlanders).
Defined.

Lemma update_spawn_keeps_landers (currentTime : Z) (rnd : R) (g : Game) :
  landers g <> [] -> landers (update_spawn currentTime rnd g) <> [].
Proof.
  intros Hsome. unfold update_spawn.
  destruct (landerSpawnInterval g <? currentTime - lastLanderSpawn g)%Z;
    [|exact Hsome].
  cbn. destruct (landers g); [contradiction | discriminate].
Qed.

Lemma update_spawn_due (currentTime : Z) (rnd : R) (g : Game) :
  (currentTime - lastLanderSpawn g > landerSpawnInterval g)%Z ->
  landers (update_spawn currentTime rnd g) <> [].
Proof.
  intros Hdue. unfold update_spawn.
  assert (Hb : (landerSpawnInterval g <? currentTime - lastLanderSpawn g)%Z
               = true) by (apply Z.ltb_lt; lia).
  rewrite Hb. cbn. destruct (landers g); discriminate.
Qed.

(** X6. The game does not get past its first lander.  A tick of a running
    game in which the spawn timer is due, or which finds a lander on the
    field, stops the game: [isRunning] is cleared (the game is not over),
    the landers are still there, every further tick returns at once, and
    after a [resume] the next tick stops the game again. *)
Theorem first_lander_stops_the_game (currentTime later : Z) (rnd : R)
    (g : Game) :
  isRunning g = true -> isGameOver g = false ->
  (currentTime - lastLanderSpawn g > landerSpawnInterval g)%Z
  \/ landers g <> [] ->
  isRunning (update currentTime later rnd g) = false
  /\ isGameOver (update currentTime later rnd g) = false
  /\ landers (update currentTime later rnd g)
     = landers (update_spawn currentTime rnd g)
  /\ landers (update currentTime later rnd g) <> []
  /\ (forall (currentTime' later' : Z) (rnd' : R),
        update currentTime' later' rnd' (update currentTime later rnd g)
        = update currentTime later rnd g)
  /\ (forall (currentTime' later' : Z) (rnd' : R),
        isRunning (update currentTime' later' rnd'
                     (resume (update currentTime later rnd g))) = false).
Proof.
  intros Hrun Hover Hcause.
  assert (Hsome : landers (update_spawn currentTime rnd g) <> []).
  { destruct Hcause as [Hdue|Hsome];
      [apply update_spawn_due | apply update_spawn_keeps_landers]; assumption. }
  pose proof (update_head_flags currentTime rnd g) as Hflags.
  injection Hflags as _ _ _ Ho _ _ _ _.
  pose proof (update_head_fleet currentTime rnd g) as Hfleet.
  injection Hfleet as Hl _.
  pose proof (update_aborts currentTime later rnd g Hrun Hover Hsome) as Hhalt.
  assert (Hstop : isRunning (update currentTime later rnd g) = false)
    by (rewrite Hhalt; reflexivity).
  assert (Hnot : isGameOver (update currentTime later rnd g) = false)
    by (rewrite Hhalt; cbn [isGameOver set_isRunning]; congruence).
  assert (Hsame : landers (update currentTime later rnd g)
                  = landers (update_spawn currentTime rnd g))
    by (rewrite Hhalt; cbn [landers set_isRunning]; exact Hl).
  split; [exact Hstop|]. split; [exact Hnot|]. split; [exact Hsame|].
  split; [rewrite Hsame; exact Hsome|]. split.
  - intros currentTime' later' rnd'. apply update_halted. left. exact Hstop.
  - intros currentTime' later' rnd'.
    rewrite update_aborts; [reflexivity | reflexivity | exact Hnot |].
    apply update_spawn_keeps_landers.
    change (landers (resume ?x)) with (landers x).
    rewrite Hsame. exact Hsome.
Qed.

Lemma first_lander_stops_the_game_witness :
  isRunning (start 0 (initializeGameProperties 0 [])) = true
  /\ isGameOver (start 0 (initializeGameProperties 0 [])) = false
  /\ ((3001 - lastLanderSpawn (start 0 (initializeGameProperties 0 []))
       > landerSpawnInterval (start 0 (initializeGameProperties 0 [])))%Z
      \/ landers (start 0 (initializeGameProperties 0 [])) <> [])
  /\ isRunning (update 3001 3002 (1 / 2)
                  (start 0 (initializeGameProperties 0 []))) = false.
Proof.
  assert (Hdue : (3001 - lastLanderSpawn (start 0 (initializeGameProperties 0 []))
                  > landerSpawnInterval (start 0 (initializeGameProperties 0 [])))%Z
                 \/ landers (start 0 (initializeGameProperties 0 [])) <> [])
    by (left; reflexivity).
  split; [reflexivity|]. split; [reflexivity|]. split; [exact Hdue|].
  exact (proj1 (first_lander_stops_the_game 3001 3002 (1 / 2)
                  (start 0 (initializeGameProperties 0 []))
                  eq_refl eq_refl Hdue)).
Defined.

(** ** What a tick leaves alone *)

Lemma updateLasers_l1431_from_beside (i : nat) :
  forall g : Game, besideTheTick (updateLasers_l1431_from i g) = besideTheTick g.
Proof.
  induction i as [|i IH]; intros g; cbn [updateLasers_l1431_from];
    [reflexivity | loop_frame IH].
Qed.

Lemma updateAstronauts_l1456_from_beside (i : nat) :
  forall g : Game,
  besideTheTick (updateAstronauts_l1456_from i g) = besideTheTick g.
Proof.
  induction i as [|i IH]; intros g; cbn [updateAstronauts_l1456_from];
    [reflexivity | loop_frame IH].
Qed.

Lemma update_head_beside (currentTime : Z) (rnd : R) (g : Game) :
  besideTheTick (update_energy (update_spawn currentTime rnd g))
  = besideTheTick g.
Proof.
  unfold update_energy, update_spawn.
  destruct (landerSpawnInterval g <? currentTime - lastLanderSpawn g)%Z;
    match goal with
    | |- context [Qlt_bool ?a ?b] => destruct (Qlt_bool a b)
    end; reflexivity.
Qed.

(** X8. A tick of [update] never changes the health, the game-over flag,
    the two counters, the mission clock, the camera or the number of
    game-over screens: no damage is dealt, no kill or rescue is counted
    and the game cannot end inside a tick, whether the tick runs to its
    end or is cut short.  A tick never sets [isRunning], and the energy
    after a tick that runs is the recharged one. *)
Theorem update_leaves_health_and_counters (currentTime later : Z) (rnd : R)
    (g : Game) :
  besideTheTick (update currentTime later rnd g) = besideTheTick g
  /\ (isRunning (update currentTime later rnd g) = true -> isRunning g = true)
  /\ (isRunning g = true -> isGameOver g = false ->
      energy (update currentTime later rnd g) = energy (update_energy g)).
Proof.
  assert (Hhead : besideTheTick
                    (updateLasers_l1431
                       (update_energy (update_spawn currentTime rnd g)))
                  = besideTheTick g).
  { unfold updateLasers_l1431. rewrite updateLasers_l1431_from_beside.
    apply update_head_beside. }
  assert (Henergy : energy (updateLasers_l1431
                              (update_energy (update_spawn currentTime rnd g)))
                    = energy (update_energy g)).
  { pose proof (f_equal (fun r => snd (fst (fst (fst r))))
                  (updateLasers_l1431_resources
                     (update_energy (update_spawn currentTime rnd g)))) as He.
    cbn [resources fst snd] in He. rewrite He.
    unfold update_energy, update_spawn.
    destruct (landerSpawnInterval g <? currentTime - lastLanderSpawn g)%Z;
      cbn [energy maxEnergy energyRechargeRate set_lastLanderSpawn spawnLander
           set_landers];
      destruct (Qlt_bool (energy g) (maxEnergy g)); reflexivity. }
  split; [|split].
  - destruct (update_cases currentTime later rnd g) as [-> | [-> | ->]].
    + reflexivity.
    + change (besideTheTick (updateDifficulty later ?x)) with (besideTheTick x).
      unfold updateAstronauts_l1456.
      rewrite updateAstronauts_l1456_from_beside. exact Hhead.
    + change (besideTheTick (set_isRunning false ?x)) with (besideTheTick x).
      exact Hhead.
  - destruct (isRunning g) eqn:Hrun; [reflexivity|].
    rewrite update_halted by (left; exact Hrun). rewrite Hrun. discriminate.
  - intros Hrun Hover.
    destruct (landers (update_spawn currentTime rnd g)) eqn:Hl.
    + rewrite (update_completes _ _ _ _ Hrun Hover Hl).
      change (energy (updateDifficulty later ?x)) with (energy x).
      pose proof (f_equal (fun r => snd (fst (fst (fst r))))
                    (updateAstronauts_l1456_resources
                       (updateLasers_l1431
                          (update_energy (update_spawn currentTime rnd g)))))
        as He.
      cbn [resources fst snd] in He. rewrite He. exact Henergy.
    + rewrite update_aborts by (try assumption; rewrite Hl; discriminate).
      exact Henergy.
Qed.

Lemma update_leaves_health_and_counters_witness :
  isRunning (start 0 (initializeGameProperties 0 [])) = true
  /\ isGameOver (start 0 (initializeGameProperties 0 [])) = false
  /\ energy (update 3001 3002 (1 / 2) (start 0 (initializeGameProperties 0 [])))
     = energy (update_energy (start 0 (initializeGameProperties 0 []))).
Proof.
  split; [reflexivity|]. split; [reflexivity|].
  exact (proj2 (proj2 (update_leaves_health_and_counters 3001 3002 (1 / 2)
                         (start 0 (initializeGameProperties 0 []))))
               eq_refl eq_refl).
Defined.

(** X9. A hit that takes the health to 0 ends the game, and from then on
    every tick returns the state as it is: nothing spawns, recharges,
    moves or scores. *)
Theorem lethal_hit_freezes_the_tick (amount : Q) (g : Game) :
  isGameOver g = false -> (health g <= amount)%Q ->
  isGameOver (takeDamage amount g) = true
  /\ (health (takeDamage amount g) == 0)%Q
  /\ forall (currentTime later : Z) (rnd : R),
       update currentTime later rnd (takeDamage amount g)
       = takeDamage amount g.
Proof.
  intros Hover Hle.
  assert (Hzero : (health (takeDamage amount g) == 0)%Q).
  { rewrite takeDamage_health. apply Q.max_l. lra. }
  destruct (takeDamage_gameOver amount g) as (_ & Hfire & _).
  destruct (Hfire Hover ltac:(lra)) as (Ho & _).
  split; [exact Ho|]. split; [exact Hzero|].
  intros currentTime later rnd. apply update_halted. right. exact Ho.
Qed.

Lemma lethal_hit_freezes_the_tick_witness :
  isGameOver (start 0 (initializeGameProperties 0 [])) = false
  /\ (health (start 0 (initializeGameProperties 0 [])) <= 120)%Q
  /\ update 5000 5001 (1 / 2)
       (takeDamage 120 (start 0 (initializeGameProperties 0 [])))
     = takeDamage 120 (start 0 (initializeGameProperties 0 [])).
Proof.
  assert (Hle : (health (start 0 (initializeGameProperties 0 [])) <= 120)%Q)
    by discriminate.
  split; [reflexivity|]. split; [exact Hle|].
  destruct (lethal_hit_freezes_the_tick 120
              (start 0 (initializeGameProperties 0 [])) eq_refl Hle)
    as (_ & _ & Hfix).
  apply Hfix.
Defined.

(** ** Firing from the keyboard *)

(** X10. The space bar fires at most once per cooldown: after a [keydown]
    with code Space the game cannot shoot, whether or not that key press
    fired, so a second one adds no laser and costs no energy; once the
    cooldown timer has run, a key press fires as [shootLaser] does.  A key
    press with another code never fires. *)
Theorem keydown_fires_once_per_cooldown (key1 key2 code : string)
    (forward1 forward2 : Vector3) (g : Game) :
  canShoot (keydown key1 "Space" forward1 g) = false
  /\ lasers (keydown key2 "Space" forward2 (keydown key1 "Space" forward1 g))
     = lasers (keydown key1 "Space" forward1 g)
  /\ energy (keydown key2 "Space" forward2 (keydown key1 "Space" forward1 g))
     = energy (keydown key1 "Space" forward1 g)
  /\ lasers (keydown key2 "Space" forward2
               (cooldownElapsed (keydown key1 "Space" forward1 g)))
     = lasers (shootLaser forward2 (keydown key1 "Space" forward1 g))
  /\ (String.eqb code "Space" = false ->
      lasers (keydown key1 code forward1 g) = lasers g
      /\ energy (keydown key1 code forward1 g) = energy g
      /\ canShoot (keydown key1 code forward1 g) = canShoot g).
Proof.
  assert (Hoff : forall k f g0, canShoot (keydown k "Space" f g0) = false).
  { intros k f g0. unfold keydown. cbn [String.eqb Ascii.eqb Bool.eqb andb].
    change (canShoot (setKey k true g0)) with (canShoot g0).
    destruct (canShoot g0) eqn:Hc; cbn; [reflexivity | exact Hc]. }
  split; [apply Hoff|].
  assert (Hsecond : forall g1, canShoot g1 = false ->
            keydown key2 "Space" forward2 g1 = setKey key2 true g1).
  { intros g1 Hc. unfold keydown. cbn [String.eqb Ascii.eqb Bool.eqb andb].
    change (canShoot (setKey key2 true g1)) with (canShoot g1).
    rewrite Hc. reflexivity. }
  rewrite (Hsecond _ (Hoff key1 forward1 g)).
  split; [reflexivity|]. split; [reflexivity|]. split.
  - unfold keydown at 1. cbn [String.eqb Ascii.eqb Bool.eqb andb].
    cbn [canShoot setKey set_keys cooldownElapsed set_canShoot].
    unfold shootLaser. cbn.
    destruct (Qle_bool _ _); reflexivity.
  - intros Hcode. unfold keydown. rewrite Hcode. cbn. repeat split.
Qed.

Lemma keydown_fires_once_per_cooldown_witness :
  String.eqb "KeyW" "Space" = false
  /\ lasers (keydown "w" "KeyW" Vforward (initializeGameProperties 0 [])) = []
  /\ length (lasers (keydown " " "Space" Vforward
                       (keydown " " "Space" Vforward
                          (initializeGameProperties 0 [])))) = 1.
Proof.
  destruct (keydown_fires_once_per_cooldown "w" " " "KeyW" Vforward Vforward
              (initializeGameProperties 0 [])) as (_ & _ & _ & _ & Hother).
  destruct (keydown_fires_once_per_cooldown " " " " "Space" Vforward Vforward
              (initializeGameProperties 0 [])) as (_ & Hsecond & _).
  split; [reflexivity|]. split.
  - exact (proj1 (Hother eq_refl)).
  - rewrite Hsecond. reflexivity.
Defined.

(** ** Pausing and starting *)

(** X11. For a running game, [resume] undoes [pause]; while paused every
    tick returns the state as it is; and pausing does not stop the mission
    clock, which is read off the wall clock: the elapsed time, and with it
    the difficulty the next tick sets, is the same with or without the
    pause. *)
Theorem pause_resume_round_trip (g : Game) :
  (isRunning g = true -> resume (pause g) = g)
  /\ (forall (currentTime later : Z) (rnd : R),
        update currentTime later rnd (pause g) = pause g)
  /\ (forall now : Z,
        timePlayed now (resume (pause g)) = timePlayed now g
        /\ difficulty (updateDifficulty now (resume (pause g)))
           = difficulty (updateDifficulty now g)).
Proof.
  split; [|split].
  - intros Hrun. destruct g. cbn in Hrun. subst. reflexivity.
  - intros. apply update_halted. left. reflexivity.
  - intros now. split; reflexivity.
Qed.

Lemma pause_resume_round_trip_witness :
  isRunning (start 0 (initializeGameProperties 0 [])) = true
  /\ resume (pause (start 0 (initializeGameProperties 0 [])))
     = start 0 (initializeGameProperties 0 []).
Proof.
  split; [reflexivity|].
  exact (proj1 (pause_resume_round_trip (start 0 (initializeGameProperties 0 [])))
               eq_refl).
Defined.



(** ** The difficulty curve and the mission clock *)

Lemma Qfloor_timePlayed_30 (now : Z) (g : Game) :
  Qfloor (timePlayed now g / 30) = ((now - startTime g) / 30000)%Z.
Proof.
  unfold timePlayed, Qdiv, Qmult, Qinv, inject_Z, Qfloor. cbn.
  rewrite !Z.mul_1_r. reflexivity.
Qed.

Lemma missionTime_div (now : Z) (g : Game) :
  missionTime now g = ((now - startTime g) / 1000)%Z.
Proof.
  unfold missionTime, Qdiv, Qmult, Qinv, inject_Z, Qfloor. cbn.
  rewrite Z.mul_1_r. reflexivity.
Qed.

Lemma missionMinutes_div (now : Z) (g : Game) :
  missionMinutes now g = (missionTime now g / 60)%Z.
Proof.
  unfold missionMinutes, Qdiv, Qmult, Qinv, inject_Z, Qfloor. cbn.
  rewrite Z.mul_1_r. reflexivity.
Qed.

(** X13. Once the clock is at or past the mission start, the difficulty
    controller sets a difficulty between 1 and 10, a spawn interval of
    exactly 3000 - 200 * difficulty (between 1000 and 2800: the floor of
    1000 ms is met at difficulty 10 and never cuts in), a game speed
    between 1.1 and 2 and an enemy cap between 5 and 10; the difficulty is
    10 exactly from 270 seconds on. *)
Theorem updateDifficulty_ranges (now : Z) (g : Game) :
  (startTime g <= now)%Z ->
  (1 <= difficulty (updateDifficulty now g) <= 10)%Z
  /\ landerSpawnInterval (updateDifficulty now g)
     = (3000 - 200 * difficulty (updateDifficulty now g))%Z
  /\ (1000 <= landerSpawnInterval (updateDifficulty now g) <= 2800)%Z
  /\ (11 # 10 <= gameSpeed (updateDifficulty now g) <= 2)%Q
  /\ (5 <= maxEnemies (updateDifficulty now g) <= 10)%Z
  /\ (difficulty (updateDifficulty now g) = 10%Z
      <-> (270000 <= now - startTime g)%Z).
Proof.
  intros Hnow.
  pose proof (updateDifficulty_difficulty now g) as Hd.
  rewrite Qfloor_timePlayed_30 in Hd.
  assert (Hq : (0 <= (now - startTime g) / 30000)%Z)
    by (apply Z.div_pos; lia).
  assert (Hrange : (1 <= difficulty (updateDifficulty now g) <= 10)%Z) by lia.
  assert (Hint : landerSpawnInterval (updateDifficulty now g)
                 = Z.max 1000 (3000 - difficulty (updateDifficulty now g) * 200))
    by reflexivity.
  assert (Hspeed : gameSpeed (updateDifficulty now g)
                   = (1 + inject_Z (difficulty (updateDifficulty now g))
                          * (1 # 10))%Q) by reflexivity.
  assert (Hmax : maxEnemies (updateDifficulty now g)
                 = (5 + difficulty (updateDifficulty now g) / 2)%Z).
  { unfold updateDifficulty. cbn. apply f_equal. apply Qfloor_half. }
  split; [exact Hrange|]. split; [lia|]. split; [lia|]. split.
  { rewrite Hspeed.
    assert (H1 : (inject_Z 1 <= inject_Z (difficulty (updateDifficulty now g)))%Q)
      by (rewrite <- Zle_Qle; lia).
    assert (H10 : (inject_Z (difficulty (updateDifficulty now g)) <= inject_Z 10)%Q)
      by (rewrite <- Zle_Qle; lia).
    change (inject_Z 1) with 1%Q in H1. change (inject_Z 10) with 10%Q in H10.
    lra. }
  split.
  { rewrite Hmax.
    assert (0 <= difficulty (updateDifficulty now g) / 2 <= 5)%Z.
    { split; [apply Z.div_pos; lia|].
      apply Z.div_le_upper_bound; lia. }
    lia. }
  rewrite Hd. split.
  - intros H10.
    assert (9 <= (now - startTime g) / 30000)%Z by lia.
    pose proof (Z.mul_div_le (now - startTime g) 30000 ltac:(lia)). lia.
  - intros Hlate.
    assert (9 <= (now - startTime g) / 30000)%Z
      by (apply Z.div_le_lower_bound; lia).
    lia.
Qed.

Lemma updateDifficulty_ranges_witness :
  (startTime (initializeGameProperties 1000 []) <= 400000)%Z
  /\ difficulty (updateDifficulty 400000 (initializeGameProperties 1000 []))
     = 10%Z
  /\ landerSpawnInterval
       (updateDifficulty 400000 (initializeGameProperties 1000 [])) = 1000%Z.
Proof.
  assert (Hnow : (startTime (initializeGameProperties 1000 []) <= 400000)%Z)
    by discriminate.
  destruct (updateDifficulty_ranges 400000 (initializeGameProperties 1000 [])
              Hnow) as (_ & Hint & _ & _ & _ & Hcap).
  assert (Hd : difficulty
                 (updateDifficulty 400000 (initializeGameProperties 1000 []))
               = 10%Z) by (apply Hcap; discriminate).
  split; [exact Hnow|]. split; [exact Hd|]. rewrite Hint, Hd. reflexivity.
Defined.

(** X14. The mission clock of the right display and the difficulty run on
    the same seconds: the difficulty a tick sets at an instant is
    min(10, 1 + missionTime / 30) for the whole seconds the display would
    show then.  At or past the mission start the minutes and seconds shown
    add up to the mission time and the seconds are between 0 and 59. *)
Theorem mission_clock_drives_difficulty (now : Z) (g : Game) :
  difficulty (updateDifficulty now g)
  = Z.min 10 (1 + missionTime now g / 30)
  /\ ((startTime g <= now)%Z ->
      (0 <= missionTime now g)%Z
      /\ (0 <= missionSeconds now g <= 59)%Z
      /\ (60 * missionMinutes now g + missionSeconds now g
          = missionTime now g)%Z).
Proof.
  split.
  - rewrite updateDifficulty_difficulty, Qfloor_timePlayed_30, missionTime_div.
    rewrite Z.div_div by lia. reflexivity.
  - intros Hnow. rewrite missionMinutes_div. unfold missionSeconds.
    rewrite missionTime_div.
    assert (Ht : (0 <= (now - startTime g) / 1000)%Z)
      by (apply Z.div_pos; lia).
    rewrite Z.rem_mod_nonneg by lia.
    pose proof (Z.mod_pos_bound ((now - startTime g) / 1000) 60 ltac:(lia)).
    pose proof (Z.div_mod ((now - startTime g) / 1000) 60 ltac:(lia)).
    lia.
Qed.

Lemma mission_clock_drives_difficulty_witness :
  (startTime (initializeGameProperties 0 []) <= 125999)%Z
  /\ (0 <= missionSeconds 125999 (initializeGameProperties 0 []) <= 59)%Z
  /\ (60 * missionMinutes 125999 (initializeGameProperties 0 [])
       + missionSeconds 125999 (initializeGameProperties 0 [])
       = missionTime 125999 (initializeGameProperties 0 []))%Z.
Proof.
  assert (Hnow : (startTime (initializeGameProperties 0 []) <= 125999)%Z)
    by discriminate.
  destruct (proj2 (mission_clock_drives_difficulty 125999
                     (initializeGameProperties 0 [])) Hnow)
    as (_ & Hsec & Hsum).
  split; [exact Hnow|]. split; [exact Hsec | exact Hsum].
Defined.

(** ** Spawn cadence and the crew *)

(** X15. Spawns are more than a spawn interval apart: after a spawn at
    clock reading [c1], the spawn timer does nothing at any reading [c2]
    up to [c1] plus the interval, and spawns again at any later one; one
    run of the timer adds at most one lander. *)
Theorem update_spawn_cadence (c1 c2 : Z) (r1 r2 : R) (g : Game) :
  (c1 - lastLanderSpawn g > landerSpawnInterval g)%Z ->
  ((c2 - c1 <= landerSpawnInterval g)%Z ->
   update_spawn c2 r2 (update_spawn c1 r1 g) = update_spawn c1 r1 g)
  /\ ((c2 - c1 > landerSpawnInterval g)%Z ->
      length (landers (update_spawn c2 r2 (update_spawn c1 r1 g)))
      = length (landers g) + 2
      /\ lastLanderSpawn (update_spawn c2 r2 (update_spawn c1 r1 g)) = c2)
  /\ length (landers (update_spawn c1 r1 g)) = length (landers g) + 1.
Proof.
  intros Hdue.
  assert (Hfirst : update_spawn c1 r1 g
                   = set_lastLanderSpawn c1 (spawnLander r1 g)).
  { unfold update_spawn.
    assert (Hb : (landerSpawnInterval g <? c1 - lastLanderSpawn g)%Z = true)
      by (apply Z.ltb_lt; lia).
    rewrite Hb. reflexivity. }
  rewrite Hfirst. split; [|split].
  - intros Hsoon. unfold update_spawn at 1. cbn.
    assert (Hb : (landerSpawnInterval g <? c2 - c1)%Z = false)
      by (apply Z.ltb_ge; lia).
    rewrite Hb. reflexivity.
  - intros Hlate. unfold update_spawn at 1 2. cbn.
    assert (Hb : (landerSpawnInterval g <? c2 - c1)%Z = true)
      by (apply Z.ltb_lt; lia).
    rewrite Hb. cbn. rewrite !length_app. cbn. split; [lia | reflexivity].
  - cbn. rewrite length_app. cbn. lia.
Qed.

Lemma update_spawn_cadence_witness :
  (5000 - lastLanderSpawn (initializeGameProperties 0 [])
   > landerSpawnInterval (initializeGameProperties 0 []))%Z
  /\ (8000 - 5000 <= landerSpawnInterval (initializeGameProperties 0 []))%Z
  /\ update_spawn 8000 (1 / 4)
       (update_spawn 5000 (1 / 2) (initializeGameProperties 0 []))
     = update_spawn 5000 (1 / 2) (initializeGameProperties 0 []).
Proof.
  assert (Hdue : (5000 - lastLanderSpawn (initializeGameProperties 0 [])
                  > landerSpawnInterval (initializeGameProperties 0 []))%Z)
    by reflexivity.
  assert (Hsoon : (8000 - 5000
                   <= landerSpawnInterval (initializeGameProperties 0 []))%Z)
    by discriminate.
  split; [exact Hdue|]. split; [exact Hsoon|].
  exact (proj1 (update_spawn_cadence 5000 8000 (1 / 2) (1 / 4)
                  (initializeGameProperties 0 []) Hdue) Hsoon).
Defined.

Lemma createAstronauts_from_spec (count : nat) (rnd : nat -> R) :
  forall (i : nat) (g : Game),
  (forall k, (0 <= rnd k < 1)%R) ->
  exists crew : list Astronaut,
    createAstronauts_from count i rnd g
    = set_astronauts (astronauts g ++ crew) g
    /\ length crew = count
    /\ (forall k a, crew !! k = Some a ->
          a = mkAstronaut (mkV (rnd (2 * (i + k)) * 800 - 400) 0
                               (rnd (2 * (i + k) + 1) * 800 - 400))
                          (rnd (2 * (i + k)) * 800 - 400)
                          (rnd (2 * (i + k) + 1) * 800 - 400)).
Proof.
  induction count as [|count IH]; intros i g Hrnd.
  - exists []. cbn. rewrite app_nil_r. split; [destruct g; reflexivity|].
    split; [reflexivity|]. intros k a Hk. destruct k; discriminate Hk.
  - cbn [createAstronauts_from].
    destruct (IH (S i)
                (set_astronauts
                   (astronauts g
                    ++ [mkAstronaut (mkV (rnd (2 * i) * 800 - 400) 0
                                         (rnd (2 * i + 1) * 800 - 400))
                                    (rnd (2 * i) * 800 - 400)
                                    (rnd (2 * i + 1) * 800 - 400)]) g) Hrnd)
      as (crew & Heq & Hlen & Hcrew).
    exists (mkAstronaut (mkV (rnd (2 * i) * 800 - 400) 0
                             (rnd (2 * i + 1) * 800 - 400))
                        (rnd (2 * i) * 800 - 400)
                        (rnd (2 * i + 1) * 800 - 400) :: crew).
    split; [|split].
    + rewrite Heq. cbn. rewrite <- app_assoc. reflexivity.
    + cbn. lia.
    + intros [|k] a Hk.
      * injection Hk as <-. repeat (f_equal; try lia).
      * change ((?x :: crew) !! S k) with (crew !! k) in Hk.
        rewrite (Hcrew k a Hk). repeat (f_equal; try lia).
Qed.

(** X16. [createAstronauts] adds exactly ten astronauts after those already
    there and changes nothing else.  Each stands on the ground (y = 0)
    inside the field, x and z in [-400, 400), and carries its own
    coordinates as [initialX] and [initialZ]; the [k]-th takes the random
    numbers of calls [2 k] and [2 k + 1]. *)
Theorem createAstronauts_ten_in_field (rnd : nat -> R) (g : Game) :
  (forall k, (0 <= rnd k < 1)%R) ->
  exists crew : list Astronaut,
    createAstronauts rnd g = set_astronauts (astronauts g ++ crew) g
    /\ length crew = 10
    /\ forall k a, crew !! k = Some a ->
         astronaut_position a
         = mkV (rnd (2 * k) * 800 - 400) 0 (rnd (2 * k + 1) * 800 - 400)
         /\ astronaut_initialX a = vx (astronaut_position a)
         /\ astronaut_initialZ a = vz (astronaut_position a)
         /\ (-400 <= vx (astronaut_position a) < 400)%R
         /\ (-400 <= vz (astronaut_position a) < 400)%R.
Proof.
  intros Hrnd.
  destruct (createAstronauts_from_spec 10 rnd 0 g Hrnd)
    as (crew & Heq & Hlen & Hcrew).
  exists crew. split; [exact Heq|]. split; [exact Hlen|].
  intros k a Hk. rewrite (Hcrew k a Hk). cbn.
  pose proof (Hrnd (k + (k + 0))) as H1.
  pose proof (Hrnd (k + (k + 0) + 1)) as H2.
  repeat split; lra.
Qed.

Lemma createAstronauts_ten_in_field_witness :
  (forall k : nat, (0 <= (fun _ => 1 / 2) k < 1)%R)
  /\ length (astronauts (createAstronauts (fun _ => (1 / 2)%R)
                           (initializeGameProperties 0 []))) = 10.
Proof.
  assert (Hrnd : forall k : nat, (0 <= (fun _ => 1 / 2) k < 1)%R)
    by (intros k; lra).
  split; [exact Hrnd|].
  destruct (createAstronauts_ten_in_field (fun _ => (1 / 2)%R)
              (initializeGameProperties 0 []) Hrnd) as (crew & Heq & Hlen & _).
  rewrite Heq. cbn. exact Hlen.
Defined.

(** ** The cockpit displays *)

Lemma Rle_bool_true (x y : R) : Rle_bool x y = true <-> (x <= y)%R.
Proof.
  unfold Rle_bool. destruct (Rle_dec x y); split; intros; try assumption;
    try reflexivity; try discriminate; contradiction.
Qed.

Lemma Vlength_ge_z (v : Vector3) : (Rabs (vz v) <= Vlength v)%R.
Proof.
  unfold Vlength. rewrite <- sqrt_Rsqr_abs.
  apply sqrt_le_1_alt. unfold Rsqr. nra.
Qed.

Lemma Rabs_le_between (x a : R) : (Rabs x <= a <-> - a <= x <= a)%R.
Proof. unfold Rabs. destruct (Rcase_abs x); split; intros; lra. Qed.

(** X17. The radar draws a blip exactly for what lies within 256 of the
    camera in x and within 128 in z; in particular everything within a
    distance of 128 of the camera is on the radar. *)
Theorem blipVisible_window (camera p : Vector3) :
  (blipVisible camera p = true
   <-> (Rabs (vx p - vx camera) <= 256 /\ Rabs (vz p - vz camera) <= 128)%R)
  /\ ((Distance p camera <= 128)%R -> blipVisible camera p = true).
Proof.
  assert (Hiff : blipVisible camera p = true
                 <-> (Rabs (vx p - vx camera) <= 256
                      /\ Rabs (vz p - vz camera) <= 128)%R).
  { unfold blipVisible. cbv zeta.
    rewrite !andb_true_iff, !Rle_bool_true.
    split.
    - intros (((H1 & H2) & H3) & H4). split; apply Rabs_le_between; lra.
    - intros (Hx & Hz). apply Rabs_le_between in Hx.
      apply Rabs_le_between in Hz. repeat split; lra. }
  split; [exact Hiff|].
  intros Hnear. apply Hiff.
  pose proof (Vlength_ge_x (Vsubtract p camera)) as Hx.
  pose proof (Vlength_ge_z (Vsubtract p camera)) as Hz.
  unfold Distance in Hnear. cbn [Vsubtract vx vz] in Hx, Hz.
  split; lra.
Qed.

Lemma blipVisible_window_witness :
  (Distance (mkV 0 10 (-8)) (mkV 0 10 (-8)) <= 128)%R
  /\ blipVisible (mkV 0 10 (-8)) (mkV 0 10 (-8)) = true.
Proof.
  assert (Hnear : (Distance (mkV 0 10 (-8)) (mkV 0 10 (-8)) <= 128)%R).
  { unfold Distance, Vlength. cbn.
    replace ((0 - 0) * (0 - 0) + (10 - 10) * (10 - 10)
             + (-8 - -8) * (-8 - -8))%R with 0%R by ring.
    rewrite sqrt_0. lra. }
  split; [exact Hnear|].
  exact (proj2 (blipVisible_window (mkV 0 10 (-8)) (mkV 0 10 (-8))) Hnear).
Defined.

Lemma Qfloor_lt_iff (x : Q) (n : Z) :
  (Qfloor x < n)%Z <-> (x < inject_Z n)%Q.
Proof.
  split.
  - intros Hlt. pose proof (Qlt_floor x) as Hup.
    assert (Hle : (inject_Z (Qfloor x + 1) <= inject_Z n)%Q)
      by (rewrite <- Zle_Qle; lia).
    lra.
  - intros Hlt. pose proof (Qfloor_le x) as Hlow.
    assert (Hz : (inject_Z (Qfloor x) < inject_Z n)%Q) by lra.
    rewrite <- Zlt_Qlt in Hz. exact Hz.
Qed.

Lemma Qlt_bool_true (x y : Q) : Qlt_bool x y = true <-> (x < y)%Q.
Proof.
  unfold Qlt_bool. destruct (Qle_bool y x) eqn:Hb; cbn.
  - apply Qle_bool_iff in Hb. split; [discriminate | lra].
  - apply Qle_bool_false in Hb. split; [intros _; exact Hb | reflexivity].
Qed.

(** X18. With [maxHealth] at 100 the three hull warnings agree: the right
    display shows the hull figure in red, [updateHealthBar] turns the bar
    dark red and (as far as the health goes) the warning lights pulse
    exactly when the health is below 30, although one tests the rounded
    percentage and the others the health itself.  Likewise the energy
    figure is red exactly when the energy is below 30, and the lights
    pulse exactly when one of the two figures is red. *)
Theorem hull_and_energy_warnings_agree (background : string) (g : Game) :
  (maxHealth g == 100)%Q ->
  (hullColor g = "red"%string <-> (health g < 30)%Q)
  /\ (energyColor g = "red"%string <-> (energy g < 30)%Q)
  /\ (healthBarBackground background g = "darkred"%string
      <-> (health g < 30)%Q \/ background = "darkred"%string)
  /\ (warningLightsPulse g = true
      <-> hullColor g = "red"%string \/ energyColor g = "red"%string).
Proof.
  intros Hmax.
  assert (Hhull : hullColor g = "red"%string <-> (health g < 30)%Q).
  { unfold hullColor, hullPercent.
    assert (Hpct : (health g / maxHealth g * 100 == health g)%Q)
      by (rewrite Hmax; field).
    rewrite Hpct.
    destruct (Qfloor (health g) <? 30)%Z eqn:Hb.
    - apply Z.ltb_lt, Qfloor_lt_iff in Hb. split; [intros _; exact Hb | reflexivity].
    - apply Z.ltb_ge in Hb. split; [discriminate|].
      intros Hlt. apply (Qfloor_lt_iff (health g) 30) in Hlt. lia. }
  assert (Henergy : energyColor g = "red"%string <-> (energy g < 30)%Q).
  { unfold energyColor, energyPercent.
    destruct (Qfloor (energy g) <? 30)%Z eqn:Hb.
    - apply Z.ltb_lt, Qfloor_lt_iff in Hb. split; [intros _; exact Hb | reflexivity].
    - apply Z.ltb_ge in Hb. split; [discriminate|].
      intros Hlt. apply (Qfloor_lt_iff (energy g) 30) in Hlt. lia. }
  split; [exact Hhull|]. split; [exact Henergy|]. split.
  - unfold healthBarBackground.
    destruct (Qlt_bool (health g) 30) eqn:Hb.
    + apply Qlt_bool_true in Hb. split; [intros _; left; exact Hb | reflexivity].
    + split; [intros Hd; right; exact Hd|].
      intros [Hlt | Hd]; [|exact Hd].
      apply Qlt_bool_true in Hlt. congruence.
  - unfold warningLightsPulse.
    rewrite orb_true_iff, !Qlt_bool_true, Hhull, Henergy. reflexivity.
Qed.

Lemma hull_and_energy_warnings_agree_witness :
  (maxHealth (takeDamages (repeat 20%Q 4) (initializeGameProperties 0 []))
   == 100)%Q
  /\ hullColor (takeDamages (repeat 20%Q 4) (initializeGameProperties 0 []))
     = "red"%string
  /\ warningLightsPulse
       (takeDamages (repeat 20%Q 4) (initializeGameProperties 0 [])) = true.
Proof.
  assert (Hmax : (maxHealth (takeDamages (repeat 20%Q 4)
                               (initializeGameProperties 0 [])) == 100)%Q)
    by reflexivity.
  destruct (hull_and_energy_warnings_agree "red"
              (takeDamages (repeat 20%Q 4) (initializeGameProperties 0 []))
              Hmax) as (Hhull & _ & _ & Hlights).
  assert (Hred : hullColor (takeDamages (repeat 20%Q 4)
                              (initializeGameProperties 0 [])) = "red"%string)
    by (apply Hhull; reflexivity).
  split; [exact Hmax|]. split; [exact Hred|].
  apply Hlights. left. exact Hred.
Defined.

(** X19. The NEAREST THREAT line is red exactly when there is no lander at
    all (the distance then reads 0) or some lander is less than 20 from
    the camera. *)
Theorem threatColor_red (g : Game) :
  threatColor g = "red"%string
  <-> landers g = []
      \/ exists lander, In lander (landers g)
           /\ (Distance (cameraPosition g) (lander_position lander) < 20)%R.
Proof.
  unfold threatColor, getClosestLanderDistance.
  destruct (landers g) as [|l ls] eqn:Hls.
  - cbn. destruct (Rlt_dec 0 20) as [_|Hn]; [|lra].
    split; [intros _; left; reflexivity | reflexivity].
  - cbn [length Nat.eqb].
    destruct (closestStep_fold (cameraPosition g) (l :: ls) None)
      as (d & Hd & Hfrom & _ & Hall); [right; discriminate|].
    rewrite Hd. destruct Hfrom as [Habs | (l0 & Hin & Heq)]; [discriminate|].
    destruct (Rlt_dec d 20) as [Hlt|Hge].
    + split; [|reflexivity]. intros _. right. exists l0.
      split; [exact Hin | lra].
    + split; [discriminate|].
      intros [Hnil | (l1 & Hin1 & Hlt1)]; [discriminate|].
      specialize (Hall l1 Hin1). lra.
Qed.

(** ** Player movement *)

Section Movement.
Context `{Engine}.

(** X20. On a level heading (the camera's forward direction has no
    vertical part) [updateMovement] never leaves the camera lower than 2
    above the terrain height it read under the camera: it is grounded
    exactly when it ends at that height, and then its vertical velocity is
    0.  A thruster key costs energy whether or not any is left, and the
    thrust is applied all the same. *)
Theorem updateMovement_ground_clearance (deltaTime : R)
    (cameraDirection : Vector3) (g : Game) :
  vy cameraDirection = 0%R ->
  (getHeightAtCoordinates (vx (cameraPosition g)) (vz (cameraPosition g)) + 2
   <= vy (cameraPosition (updateMovement deltaTime cameraDirection g)))%R
  /\ (isGrounded (updateMovement deltaTime cameraDirection g) = true ->
      vy (cameraPosition (updateMovement deltaTime cameraDirection g))
      = (getHeightAtCoordinates (vx (cameraPosition g))
                                (vz (cameraPosition g)) + 2)%R
      /\ verticalVelocity (updateMovement deltaTime cameraDirection g) = 0%R)
  /\ (keys g "q" = true ->
      energy (updateMovement deltaTime cameraDirection g)
      = Qmax 0 (energy g - (5 # 10))
      /\ (isGrounded (updateMovement deltaTime cameraDirection g) = false ->
          verticalVelocity (updateMovement deltaTime cameraDirection g)
          = (Rmin (verticalVelocity g + 15 * deltaTime) 5
             + gravity g * deltaTime)%R))
  /\ (keys g "q" = false -> keys g "e" = false ->
      energy (updateMovement deltaTime cameraDirection g) = energy g).
Proof.
  intros Hlevel. unfold updateMovement. cbv zeta.
  set (movement :=
         (if keys g "d" || keys g "ArrowRight"
          then Vadd _ (Vscale (moveSpeed g) (Vcross cameraDirection Vup))
          else _)).
  assert (Hmove : vy movement = 0%R).
  { subst movement.
    destruct (keys g "w" || keys g "ArrowUp");
      destruct (keys g "s" || keys g "ArrowDown");
      destruct (keys g "a" || keys g "ArrowLeft");
      destruct (keys g "d" || keys g "ArrowRight");
      cbn; rewrite ?Hlevel; ring. }
  clearbody movement.
  destruct (keys g "q"); [|destruct (keys g "e")];
    cbn [cameraPosition verticalVelocity gravity set_energy
         set_verticalVelocity];
    match goal with
    | |- context [Rlt_dec ?a ?b] => destruct (Rlt_dec a b) as [Hlow|Hhigh]
    end;
    cbn; rewrite ?Hmove;
    repeat split; intros; try discriminate; try reflexivity; try lra.
Qed.

End Movement.

Lemma updateMovement_ground_clearance_witness :
  vy Vforward = 0%R
  /\ (0 + 2
      <= vy (cameraPosition
               (@updateMovement proximityEngine (1 / 60) Vforward
                  (initializeGameProperties 0 []))))%R.
Proof.
  split; [reflexivity|].
  exact (proj1 (@updateMovement_ground_clearance proximityEngine (1 / 60)
                  Vforward (initializeGameProperties 0 []) eq_refl)).
Defined.

(** ** Landers *)

(** X21. While a lander is at least [speed] away from the astronaut it
    homes in on, a step takes it nearer in x and never past: the gap in x
    shrinks and keeps its sign. *)
Theorem Lander_update_no_overshoot (gamePlaneZ : R) (crew : list Astronaut)
    (l : Lander) (d : R) (a : Astronaut) :
  findNearest (mkV (vx (lander_position l)) (vy (lander_position l))
                   (lander_initialZ l + gamePlaneZ)) crew = Some (d, a) ->
  (0 <= lander_speed l
   <= Vlength (Vsubtract (astronaut_position a)
                 (mkV (vx (lander_position l)) (vy (lander_position l))
                      (lander_initialZ l + gamePlaneZ))))%R ->
  (Rabs (vx (astronaut_position a)
         - vx (lander_position (Lander_update gamePlaneZ crew l)))
   <= Rabs (vx (astronaut_position a) - vx (lander_position l)))%R
  /\ (0 <= (vx (astronaut_position a) - vx (lander_position l))
           * (vx (astronaut_position a)
              - vx (lander_position (Lander_update gamePlaneZ crew l))))%R.
Proof.
  intros Hnear Hspeed. unfold Lander_update. rewrite Hnear.
  cbn [lander_position vx].
  set (v := Vsubtract (astronaut_position a)
              (mkV (vx (lander_position l)) (vy (lander_position l))
                   (lander_initialZ l + gamePlaneZ))) in *.
  assert (Hgap : (vx (astronaut_position a) - vx (lander_position l) = vx v)%R)
    by reflexivity.
  pose proof (Vlength_ge_x v) as Hx.
  unfold Vnormalize. destruct (Req_dec_T (Vlength v) 0) as [Hz|Hnz].
  - assert (Hv0 : vx v = 0%R).
    { rewrite Hz in Hx. pose proof (Rabs_pos (vx v)).
      apply Rabs_le_between in Hx. lra. }
    replace (vx (astronaut_position a)
             - (vx (lander_position l) + vx v * lander_speed l))%R
      with 0%R by (rewrite Hv0; lra).
    rewrite Hgap, Hv0, Rabs_R0. split; lra.
  - pose proof (Vlength_nonneg v) as Hpos.
    assert (Hlen : (0 < Vlength v)%R) by lra.
    set (k := (1 - lander_speed l / Vlength v)%R).
    assert (Hk : (0 <= k <= 1)%R).
    { subst k.
      assert (0 <= lander_speed l / Vlength v <= 1)%R.
      { split.
        { unfold Rdiv. apply Rmult_le_pos; [lra|].
          apply Rlt_le, Rinv_0_lt_compat. exact Hlen. }
        apply (Rmult_le_reg_r (Vlength v)); [exact Hlen|].
        replace (lander_speed l / Vlength v * Vlength v)%R
          with (lander_speed l) by (field; lra).
        lra. }
      lra. }
    cbn [Vscale vx].
    replace (vx (astronaut_position a)
             - (vx (lander_position l)
                + vx v * (1 / Vlength v) * lander_speed l))%R
      with (vx v * k)%R by (subst k; rewrite <- Hgap; field; lra).
    rewrite Hgap, Rabs_mult, (Rabs_right k) by lra.
    pose proof (Rabs_pos (vx v)). split; nra.
Qed.

Lemma Lander_update_no_overshoot_witness :
  findNearest (mkV (vx (lander_position landerAtEdge))
                   (vy (lander_position landerAtEdge))
                   (lander_initialZ landerAtEdge + 0))
              [astronautAt 0 0; astronautAt 10 50]
  = Some (sqrt 154600, astronautAt 10 50)
  /\ (0 <= (vx (astronaut_position (astronautAt 10 50))
            - vx (lander_position landerAtEdge))
           * (vx (astronaut_position (astronautAt 10 50))
              - vx (lander_position
                      (Lander_update 0 [astronautAt 0 0; astronautAt 10 50]
                         landerAtEdge))))%R.
Proof.
  assert (Hnear :
    findNearest (mkV (vx (lander_position landerAtEdge))
                     (vy (lander_position landerAtEdge))
                     (lander_initialZ landerAtEdge + 0))
                [astronautAt 0 0; astronautAt 10 50]
    = Some (sqrt 154600, astronautAt 10 50)) by exact scenario_nearest.
  split; [exact Hnear|].
  refine (proj2 (Lander_update_no_overshoot 0
                   [astronautAt 0 0; astronautAt 10 50] landerAtEdge
                   (sqrt 154600) (astronautAt 10 50) Hnear _)).
  pose proof (Vlength_ge_x
                (Vsubtract (astronaut_position (astronautAt 10 50))
                   (mkV (vx (lander_position landerAtEdge))
                        (vy (lander_position landerAtEdge))
                        (lander_initialZ landerAtEdge + 0)))) as Hx.
  cbn in Hx. apply Rabs_le_between in Hx. cbn. lra.
Defined.

Section Predation.
Context `{Engine}.

Lemma updateLanders_from_scoreboard (i : nat) :
  forall g : Game,
  (0 <= health g)%Q ->
  score (updateLanders_from i g) = score g
  /\ astronautsSaved (updateLanders_from i g) = astronautsSaved g
  /\ landersDestroyed (updateLanders_from i g) = landersDestroyed g
  /\ lasers (updateLanders_from i g) = lasers g
  /\ energy (updateLanders_from i g) = energy g
  /\ (0 <= health (updateLanders_from i g) <= health g)%Q
  /\ length (landers (updateLanders_from i g)) <= length (landers g).
Proof.
  induction i as [|i IH]; intros g Hh;
    [cbn; repeat split; try lra; lia|].
  cbn [updateLanders_from].
  destruct (landers g !! i) as [lander0|] eqn:Hl;
    [|repeat split; try lra; lia].
  set (lander := Lander_update (gamePlaneZ g) (astronauts g) lander0).
  cbn [landers set_landers astronauts cameraPosition].
  pose proof (length_delete_le (<[i:=lander]> (landers g)) i) as Hdel.
  rewrite length_insert in Hdel.
  destruct (Rlt_dec _ 3).
  - match goal with
    | |- context [updateLanders_from i ?g2] => set (g2' := g2)
    end.
    assert (Hg2 : score g2' = score g
                  /\ astronautsSaved g2' = astronautsSaved g
                  /\ landersDestroyed g2' = landersDestroyed g
                  /\ lasers g2' = lasers g
                  /\ energy g2' = energy g
                  /\ (0 <= health g2' <= health g)%Q
                  /\ length (landers g2') <= length (landers g)).
    { destruct (takeDamage_scoreboard 20
                  (set_landers (<[i:=lander]> (landers g)) g))
        as (Hs & Ha & Hd & Hla & He).
      destruct (takeDamage_frame 20 (set_landers (<[i:=lander]> (landers g)) g))
        as (_ & Hlan & _ & _).
      pose proof (takeDamage_nonneg 20
                    (set_landers (<[i:=lander]> (landers g)) g)) as Hnn.
      pose proof (takeDamage_le 20 (set_landers (<[i:=lander]> (landers g)) g)
                    ltac:(lra) Hh) as Hle.
      subst g2'. cbn [score astronautsSaved landersDestroyed lasers energy
                      health landers set_landers].
      rewrite Hlan. cbn [landers set_landers].
      repeat split; try assumption; lia. }
    destruct Hg2 as (Hs & Ha & Hd & Hla & He & Hh2 & Hlen2).
    destruct (IH g2' ltac:(lra)) as (Hs' & Ha' & Hd' & Hla' & He' & Hh' & Hlen').
    repeat split; try congruence; try lra; lia.
  - destruct (scanDown _ (astronauts g) (length (astronauts g))).
    + cbn. repeat split; try lra; lia.
    + destruct (Rlt_dec _ (-500));
        match goal with
        | |- context [updateLanders_from i ?g2] =>
            destruct (IH g2 Hh) as (Hs' & Ha' & Hd' & Hla' & He' & Hh' & Hlen')
        end;
        cbn in Hs', Ha', Hd', Hla', He', Hh', Hlen';
        rewrite ?length_insert in Hlen';
        rewrite Hs', Ha', Hd', Hla', He';
        repeat split; try reflexivity; try lra; lia.
Qed.

(** X22. The first [updateLanders] never scores: the score, both counters,
    the lasers and the energy come out as they went in (an astronaut taken
    by a lander costs no points, a lander lost on the player earns none).
    The health only goes down, not below 0, and no lander is added. *)
Theorem updateLanders_never_scores (g : Game) :
  (0 <= health g)%Q ->
  score (updateLanders g) = score g
  /\ astronautsSaved (updateLanders g) = astronautsSaved g
  /\ landersDestroyed (updateLanders g) = landersDestroyed g
  /\ lasers (updateLanders g) = lasers g
  /\ energy (updateLanders g) = energy g
  /\ (0 <= health (updateLanders g) <= health g)%Q
  /\ length (landers (updateLanders g)) <= length (landers g).
Proof. intros Hh. apply updateLanders_from_scoreboard. exact Hh. Qed.

End Predation.

Lemma updateLanders_never_scores_witness :
  (0 <= health duelGame)%Q
  /\ score (@updateLanders proximityEngine duelGame) = score duelGame.
Proof.
  assert (Hh : (0 <= health duelGame)%Q) by discriminate.
  split; [exact Hh|].
  exact (proj1 (@updateLanders_never_scores proximityEngine duelGame Hh)).
Defined.

(** ** Astronauts on the scrolling ground *)

Lemma scrollAstronaut_spec (gamePlaneZ : R) (a : Astronaut) :
  vz (astronaut_position (scrollAstronaut gamePlaneZ a))
  = (astronaut_initialZ (scrollAstronaut gamePlaneZ a) + gamePlaneZ)%R
  /\ vx (astronaut_position (scrollAstronaut gamePlaneZ a))
     = vx (astronaut_position a)
  /\ vy (astronaut_position (scrollAstronaut gamePlaneZ a))
     = vy (astronaut_position a)
  /\ astronaut_initialX (scrollAstronaut gamePlaneZ a) = astronaut_initialX a
  /\ ((-1500 <= astronaut_initialZ a + gamePlaneZ)%R ->
      (-500 <= vz (astronaut_position (scrollAstronaut gamePlaneZ a)))%R
      /\ scrollAstronaut gamePlaneZ (scrollAstronaut gamePlaneZ a)
         = scrollAstronaut gamePlaneZ a).
Proof.
  unfold scrollAstronaut.
  destruct (Rlt_dec (astronaut_initialZ a + gamePlaneZ) (-500)) as [Hlow|Hok];
    cbn; repeat split; try lra.
  - destruct (Rlt_dec (astronaut_initialZ a + 1000 + gamePlaneZ) (-500));
      [lra|]. f_equal. f_equal. ring.
  - destruct (Rlt_dec (astronaut_initialZ a + gamePlaneZ) (-500));
      [contradiction | reflexivity].
Qed.

(** X23. After the first [updateAstronauts] every astronaut's depth is its
    [initialZ] plus the depth of the ground plane, with x, y and [initialX]
    as before and none added or lost.  An astronaut no more than 1500
    behind comes out no more than 500 behind (one wrap of 1000 suffices),
    and then a second run changes nothing. *)
Theorem updateAstronauts_follows_ground (g : Game) :
  length (astronauts (updateAstronauts g)) = length (astronauts g)
  /\ Forall (fun a => vz (astronaut_position a)
                      = (astronaut_initialZ a + gamePlaneZ g)%R)
            (astronauts (updateAstronauts g))
  /\ (forall k a, astronauts g !! k = Some a ->
        exists a', astronauts (updateAstronauts g) !! k = Some a'
          /\ vx (astronaut_position a') = vx (astronaut_position a)
          /\ vy (astronaut_position a') = vy (astronaut_position a)
          /\ astronaut_initialX a' = astronaut_initialX a)
  /\ (Forall (fun a => (-1500 <= astronaut_initialZ a + gamePlaneZ g)%R)
             (astronauts g) ->
      Forall (fun a => (-500 <= vz (astronaut_position a))%R)
             (astronauts (updateAstronauts g))
      /\ updateAstronauts (updateAstronauts g) = updateAstronauts g).
Proof.
  unfold updateAstronauts. cbn [astronauts set_astronauts gamePlaneZ].
  split; [apply length_map|]. split.
  { apply Forall_forall. intros a' Hin.
    apply list_elem_of_fmap in Hin. destruct Hin as (a & -> & _).
    apply scrollAstronaut_spec. }
  split.
  { intros k a Hk. exists (scrollAstronaut (gamePlaneZ g) a).
    split; [rewrite list_lookup_fmap, Hk; reflexivity|].
    destruct (scrollAstronaut_spec (gamePlaneZ g) a) as (_ & Hx & Hy & Hix & _).
    repeat split; assumption. }
  intros Hnear. split.
  - induction Hnear as [|a l Ha _ IH]; cbn; constructor; [|exact IH].
    apply scrollAstronaut_spec. exact Ha.
  - assert (Hmap : map (scrollAstronaut (gamePlaneZ g))
                     (map (scrollAstronaut (gamePlaneZ g)) (astronauts g))
                   = map (scrollAstronaut (gamePlaneZ g)) (astronauts g)).
    { induction Hnear as [|a l Ha _ IH]; cbn; [reflexivity|].
      rewrite IH. f_equal.
      destruct (scrollAstronaut_spec (gamePlaneZ g) a) as (_ & _ & _ & _ & Hw).
      apply Hw. exact Ha. }
    unfold set_astronauts at 1. cbn. rewrite Hmap. reflexivity.
Qed.

Lemma updateAstronauts_follows_ground_witness :
  Forall (fun a => (-1500 <= astronaut_initialZ a
                              + gamePlaneZ (initializeGameProperties 0
                                              [astronautAt 10 50]))%R)
         (astronauts (initializeGameProperties 0 [astronautAt 10 50]))
  /\ updateAstronauts
       (updateAstronauts (initializeGameProperties 0 [astronautAt 10 50]))
     = updateAstronauts (initializeGameProperties 0 [astronautAt 10 50]).
Proof.
  assert (Hnear :
    Forall (fun a => (-1500 <= astronaut_initialZ a
                                + gamePlaneZ (initializeGameProperties 0
                                                [astronautAt 10 50]))%R)
           (astronauts (initializeGameProperties 0 [astronautAt 10 50]))).
  { repeat constructor. cbn. lra. }
  split; [exact Hnear|].
  destruct (updateAstronauts_follows_ground
              (initializeGameProperties 0 [astronautAt 10 50]))
    as (_ & _ & _ & Hwrap).
  exact (proj2 (Hwrap Hnear)).
Defined.

(** ** What a tick leaves on the field *)

Lemma Forall_filter_true {A : Type} (keep : A -> bool) (l : list A) :
  Forall (fun x => keep x = true) (List.filter keep l).
Proof.
  induction l as [|x l IH]; cbn; [constructor|].
  destruct (keep x) eqn:Hk; [constructor; assumption | exact IH].
Qed.

(** X24. After a tick that runs, every laser left on the field is at a
    height within [-1000, 1000].  The astronauts are lowered, and those
    below -100 removed, only in a tick that finds no lander once the spawn
    timer has run; a tick cut short by a lander leaves the astronauts as
    they were. *)
Theorem update_leaves_field_in_bounds (currentTime later : Z) (rnd : R)
    (g : Game) :
  isRunning g = true -> isGameOver g = false ->
  Forall (fun laser => laserInBounds laser = true)
         (lasers (update currentTime later rnd g))
  /\ lasers (update currentTime later rnd g)
     = List.filter laserInBounds (lasers g)
  /\ (landers (update_spawn currentTime rnd g) = [] ->
      Forall (fun astronaut => astronautInBounds astronaut = true)
             (astronauts (update currentTime later rnd g)))
  /\ (landers (update_spawn currentTime rnd g) <> [] ->
      astronauts (update currentTime later rnd g) = astronauts g).
Proof.
  intros Hrun Hover.
  set (g1 := update_energy (update_spawn currentTime rnd g)).
  assert (H1 : lasers g1 = lasers g /\ astronauts g1 = astronauts g).
  { subst g1. unfold update_energy, update_spawn.
    destruct (landerSpawnInterval g <? currentTime - lastLanderSpawn g)%Z;
      match goal with
      | |- context [Qlt_bool ?a ?b] => destruct (Qlt_bool a b)
      end; split; reflexivity. }
  destruct H1 as (H1l & H1a).
  assert (H2 : updateLasers_l1431 g1
               = set_lasers (List.filter laserInBounds (lasers g1)) g1).
  { unfold updateLasers_l1431.
    rewrite updateLasers_l1431_from_filter by lia.
    rewrite firstn_all, drop_all, app_nil_r. reflexivity. }
  assert (Hlas : lasers (update currentTime later rnd g)
                 = List.filter laserInBounds (lasers g)).
  { destruct (landers (update_spawn currentTime rnd g)) eqn:Hl.
    - rewrite (update_completes _ _ _ _ Hrun Hover Hl). fold g1.
      change (lasers (updateDifficulty later ?x)) with (lasers x).
      destruct (updateAstronauts_l1456_from_filter
                  (length (astronauts (updateLasers_l1431 g1)))
                  (updateLasers_l1431 g1) ltac:(lia)) as (_ & _ & H4 & _).
      unfold updateAstronauts_l1456. rewrite H4, H2.
      cbn [lasers set_lasers]. rewrite H1l. reflexivity.
    - rewrite update_aborts by (try assumption; rewrite Hl; discriminate).
      fold g1. cbn [lasers set_isRunning]. rewrite H2.
      cbn [lasers set_lasers]. rewrite H1l. reflexivity. }
  split; [rewrite Hlas; apply Forall_filter_true|]. split; [exact Hlas|].
  split.
  - intros Hnone. rewrite (update_completes _ _ _ _ Hrun Hover Hnone). fold g1.
    change (astronauts (updateDifficulty later ?x)) with (astronauts x).
    destruct (updateAstronauts_l1456_from_filter
                (length (astronauts (updateLasers_l1431 g1)))
                (updateLasers_l1431 g1) ltac:(lia)) as (H4 & _).
    rewrite firstn_all, drop_all, app_nil_r in H4.
    unfold updateAstronauts_l1456. rewrite H4. apply Forall_filter_true.
  - intros Hsome. rewrite (update_aborts _ _ _ _ Hrun Hover Hsome). fold g1.
    cbn [astronauts set_isRunning]. rewrite H2. cbn [astronauts set_lasers].
    exact H1a.
Qed.

Lemma update_leaves_field_in_bounds_witness :
  isRunning (start 0 (initializeGameProperties 0 [astronautAt 10 50])) = true
  /\ isGameOver (start 0 (initializeGameProperties 0 [astronautAt 10 50]))
     = false
  /\ astronauts (update 3001 3002 (1 / 2)
                   (start 0 (initializeGameProperties 0 [astronautAt 10 50])))
     = [astronautAt 10 50].
Proof.
  split; [reflexivity|]. split; [reflexivity|].
  apply (proj2 (proj2 (proj2
           (update_leaves_field_in_bounds 3001 3002 (1 / 2)
              (start 0 (initializeGameProperties 0 [astronautAt 10 50]))
              eq_refl eq_refl)))).
  discriminate.
Defined.

(** ** Landers stay as they were spawned *)

Lemma Lander_update_asSpawned (gamePlaneZ : R) (crew : list Astronaut)
    (l : Lander) :
  asSpawned l -> asSpawned (Lander_update gamePlaneZ crew l).
Proof.
  unfold asSpawned, Lander_update.
  destruct (findNearest _ crew) as [[d a]|]; cbn; tauto.
Qed.

Lemma Lander_update_step_size (gamePlaneZ : R) (crew : list Astronaut)
    (l : Lander) :
  (0 <= lander_speed l)%R ->
  (Rabs (vx (lander_position (Lander_update gamePlaneZ crew l))
         - vx (lander_position l)) <= lander_speed l)%R.
Proof.
  intros Hspeed. unfold Lander_update.
  destruct (findNearest _ crew) as [[d a]|]; cbn [lander_position vx].
  - match goal with
    | |- context [Vnormalize ?v] =>
        destruct (Vnormalize_x v) as (_ & Hsize);
        set (dx := vx (Vnormalize v)) in *
    end.
    replace (vx (lander_position l) + dx * lander_speed l
             - vx (lander_position l))%R
      with (dx * lander_speed l)%R by ring.
    rewrite Rabs_mult, (Rabs_right (lander_speed l)) by lra.
    pose proof (Rabs_pos dx). nra.
  - replace (vx (lander_position l) - vx (lander_position l))%R with 0%R
      by ring.
    rewrite Rabs_R0. exact Hspeed.
Qed.

Lemma frame_landers_loops (g : Game) :
  landers (updateLasers_l1431 g) = landers g
  /\ landers (updateAstronauts_l1456 g) = landers g.
Proof.
  split.
  - unfold updateLasers_l1431.
    rewrite updateLasers_l1431_from_filter by lia. reflexivity.
  - unfold updateAstronauts_l1456.
    apply (updateAstronauts_l1456_from_filter (length (astronauts g)) g).
    lia.
Qed.

Section Spawned.
Context `{Engine}.

Lemma updateLasers_from_asSpawned (i : nat) :
  forall g : Game,
  Forall asSpawned (landers g) ->
  Forall asSpawned (landers (updateLasers_from i g)).
Proof.
  intros g Hall.
  destruct (updateLasers_from_exit i g)
    as [(Hsame & _) | (i' & j & laser & lander & _ & _ & _ & _ & _ & _ & Hl & _)].
  - rewrite Hsame. exact Hall.
  - rewrite Hl. apply Forall_delete. exact Hall.
Qed.

Lemma updateLanders_from_asSpawned (i : nat) :
  forall g : Game,
  Forall asSpawned (landers g) ->
  Forall asSpawned (landers (updateLanders_from i g)).
Proof.
  induction i as [|i IH]; intros g Hall; cbn [updateLanders_from];
    [exact Hall|].
  destruct (landers g !! i) as [lander0|] eqn:Hl; [|exact Hall].
  set (lander := Lander_update (gamePlaneZ g) (astronauts g) lander0).
  cbn [landers set_landers astronauts cameraPosition].
  assert (Hins : Forall asSpawned (<[i:=lander]> (landers g))).
  { apply Forall_insert; [exact Hall|].
    apply Lander_update_asSpawned.
    exact (Forall_lookup_1 _ _ _ _ Hall Hl). }
  destruct (Rlt_dec _ 3).
  - apply IH. cbn [landers set_landers].
    destruct (takeDamage_frame 20 (set_landers (<[i:=lander]> (landers g)) g))
      as (_ & Hlan & _ & _).
    rewrite Hlan. cbn [landers set_landers]. apply Forall_delete. exact Hins.
  - destruct (scanDown _ (astronauts g) (length (astronauts g))).
    + cbn. apply Forall_delete. exact Hins.
    + destruct (Rlt_dec _ (-500)); apply IH; cbn;
        [apply Forall_delete|]; exact Hins.
Qed.

Lemma step_asSpawned (g g' : Game) :
  step g g' -> Forall asSpawned (landers g) -> Forall asSpawned (landers g').
Proof.
  intros Hstep Hall. destruct Hstep.
  - unfold keydown.
    destruct (String.eqb code "Space" && canShoot (setKey key true g));
      [|exact Hall].
    unfold shootLaser. cbn.
    destruct (Qle_bool (laserEnergyCost g) (energy g)); exact Hall.
  - exact Hall.
  - exact Hall.
  - exact Hall.
  - exact Hall.
  - exact Hall.
  - unfold clampCamera. destruct (Rlt_dec _ 2); exact Hall.
  - unfold updateMovement. cbv zeta.
    destruct (keys g "q"); [|destruct (keys g "e")]; cbn;
      match goal with
      | |- context [Rlt_dec ?a ?b] => destruct (Rlt_dec a b)
      end; exact Hall.
  - apply updateLasers_from_asSpawned. exact Hall.
  - apply updateLanders_from_asSpawned. exact Hall.
  - exact Hall.
  - rewrite (proj1 (frame_landers_loops g)). exact Hall.
  - rewrite updateLanders_l1441_state. exact Hall.
  - rewrite (proj2 (frame_landers_loops g)). exact Hall.
  - destruct (update_cases currentTime later rnd g) as [-> | [-> | ->]];
      [exact Hall | |];
      [change (landers (updateDifficulty later ?x)) with (landers x);
       rewrite (proj2 (frame_landers_loops _))
      |change (landers (set_isRunning false ?x)) with (landers x)];
      rewrite (proj1 (frame_landers_loops _));
    unfold update_energy, update_spawn;
    destruct (landerSpawnInterval g <? currentTime - lastLanderSpawn g)%Z;
      match goal with
      | |- context [Qlt_bool ?a ?b] => destruct (Qlt_bool a b)
      end; cbn; try exact Hall;
      (apply Forall_app; split; [exact Hall|]);
      (constructor; [|constructor]); unfold asSpawned; cbn; lra.
Qed.

Lemma reachable_asSpawned (g : Game) :
  reachable g -> Forall asSpawned (landers g).
Proof.
  induction 1 as [now crew | g g' _ IH Hstep].
  - constructor.
  - exact (step_asSpawned g g' Hstep IH).
Qed.

(** X25. In every reachable state every lander still has the speed 0.3
    and the home depth, inside [-400, 400), that [spawnLander] gave it: no
    method changes either.  So an update of such a lander, whatever the
    astronauts, moves it by at most 0.3 in x. *)
Theorem reachable_landers_asSpawned (g : Game) :
  reachable g ->
  Forall asSpawned (landers g)
  /\ forall (k : nat) (l : Lander) (gamePlaneZ : R) (crew : list Astronaut),
       landers g !! k = Some l ->
       (Rabs (vx (lander_position (Lander_update gamePlaneZ crew l))
              - vx (lander_position l)) <= 3 / 10)%R.
Proof.
  intros Hreach. pose proof (reachable_asSpawned g Hreach) as Hall.
  split; [exact Hall|].
  intros k l gamePlaneZ crew Hk.
  destruct (Forall_lookup_1 _ _ _ _ Hall Hk) as (Hspeed & _).
  rewrite <- Hspeed. apply Lander_update_step_size. rewrite Hspeed. lra.
Qed.

End Spawned.

Lemma reachable_landers_asSpawned_witness :
  @reachable proximityEngine
    (update 3001 3002 (1 / 2) (start 0 (initializeGameProperties 0 [])))
  /\ Forall asSpawned
       (landers (update 3001 3002 (1 / 2)
                   (start 0 (initializeGameProperties 0 [])))).
Proof.
  assert (Hreach : @reachable proximityEngine
                     (update 3001 3002 (1 / 2)
                        (start 0 (initializeGameProperties 0 [])))).
  { apply (reachable_step (start 0 (initializeGameProperties 0 []))).
    - apply (reachable_step (initializeGameProperties 0 [])).
      + apply reachable_init.
      + apply step_start.
    - apply step_update. lra. }
  split; [exact Hreach|].
  exact (proj1 (@reachable_landers_asSpawned proximityEngine _ Hreach)).
Defined.

(** ** The key map *)

Lemma shootLaser_keys (forward : Vector3) (g : Game) :
  keys (shootLaser forward g) = keys g.
Proof.
  unfold shootLaser.
  destruct (Qle_bool (laserEnergyCost g) (energy g)); reflexivity.
Qed.

(** X26. The key map records exactly what the listeners were told: after
    a [keydown] the key reads as held, after a [keyup] as released, and
    every other key reads as before, whether or not the key press
    fired. *)
Theorem keys_track_the_listeners (key code other : string)
    (forward : Vector3) (g : Game) :
  keys (keydown key code forward g) key = true
  /\ keys (keyup key g) key = false
  /\ keys (keyup key (keydown key code forward g)) key = false
  /\ (String.eqb other key = false ->
      keys (keydown key code forward g) other = keys g other
      /\ keys (keyup key g) other = keys g other).
Proof.
  assert (Hdown : keys (keydown key code forward g)
                  = keys (setKey key true g)).
  { unfold keydown.
    destruct (String.eqb code "Space" && canShoot (setKey key true g));
      [|reflexivity].
    cbn [keys set_canShoot]. apply shootLaser_keys. }
  unfold keyup. rewrite Hdown. cbn [keys setKey set_keys].
  rewrite !String.eqb_refl.
  split; [reflexivity|]. split; [reflexivity|]. split; [reflexivity|].
  intros Hother. rewrite Hother. split; reflexivity.
Qed.

Lemma keys_track_the_listeners_witness :
  String.eqb "e" "q" = false
  /\ keys (keydown "q" "KeyQ" Vforward (initializeGameProperties 0 [])) "e"
     = keys (initializeGameProperties 0 []) "e".
Proof.
  split; [reflexivity|].
  exact (proj1 (proj2 (proj2 (proj2
           (keys_track_the_listeners "q" "KeyQ" "e" Vforward
              (initializeGameProperties 0 [])))) eq_refl)).
Defined.

(** ** The displays in reachable states *)

Section Gauges.
Context `{Engine}.

(** X27. In every reachable state the figures the displays show are
    percentages: the hull figure, the energy figure and the width of the
    health bar all lie between 0 and 100. *)
Theorem reachable_gauges_are_percentages (g : Game) :
  reachable g ->
  (0 <= hullPercent g <= 100)%Z
  /\ (0 <= energyPercent g <= 100)%Z
  /\ (0 <= healthBarWidth g <= 100)%Q.
Proof.
  intros Hreach.
  destruct (reachable_poolsInRange g Hreach)
    as (Hmh & _ & _ & _ & Hh & He).
  assert (Hw : (healthBarWidth g == health g)%Q).
  { unfold healthBarWidth. rewrite Hmh. field. }
  assert (Hfloor : forall x : Q, (0 <= x <= 100)%Q -> (0 <= Qfloor x <= 100)%Z).
  { intros x (H0 & H100). split.
    - change 0%Z with (Qfloor 0). apply Qfloor_resp_le. exact H0.
    - change 100%Z with (Qfloor 100). apply Qfloor_resp_le. exact H100. }
  split; [|split].
  - unfold hullPercent. fold (healthBarWidth g). rewrite Hw.
    apply Hfloor. exact Hh.
  - apply Hfloor. exact He.
  - rewrite Hw. exact Hh.
Qed.

End Gauges.

Lemma reachable_gauges_are_percentages_witness :
  @reachable proximityEngine (start 0 (initializeGameProperties 0 []))
  /\ (0 <= hullPercent (start 0 (initializeGameProperties 0 [])) <= 100)%Z.
Proof.
  assert (Hreach : @reachable proximityEngine
                     (start 0 (initializeGameProperties 0 []))).
  { apply (reachable_step (initializeGameProperties 0 [])).
    - apply reachable_init.
    - apply step_start. }
  split; [exact Hreach|].
  exact (proj1 (@reachable_gauges_are_percentages proximityEngine _ Hreach)).
Defined.
